(** * JSON:API atomic operations: parser and view

    A shallow embedding of [atomic_operations/parsers.py] and
    [atomic_operations/views.py], with the properties of the batch pipeline
    stated over it.  Decoded request bodies are JSON trees; Python
    dictionaries keep their insertion order and are association lists;
    exceptions are values of [exn] carried by a small error monad; the view
    runs in a state monad over the database, the lid registry and the
    response buffer. *)

From Stdlib Require Import Ascii.
From stdpp Require Import gmap strings list pretty.

Open Scope string_scope.
Set Warnings "-register-all,-clear-no-such-hyp".

(** ** Decoded JSON

    What [json.loads] gives the parser.  Numbers are integers here: a
    fractional number has no counterpart in this development. *)
Inductive json : Type :=
| JNull
| JBool (b : bool)
| JNum (n : Z)
| JStr (s : string)
| JList (l : list json)
| JDict (d : list (string * json)).

Abbreviation pydict := (list (string * json)).

(** ** Exceptions *)
Inductive exn : Type :=
| JsonApiParseError (id detail pointer : string)
| MissingPrimaryData (idx : nat)
| InvalidPrimaryDataType (idx : nat) (data_type : string)
| UnprocessableEntity (errors : json)
| ImproperlyConfigured (msg : string)
| ObjectDoesNotExist
| KeyError (key : string)
| AttributeError (attr : string)
| TypeError (msg : string)
| IndexError
| HandlerError (payload : json)
| OutOfModel (what : string).

Inductive result (A : Type) : Type :=
| Ok (a : A)
| Raise (e : exn).
Arguments Ok {A} a.
Arguments Raise {A} e.

#[global] Instance result_ret : MRet result := λ A a, Ok a.
#[global] Instance result_bind : MBind result :=
  λ A B f m, match m with Ok a => f a | Raise e => Raise e end.

#[global] Instance result_fmap : FMap result :=
  λ A B f m, match m with Ok a => Ok (f a) | Raise e => Raise e end.

Definition is_ok {A} (r : result A) : bool :=
  match r with Ok _ => true | Raise _ => false end.

(** [try: body except KeyError: handler] *)
Definition except_KeyError {A} (body handler : result A) : result A :=
  match body with
  | Raise (KeyError _) => handler
  | r => r
  end.

(** ** The Python operations the code relies on *)
Module Py.

(** [bool(v)] *)
Definition truthy (v : json) : bool :=
  match v with
  | JNull => false
  | JBool b => b
  | JNum n => negb (n =? 0)%Z
  | JStr s => negb (String.eqb s "")
  | JList l => negb (Nat.eqb (length l) 0)
  | JDict d => negb (Nat.eqb (length d) 0)
  end.

(** [v == s] for a string literal [s] *)
Definition is_str (v : json) (s : string) : bool :=
  match v with JStr t => String.eqb t s | _ => false end.

Definition is_dict (v : json) : bool :=
  match v with JDict _ => true | _ => false end.

Definition is_list (v : json) : bool :=
  match v with JList _ => true | _ => false end.

(** Dictionaries: first binding of a key, insertion order kept. *)
Fixpoint lookup (k : string) (d : pydict) : option json :=
  match d with
  | [] => None
  | (k', v) :: d' => if String.eqb k' k then Some v else lookup k d'
  end.

(** [d[k] = v]: overwrite in place, or append *)
Fixpoint setitem (k : string) (v : json) (d : pydict) : pydict :=
  match d with
  | [] => [(k, v)]
  | (k', v') :: d' =>
      if String.eqb k' k then (k, v) :: d' else (k', v') :: setitem k v d'
  end.

Fixpoint delitem (k : string) (d : pydict) : pydict :=
  match d with
  | [] => []
  | (k', v') :: d' =>
      if String.eqb k' k then d' else (k', v') :: delitem k d'
  end.

(** [d.update(e)] *)
Definition update (d e : pydict) : pydict :=
  fold_left (λ acc kv, setitem kv.1 kv.2 acc) e d.

(** [v.get(k)] and [v.get(k, dflt)]; only dictionaries have [get] *)
Definition get_default (v : json) (k : string) (dflt : json) : result json :=
  match v with
  | JDict d => Ok (default dflt (lookup k d))
  | _ => Raise (AttributeError "get")
  end.

Definition get (v : json) (k : string) : result json := get_default v k JNull.

(** [v[k]] with a string subscript *)
Definition getitem (v : json) (k : string) : result json :=
  match v with
  | JDict d =>
      match lookup k d with
      | Some x => Ok x
      | None => Raise (KeyError k)
      end
  | _ => Raise (TypeError "subscript")
  end.

Fixpoint str_contains (needle hay : string) : bool :=
  String.prefix needle hay ||
  match hay with
  | EmptyString => false
  | String _ hay' => str_contains needle hay'
  end.

(** [k in v] for a string literal [k] *)
Definition contains (k : string) (v : json) : result bool :=
  match v with
  | JDict d => Ok (bool_decide (is_Some (lookup k d)))
  | JList l => Ok (existsb (λ x, is_str x k) l)
  | JStr s => Ok (str_contains k s)
  | _ => Raise (TypeError "not iterable")
  end.

(** [repr(v)]; string escapes are not reproduced *)
Fixpoint repr (v : json) : string :=
  match v with
  | JNull => "None"
  | JBool true => "True"
  | JBool false => "False"
  | JNum n => pretty n
  | JStr s => "'" +:+ s +:+ "'"
  | JList l => "[" +:+ String.concat ", " (map repr l) +:+ "]"
  | JDict d =>
      "{" +:+ String.concat ", "
                (map (λ kv, "'" +:+ kv.1 +:+ "': " +:+ repr kv.2) d) +:+ "}"
  end.

(** [str(v)], what an f-string inserts *)
Definition str (v : json) : string :=
  match v with JStr s => s | _ => repr v end.

(** [s.rstrip('/')] *)
Fixpoint rstrip_slash (s : string) : string :=
  match s with
  | EmptyString => EmptyString
  | String c s' =>
      let r := rstrip_slash s' in
      if Ascii.eqb c "/"%char && String.eqb r "" then EmptyString else String c r
  end.

(** [s.split('/')[-1]] *)
Fixpoint last_segment_from (acc s : string) : string :=
  match s with
  | EmptyString => String.rev acc
  | String c s' =>
      if Ascii.eqb c "/"%char then last_segment_from EmptyString s'
      else last_segment_from (String c acc) s'
  end.

Definition last_segment (s : string) : string := last_segment_from EmptyString s.

(** [s.startswith(p)] *)
Definition startswith (v : json) (p : string) : result bool :=
  match v with
  | JStr s => Ok (String.prefix p s)
  | _ => Raise (AttributeError "startswith")
  end.

(** [a == b] *)
Fixpoint eqb (a b : json) {struct a} : bool :=
  match a, b with
  | JNull, JNull => true
  | JStr s, JStr t => String.eqb s t
  | JBool x, JBool y => Bool.eqb x y
  | JBool x, JNum n | JNum n, JBool x => (n =? (if x then 1 else 0))%Z
  | JNum n, JNum m => (n =? m)%Z
  | JList l, JList m =>
      (fix all2 (l m : list json) {struct l} : bool :=
         match l, m with
         | [], [] => true
         | x :: l', y :: m' => eqb x y && all2 l' m'
         | _, _ => false
         end) l m
  | JDict d, JDict e =>
      Nat.eqb (length d) (length e) &&
      forallb (λ kv : string * json,
                 match lookup kv.1 e with
                 | Some v => eqb kv.2 v
                 | None => false
                 end) d
  | _, _ => false
  end.

(** Keys of the dictionaries the view builds itself.  [True == 1] and
    [False == 0] hash alike; lists and dictionaries are unhashable. *)
Inductive key : Type :=
| KNone
| KNum (n : Z)
| KStr (s : string).

Definition hash_key (v : json) : result key :=
  match v with
  | JNull => Ok KNone
  | JBool b => Ok (KNum (if b then 1 else 0))
  | JNum n => Ok (KNum n)
  | JStr s => Ok (KStr s)
  | JList _ | JDict _ => Raise (TypeError "unhashable type")
  end.

End Py.

(** ** consts.py *)
Definition ATOMIC_OPERATIONS : string := "atomic:operations".
Definition OP_ADD : string := "add".
Definition OP_UPDATE : string := "update".
Definition OP_REMOVE : string := "remove".
Definition OP_INVOKE : string := "invoke".
Definition OP_UPDATE_RELATIONSHIP : string := "update-relationship".

(** [for x in l: f(x)], stopping at the first exception *)
Fixpoint for_each {A} (f : A → result unit) (l : list A) : result unit :=
  match l with
  | [] => Ok tt
  | x :: l' => f x ;; for_each f l'
  end.

(** ** parsers.py: [AtomicOperationParser] *)
Module Parser.

Section WithBaseParser.

(** The order in which Python iterates over the set [SUPPORTED_OPERATIONS];
    it varies with the hash seed of the process. *)
Variable SUPPORTED_OPERATIONS : list string.

(** The inherited static methods of [rest_framework_json_api]'s
    [JSONParser], which this repository does not define. *)
Variable parse_attributes : json → result pydict.
Variable parse_relationships : json → result pydict.
Variable parse_metadata : json → result pydict.

Definition check_resource_identifier_object
    (idx : nat) (resource_identifier_object : json) (operation_code : json)
  : result unit :=
  let pointer :=
    "/" +:+ ATOMIC_OPERATIONS +:+ "/" +:+ pretty idx +:+ "/" +:+
    (if Py.is_str operation_code "update" then "data" else "ref") in
  (if Py.is_str operation_code "update" || Py.is_str operation_code "remove"
   then
     resource_id ← Py.get resource_identifier_object "id";
     resource_lid ← Py.get resource_identifier_object "lid";
     if negb (Py.truthy resource_id || Py.truthy resource_lid) then
       Raise (JsonApiParseError "missing-id"
         "The resource identifier object must contain an `id` member or a `lid` member"
         pointer)
     else if Py.truthy resource_id && Py.truthy resource_lid then
       Raise (JsonApiParseError "multiple-id-fields"
         "Only one of `id`, `lid` may be specified" pointer)
     else Ok tt
   else Ok tt) ;;
  type ← Py.get resource_identifier_object "type";
  if negb (Py.truthy type) then
    Raise (JsonApiParseError "missing-type"
      "The resource identifier object must contain an `type` member" pointer)
  else Ok tt.

Definition check_add_operation (idx : nat) (data : json) : result unit :=
  if negb (Py.is_dict data) then Raise (MissingPrimaryData idx)
  else check_resource_identifier_object idx data (JStr "add").

Definition check_relation_update (idx : nat) (operation : json) : result unit :=
  ref ← Py.getitem operation "ref";
  check_resource_identifier_object idx ref (JStr "update") ;;
  relationship ← Py.get ref "relationship";
  if negb (Py.truthy relationship) then
    Raise (JsonApiParseError "missing-relationship-naming"
      "relationship must be named by the `relationship` attribute"
      ("/" +:+ ATOMIC_OPERATIONS +:+ "/" +:+ pretty idx +:+ "/ref"))
  else
    except_KeyError
      (data ← Py.getitem operation "data";
       match data with
       | JNull => Ok tt
       | JDict _ => check_resource_identifier_object idx data (JStr "update")
       | JList relations =>
           for_each
             (λ relation,
                check_resource_identifier_object idx relation (JStr "update"))
             relations
       | _ => Raise (InvalidPrimaryDataType idx "object or array")
       end)
      (Raise (MissingPrimaryData idx)).

Definition check_update_operation (idx : nat) (operation : json) : result unit :=
  ref ← Py.get operation "ref";
  if Py.truthy ref then check_relation_update idx operation
  else
    data ← Py.get operation "data";
    if negb (Py.truthy data) then Raise (MissingPrimaryData idx)
    else if negb (Py.is_dict data) then
      Raise (InvalidPrimaryDataType idx "object")
    else
      op ← Py.getitem operation "op";
      check_resource_identifier_object idx data op.

Definition check_remove_operation (idx : nat) (ref : json) : result unit :=
  if negb (Py.truthy ref) then
    Raise (JsonApiParseError "missing-ref-attribute"
      "`ref` must be part of remove operation"
      ("/" +:+ ATOMIC_OPERATIONS +:+ "/" +:+ pretty idx))
  else check_resource_identifier_object idx ref (JStr "remove").

Definition check_invoke_operation (idx : nat) (operation : json) : result unit :=
  ref ← Py.get operation "ref";
  if negb (Py.truthy ref) then
    Raise (JsonApiParseError "missing-ref-attribute"
      "`ref` is required for invoke operation"
      ("/" +:+ ATOMIC_OPERATIONS +:+ "/" +:+ pretty idx))
  else
    href ← Py.get ref "href";
    if negb (Py.truthy href) then
      Raise (JsonApiParseError "missing-href-attribute"
        "`href` is required in ref for invoke operation"
        ("/" +:+ ATOMIC_OPERATIONS +:+ "/" +:+ pretty idx +:+ "/ref"))
    else
      type ← Py.get ref "type";
      if negb (Py.truthy type) then
        Raise (JsonApiParseError "missing-type"
          "`type` is required in ref for invoke operation"
          ("/" +:+ ATOMIC_OPERATIONS +:+ "/" +:+ pretty idx +:+ "/ref"))
      else Ok tt.

Definition check_operation (idx : nat) (operation : json) : result unit :=
  operation_code ← Py.get operation "op";
  ref ← Py.get operation "ref";
  href ← Py.get operation "href";
  data ← Py.get operation "data";
  if negb (Py.truthy operation_code) then
    Raise (JsonApiParseError "missing-operation-code"
      "Received operation does not provide an operation code"
      ("/" +:+ ATOMIC_OPERATIONS +:+ "/" +:+ pretty idx +:+ "/op"))
  else if Py.truthy href && negb (Py.is_str operation_code OP_INVOKE) then
    Raise (JsonApiParseError "not-implemented"
      "Operation 'href' is only supported for invoke operations. Use 'ref' instead."
      ("/" +:+ ATOMIC_OPERATIONS +:+ "/" +:+ pretty idx +:+ "/href"))
  else if Py.is_str operation_code OP_ADD then check_add_operation idx data
  else if Py.is_str operation_code OP_REMOVE then check_remove_operation idx ref
  else if Py.is_str operation_code OP_UPDATE then check_update_operation idx operation
  else if Py.is_str operation_code OP_INVOKE then check_invoke_operation idx operation
  else
    Raise (JsonApiParseError "unknown-operation-code"
      ("Unknown operation '" +:+ Py.str operation_code +:+
       "'. Supported operations: " +:+ String.concat ", " SUPPORTED_OPERATIONS)
      ("/" +:+ ATOMIC_OPERATIONS +:+ "/" +:+ pretty idx +:+ "/op")).

(** [resource_type and resource_type.startswith("bulk")], as a condition *)
Definition is_bulk_operation_type (resource_type : json) : result bool :=
  if negb (Py.truthy resource_type) then Ok false
  else Py.startswith resource_type "bulk".

Definition parse_id_lid_and_type (resource_identifier_object : json)
  : result pydict :=
  has_id ← Py.contains "id" resource_identifier_object;
  parsed_data ←
    (if has_id : bool then
       id ← Py.get resource_identifier_object "id"; Ok [("id", id)]
     else Ok []);
  type ← Py.get resource_identifier_object "type";
  let parsed_data := Py.setitem "type" type parsed_data in
  lid ← Py.get_default resource_identifier_object "lid" JNull;
  Ok (if Py.truthy lid then Py.setitem "lid" lid parsed_data else parsed_data).

Definition check_root (document : json) : result unit :=
  let missing :=
    Raise (JsonApiParseError "missing-operation-objects"
      "Received document does not contain operations objects"
      ("/" +:+ ATOMIC_OPERATIONS)) in
  match document with
  | JDict d =>
      match Py.lookup ATOMIC_OPERATIONS d with
      | None => missing
      | Some operations =>
          if negb (Py.is_list operations) then
            Raise (JsonApiParseError "invalid-operation-objects"
              "Received operation objects is not a valid JSON:API atomic operation request"
              ("/" +:+ ATOMIC_OPERATIONS))
          else Ok tt
      end
  | _ => missing
  end.

Definition parse_operation_metadata
    (resource_identifier_object : json) (metadata : json) : result pydict :=
  if negb (Py.truthy metadata) then Ok []
  else
    has_id ← Py.contains "id" resource_identifier_object;
    idx ←
      (if has_id : bool then Py.get resource_identifier_object "id"
       else
         has_lid ← Py.contains "lid" resource_identifier_object;
         if has_lid : bool then Py.get resource_identifier_object "lid"
         else Ok JNull);
    match metadata with
    | JDict items =>
        for_each
          (λ kv : string * json,
             if String.eqb kv.1 "include" && negb (Py.is_list kv.2) then
               Raise (JsonApiParseError "invalid-operation-include-value"
                 "Received operation include value is not a list"
                 (ATOMIC_OPERATIONS +:+ "/" +:+ Py.str idx +:+ "/meta/include"))
             else Ok tt)
          items ;;
        Ok [("meta", metadata)]
    | _ =>
        Raise (JsonApiParseError "invalid-operation-meta-object"
          "Received operation meta data value is not valid"
          (ATOMIC_OPERATIONS +:+ "/" +:+ Py.str idx +:+ "/meta"))
    end.

Definition parse_operation (resource_identifier_object : json) (document : json)
  : result pydict :=
  _parsed_data ← parse_id_lid_and_type resource_identifier_object;
  attributes ← parse_attributes resource_identifier_object;
  relationships ← parse_relationships resource_identifier_object;
  metadata ← parse_metadata document;
  Ok (Py.update (Py.update (Py.update _parsed_data attributes) relationships)
        metadata).

(** The body of the loop of [parse_data]: one operation of the request
    becomes the single-entry dictionary [{operation_code: _parsed_data}],
    here the pair of its key and its value. *)
Definition parse_data_operation (document : json) (idx : nat) (operation : json)
  : result (string * json) :=
  check_operation idx operation ;;
  meta ← Py.get operation "meta";
  op_code ← Py.getitem operation "op";
  is_relation_update ←
    (if Py.is_str op_code OP_UPDATE then
       ref ← Py.get operation "ref"; Ok (Py.truthy ref)
     else Ok false);
  if is_relation_update : bool then
    ref ← Py.getitem operation "ref";
    match ref with
    | JDict members =>
        match Py.lookup "relationship" members with
        | None => Raise (KeyError "relationship")
        | Some name =>
            data ← Py.getitem operation "data";
            relationships ←
              match name with
              | JStr n => Ok (JDict [(n, JDict [("data", data)])])
              | JList _ | JDict _ => Raise (TypeError "unhashable type")
              | _ => Raise (OutOfModel "dictionary key that is not a string")
              end;
            let ref :=
              JDict (Py.setitem "relationships" relationships
                       (Py.delitem "relationship" members)) in
            _parsed_data ← parse_operation ref document;
            metadata ← parse_operation_metadata ref meta;
            Ok (OP_UPDATE_RELATIONSHIP, JDict (Py.update _parsed_data metadata))
        end
    | JList _ => Raise (TypeError "pop")
    | _ => Raise (AttributeError "pop")
    end
  else if Py.is_str op_code OP_INVOKE then
    ref ← Py.getitem operation "ref";
    data ← Py.get_default operation "data" (JDict []);
    has_attributes ← Py.contains "attributes" data;
    structured ←
      (if has_attributes : bool then Ok true
       else Py.contains "relationships" data);
    parsed_invoke_data ←
      (if structured : bool then
         p ← parse_operation data document; Ok (JDict p)
       else Ok data);
    type ← Py.getitem ref "type";
    href ← Py.getitem ref "href";
    metadata ← parse_operation_metadata ref meta;
    Ok (OP_INVOKE,
        JDict (Py.update
                 [("type", type); ("href", href); ("data", parsed_invoke_data)]
                 metadata))
  else
    is_bulk ←
      (if Py.is_str op_code OP_ADD then
         data ← Py.get_default operation "data" (JDict []);
         type ← Py.get data "type";
         is_bulk_operation_type type
       else Ok false);
    if is_bulk : bool then
      data ← Py.getitem operation "data";
      _parsed_data ← parse_operation data document;
      metadata ← parse_operation_metadata data meta;
      Ok (OP_ADD, JDict (Py.update _parsed_data metadata))
    else
      ref ← Py.get operation "ref";
      data ← Py.get_default operation "data" ref;
      _parsed_data ← parse_operation data document;
      metadata ← parse_operation_metadata data meta;
      match op_code with
      | JStr operation_code =>
          Ok (operation_code, JDict (Py.update _parsed_data metadata))
      | _ => Raise (OutOfModel "dictionary key that is not a string")
      end.

Fixpoint parse_operations (document : json) (idx : nat) (operations : list json)
  : result (list (string * json)) :=
  match operations with
  | [] => Ok []
  | operation :: rest =>
      parsed ← parse_data_operation document idx operation;
      parsed_data ← parse_operations document (S idx) rest;
      Ok (parsed :: parsed_data)
  end.

Definition parse_data (document : json) : result (list (string * json)) :=
  check_root document ;;
  operations ← Py.getitem document ATOMIC_OPERATIONS;
  match operations with
  | JList l => parse_operations document 0 l
  | _ => Raise (TypeError "enumerate")
  end.

End WithBaseParser.

End Parser.

#[global] Instance key_eq_dec : EqDecision Py.key.
Proof. solve_decision. Defined.

#[global] Instance key_countable : Countable Py.key.
Proof.
  refine (inj_countable'
    (λ k, match k with
          | Py.KNone => inl (inl ())
          | Py.KNum n => inl (inr n)
          | Py.KStr s => inr s
          end)
    (λ x : unit + Z + string,
       match x with
       | inl (inl _) => Py.KNone
       | inl (inr n) => Py.KNum n
       | inr s => Py.KStr s
       end) _).
  by intros [].
Defined.

(** ** views.py: [AtomicOperationView] *)
Module View.

(** [lid_to_id = defaultdict(dict)]: resource type, then lid, to id *)
Abbreviation registry := (gmap Py.key (gmap Py.key json)).

Definition registered (reg : registry) (resource_type lid : Py.key)
  : option json :=
  reg !! resource_type ≫= λ by_lid, by_lid !! lid.

Section WithHandlers.

(** The database, the model instances and the validated data of the
    serializers belong to Django and to the application. *)
Variable Store : Type.
Variable Instance : Type.
Variable Validated : Type.

(** What [save()] leaves behind: [result.data] when the returned object has
    such an attribute, and what reading the property [serializer.data] then
    gives, its value or the exception that it raises.  The property is read
    on some paths of the view only. *)
Record Saved : Type := {
  result_data : option json;
  data : result json;
}.

Record Model : Type := {
  (** [objects.get(pk=...)] *)
  objects_get : json → Store → result Instance;
  (** the model constructor applied to [validated_data] *)
  model_new : Validated → result Instance;
  (** [objects.bulk_create(objs)]; the instances come back with their keys *)
  bulk_create : list Instance → Store → result (list Instance) * Store;
  (** [objects.filter(pk__in=obj_ids).delete()] *)
  filter_delete : list json → Store → result unit * Store;
  (** [instance.pk] and [instance.delete()] *)
  pk : Instance → json;
  delete : Instance → Store → result unit * Store;
}.

Record SerializerClass : Type := {
  Meta_model : Model;
  (** the constructor of the class, which may refuse its arguments *)
  init : json → option Instance → bool → result unit;
  (** [is_valid(raise_exception=True)], then [validated_data] *)
  is_valid : json → option Instance → bool → Store → result Validated;
  (** [save()] *)
  save : json → option Instance → Validated → Store → result Saved * Store;
  (** [.data] of a serializer that has not been saved *)
  unsaved_data : json → option Instance → Store → result json;
  (** [serializer_class(instance=obj).data] *)
  instance_data : Instance → Store → result json;
}.

Record Serializer : Type := {
  class : SerializerClass;
  initial_data : json;
  instance : option Instance;
  partial : bool;
}.

(** The attributes of the view class that the subclass sets. *)
Record Settings : Type := {
  serializer_classes : gmap string SerializerClass;
  sequential : bool;
}.

(** What the methods read and write: the database, the class attribute
    [lid_to_id] and the attribute [response_data]. *)
Record world : Type := {
  db : Store;
  lid_to_id : registry;
  response_data : list json;
}.

Definition set_db (s : Store) (w : world) : world :=
  {| db := s; lid_to_id := lid_to_id w; response_data := response_data w |}.
Definition set_lid_to_id (r : registry) (w : world) : world :=
  {| db := db w; lid_to_id := r; response_data := response_data w |}.
Definition set_response_data (l : list json) (w : world) : world :=
  {| db := db w; lid_to_id := lid_to_id w; response_data := l |}.

(** A method: it returns or raises, and leaves a world behind either way. *)
Definition M (A : Type) : Type := world → result A * world.

#[global] Instance M_ret : MRet M := λ A a w, (Ok a, w).
#[global] Instance M_bind : MBind M :=
  λ A B f m w,
    match m w with
    | (Ok a, w') => f a w'
    | (Raise e, w') => (Raise e, w')
    end.

Definition lift {A} (r : result A) : M A := λ w, (r, w).
Definition raise {A} (e : exn) : M A := lift (Raise e).

(** A call that only reads the database *)
Definition query {A} (f : Store → result A) : M A := λ w, (f (db w), w).
(** A call that may write to it *)
Definition command {A} (f : Store → result A * Store) : M A :=
  λ w, ((f (db w)).1, set_db (f (db w)).2 w).

(** [with atomic(): body].  Django commits when the block is left normally
    and rolls the database back when an exception leaves it; what the block
    did to the attributes of the view stays. *)
Definition atomic {A} (body : M A) : M A :=
  λ w,
    match body w with
    | (Ok a, w') => (Ok a, w')
    | (Raise e, w') => (Raise e, set_db (db w) w')
    end.

Fixpoint for_each_M {A} (f : A → M unit) (l : list A) : M unit :=
  match l with
  | [] => mret tt
  | x :: l' => f x ;; for_each_M f l'
  end.

Definition get_lid_to_id : M registry := λ w, (Ok (lid_to_id w), w).
Definition put_lid_to_id (r : registry) : M unit :=
  λ w, (Ok tt, set_lid_to_id r w).
Definition get_response_data : M (list json) :=
  λ w, (Ok (response_data w), w).
Definition put_response_data (l : list json) : M unit :=
  λ w, (Ok tt, set_response_data l w).

(** [self.lid_to_id[resource_type]] on the [defaultdict]: a missing type
    gets an empty dictionary on the way. *)
Definition lid_to_id_getitem (resource_type : json)
  : M (Py.key * gmap Py.key json) :=
  t ← lift (Py.hash_key resource_type);
  reg ← get_lid_to_id;
  match reg !! t with
  | Some by_lid => mret (t, by_lid)
  | None => put_lid_to_id (<[t := ∅]> reg) ;; mret (t, ∅)
  end.

(** [self.lid_to_id[resource_type][lid]] *)
Definition lid_to_id_lookup (resource_type lid : json) : M json :=
  entry ← lid_to_id_getitem resource_type;
  l ← lift (Py.hash_key lid);
  match entry.2 !! l with
  | Some id => mret id
  | None => raise (KeyError (Py.repr lid))
  end.

(** [self.lid_to_id[resource_type][lid] = id] *)
Definition lid_to_id_setitem (resource_type lid id : json) : M unit :=
  entry ← lid_to_id_getitem resource_type;
  l ← lift (Py.hash_key lid);
  reg ← get_lid_to_id;
  put_lid_to_id (<[entry.1 := <[l := id]> entry.2]> reg).

Definition unknown_lid (lid : json) (idx : nat) : exn :=
  UnprocessableEntity
    (JList [JDict
      [("id", JStr "unknown-lid");
       ("detail", JStr ("Object with lid `" +:+ Py.str lid +:+
                        "` received for operation with index `" +:+ pretty idx +:+
                        "` does not exist"));
       ("source", JDict [("pointer",
          JStr ("/" +:+ ATOMIC_OPERATIONS +:+ "/" +:+ pretty idx +:+ "/data/lid"))]);
       ("status", JStr "422")]]).

(** The [try] block of [substitute_lids] and its [except KeyError]: the
    value to assign to [data["id"]], if there is one.  An identifier that is
    itself a list or a dictionary would be walked by the loop that follows
    the assignment; this development stops there. *)
Definition resolve_lid (d : pydict) (idx : nat)
    (should_raise_unknown_lid_error : bool) : M (option json) :=
  let lid := default JNull (Py.lookup "lid" d) in
  if Py.truthy lid then
    λ w,
      match (resource_type ← lift (Py.getitem (JDict d) "type");
             lid_to_id_lookup resource_type lid) w with
      | (Raise (KeyError _), w') =>
          if should_raise_unknown_lid_error
          then (Raise (unknown_lid lid idx), w')
          else (Ok None, w')
      | (Raise e, w') => (Raise e, w')
      | (Ok id, w') =>
          if Py.is_dict id || Py.is_list id
          then (Raise (OutOfModel "identifier that is a list or a dictionary"), w')
          else (Ok (Some id), w')
      end
  else mret None.

(** The loop of [substitute_lids] over [data.items()], for a recursive call
    [visit_dict].  A dictionary is visited, the elements of a list are, and
    anything else is passed over. *)
Section Walk.

Variable visit_dict : json → M json.

Fixpoint visit_elements (l : list json) : M (list json) :=
  match l with
  | [] => mret []
  | x :: l' =>
      x' ← visit_dict x;
      r ← visit_elements l';
      mret (x' :: r)
  end.

Definition visit_value (value : json) : M json :=
  match value with
  | JDict _ => visit_dict value
  | JList l => l' ← visit_elements l; mret (JList l')
  | _ => mret value
  end.

(** The loop runs after the assignment [data["id"] = id]: the entry of
    ["id"] holds [pending] by then, in the place of the old entry or at the
    end, and is passed over. *)
Fixpoint visit_items (its : pydict) (pending : option json) : M pydict :=
  match its with
  | [] => mret (match pending with Some id => [("id", id)] | None => [] end)
  | (k, value) :: rest =>
      match pending with
      | Some id =>
          if String.eqb k "id" then
            rest' ← visit_items rest None; mret ((k, id) :: rest')
          else
            value' ← visit_value value;
            rest' ← visit_items rest pending;
            mret ((k, value') :: rest')
      | None =>
          value' ← visit_value value;
          rest' ← visit_items rest None;
          mret ((k, value') :: rest')
      end
  end.

End Walk.

(** [substitute_lids]: the dictionary is changed in place in the source and
    returned here. *)
Fixpoint substitute_lids (data : json) (idx : nat)
    (should_raise_unknown_lid_error : bool) {struct data} : M json :=
  match data with
  | JDict d =>
      id ← resolve_lid d idx should_raise_unknown_lid_error;
      members ← visit_items (λ value, substitute_lids value idx true) d id;
      mret (JDict members)
  | _ => mret data
  end.

(** *** The methods of the view *)

Variable self : Settings.

Definition get_serializer_classes : result (gmap string SerializerClass) :=
  if Nat.eqb (size (serializer_classes self)) 0 then
    Raise (ImproperlyConfigured
      ("You need to define the serializer classes. " +:+
       "Otherwise serialization of json:api primary data is not possible."))
  else Ok (serializer_classes self).

Definition extract_action_from_href (href : json) : result string :=
  match href with
  | JStr s => Ok (Py.last_segment (Py.rstrip_slash s))
  | _ => Raise (AttributeError "rstrip")
  end.

Definition is_bulk_operation_type (resource_type : json) : result bool :=
  if negb (Py.truthy resource_type) then Ok false
  else Py.startswith resource_type "bulk".

Definition get_serializer_class (operation_code : string)
    (resource_type href : json) : result SerializerClass :=
  key ←
    (if String.eqb operation_code OP_INVOKE && Py.truthy href then
       action ← extract_action_from_href href;
       Ok (operation_code +:+ ":" +:+ Py.str resource_type +:+ "/" +:+ action)
     else
       (if String.eqb operation_code OP_ADD
        then is_bulk_operation_type resource_type else Ok false) ;;
       Ok (operation_code +:+ ":" +:+ Py.str resource_type));
  classes ← get_serializer_classes;
  match classes !! key with
  | Some serializer_class => Ok serializer_class
  | None =>
      Raise (ImproperlyConfigured
        ("No serializer found for resource type '" +:+ Py.str resource_type +:+
         "' and operation '" +:+ operation_code +:+ "' (key: " +:+ key +:+ ")"))
  end.

Definition object_does_not_exist (id : json) (idx : nat) : exn :=
  UnprocessableEntity
    (JList [JDict
      [("id", JStr "object-does-not-exist");
       ("detail", JStr ("Object with id `" +:+ Py.str id +:+
                        "` received for operation with index `" +:+ pretty idx +:+
                        "` does not exist"));
       ("source", JDict [("pointer",
          JStr ("/" +:+ ATOMIC_OPERATIONS +:+ "/" +:+ pretty idx +:+ "/data/id"))]);
       ("status", JStr "422")]]).

Definition get_serializer (idx : nat) (operation_code : string)
    (resource_type href data : json) (partial : bool) : M Serializer :=
  serializer_class ← lift (get_serializer_class operation_code resource_type href);
  instance ←
    (if String.eqb operation_code OP_UPDATE || String.eqb operation_code OP_REMOVE
     then
       id ← lift (Py.getitem data "id");
       found ← query (λ s,
         match objects_get (Meta_model serializer_class) id s with
         | Raise ObjectDoesNotExist => Raise (object_does_not_exist id idx)
         | r => r
         end);
       mret (Some found)
     else mret None);
  lift (init serializer_class data instance partial) ;;
  mret {| class := serializer_class; initial_data := data;
          instance := instance; partial := partial |}.

Definition run_is_valid (serializer : Serializer) : M Validated :=
  query (is_valid (class serializer) (initial_data serializer)
           (instance serializer) (partial serializer)).

Definition run_save (serializer : Serializer) (validated : Validated) : M Saved :=
  command (save (class serializer) (initial_data serializer)
             (instance serializer) validated).

(** [serializer.instance.delete()] *)
Definition run_delete (serializer : Serializer) : M unit :=
  match instance serializer with
  | Some i => command (delete (Meta_model (class serializer)) i)
  | None => raise (AttributeError "delete")
  end.

Definition response_data_append (entry : json) : M unit :=
  l ← get_response_data; put_response_data (l ++ [entry])%list.

Definition response_data_extend (entries : list json) : M unit :=
  l ← get_response_data; put_response_data (l ++ entries)%list.

Definition handle_sequential (serializer : Serializer) (operation_code : string)
  : M unit :=
  if String.eqb operation_code OP_ADD || String.eqb operation_code OP_UPDATE
     || String.eqb operation_code OP_UPDATE_RELATIONSHIP
  then
    lid ← lift (Py.get_default (initial_data serializer) "lid" JNull);
    resource_type ← lift (Py.get (initial_data serializer) "type");
    is_bulk ← lift (if String.eqb operation_code OP_ADD
                    then is_bulk_operation_type resource_type else Ok false);
    if is_bulk : bool then
      validated ← run_is_valid serializer;
      saved ← run_save serializer validated;
      entry ←
        match result_data saved with
        | Some entry => mret entry
        | None => lift (data saved)
        end;
      response_data_append entry
    else
      validated ← run_is_valid serializer;
      saved ← run_save serializer validated;
      (if String.eqb operation_code OP_ADD && Py.truthy lid then
         serializer_data ← lift (data saved);
         id ← lift (Py.getitem serializer_data "id");
         lid_to_id_setitem resource_type lid id
       else mret tt) ;;
      if negb (String.eqb operation_code OP_UPDATE_RELATIONSHIP)
      then
        serializer_data ← lift (data saved);
        response_data_append serializer_data
      else mret tt
  else if String.eqb operation_code OP_REMOVE then run_delete serializer
  else if String.eqb operation_code OP_INVOKE then
    validated ← run_is_valid serializer;
    saved ← run_save serializer validated;
    serializer_data ← lift (data saved);
    response_data_append serializer_data
  else mret tt.

Fixpoint map_M {A B} (f : A → M B) (l : list A) : M (list B) :=
  match l with
  | [] => mret []
  | x :: l' => y ← f x; ys ← map_M f l'; mret (y :: ys)
  end.

(** [bulk_operation_data["serializer_collection"]] is the argument. *)
Definition perform_bulk_create (serializer_collection : list Serializer) : M unit :=
  match serializer_collection with
  | [] => raise IndexError
  | first :: _ =>
      let model_class := Meta_model (class first) in
      objs ← map_M (λ _serializer,
                      validated ← run_is_valid _serializer;
                      lift (model_new model_class validated))
                   serializer_collection;
      objs ← command (bulk_create model_class objs);
      (* the comprehension reads [_serializer], which the loop left at the
         last serializer of the collection *)
      let _serializer := List.last serializer_collection first in
      entries ← map_M (λ obj, query (instance_data (class _serializer) obj)) objs;
      response_data_extend entries
  end.

Definition perform_bulk_delete (serializer_collection : list Serializer) : M unit :=
  obj_ids ← map_M (λ _serializer,
                     match instance _serializer with
                     | None => raise (AttributeError "pk")
                     | Some i =>
                         entry ← query (unsaved_data (class _serializer)
                                          (initial_data _serializer) (Some i));
                         response_data_append entry ;;
                         mret (pk (Meta_model (class _serializer)) i)
                     end)
                  serializer_collection;
  match serializer_collection with
  | [] => raise IndexError
  | first :: _ => command (filter_delete (Meta_model (class first)) obj_ids)
  end.

Record BulkOperationData : Type := {
  serializer_collection : list Serializer;
  next_operation_code : string;
  next_resource_type : json;
}.

(** [handle_bulk] changes [bulk_operation_data] in place; here it returns
    it. *)
Definition handle_bulk (serializer : Serializer) (current_operation_code : string)
    (bulk_operation_data : BulkOperationData) : M BulkOperationData :=
  let collection :=
    (serializer_collection bulk_operation_data ++ [serializer])%list in
  flush ←
    (if negb (String.eqb (next_operation_code bulk_operation_data)
                current_operation_code)
     then mret true
     else
       type ← lift (Py.getitem (initial_data serializer) "type");
       mret (negb (Py.eqb (next_resource_type bulk_operation_data) type)));
  if flush : bool then
    (if String.eqb current_operation_code "add" then
       perform_bulk_create collection
     else if String.eqb current_operation_code "delete" then
       perform_bulk_delete collection
     else
       match collection with
       | first :: _ => handle_sequential first current_operation_code
       | [] => raise IndexError
       end) ;;
    mret {| serializer_collection := [];
            next_operation_code := next_operation_code bulk_operation_data;
            next_resource_type := next_resource_type bulk_operation_data |}
  else
    mret {| serializer_collection := collection;
            next_operation_code := next_operation_code bulk_operation_data;
            next_resource_type := next_resource_type bulk_operation_data |}.

(** One turn of the loop of [perform_operations]: [operation] is the
    single-entry dictionary [{operation_code: obj}], [next_operation] is
    [parsed_operations[idx + 1]] when there is one.  [bulk_operation_data]
    is carried from turn to turn. *)
Definition perform_operation (idx : nat) (operation : string * json)
    (next_operation : option (string * json))
    (bulk_operation_data : BulkOperationData) : M BulkOperationData :=
  let operation_code := operation.1 in
  let should_raise_unknown_lid_error := negb (String.eqb operation_code OP_ADD) in
  obj ← substitute_lids operation.2 idx should_raise_unknown_lid_error;
  href ← lift (if String.eqb operation_code OP_INVOKE
               then Py.get obj "href" else Ok JNull);
  serializer_data ← lift (if String.eqb operation_code OP_INVOKE
                          then Py.get_default obj "data" obj else Ok obj);
  let effective_operation_code :=
    if String.eqb operation_code OP_UPDATE_RELATIONSHIP
    then OP_UPDATE else operation_code in
  resource_type ← lift (Py.getitem obj "type");
  serializer ← get_serializer idx effective_operation_code resource_type href
                 serializer_data
                 (String.eqb operation_code OP_UPDATE
                  || String.eqb operation_code OP_UPDATE_RELATIONSHIP);
  if sequential self then
    handle_sequential serializer operation_code ;;
    mret bulk_operation_data
  else
    lookahead ←
      match next_operation with
      | None => mret (EmptyString, JStr EmptyString)
      | Some next =>
          type ← lift (Py.getitem next.2 "type");
          mret (next.1, type)
      end;
    handle_bulk serializer operation_code
      {| serializer_collection := serializer_collection bulk_operation_data;
         next_operation_code := lookahead.1;
         next_resource_type := lookahead.2 |}.

(** [for idx, operation in enumerate(parsed_operations)], from [idx] on *)
Fixpoint perform_loop (idx : nat) (operations : list (string * json))
    (bulk_operation_data : BulkOperationData) : M unit :=
  match operations with
  | [] => mret tt
  | operation :: rest =>
      bulk_operation_data ←
        perform_operation idx operation (head rest) bulk_operation_data;
      perform_loop (S idx) rest bulk_operation_data
  end.

(** The first turns of the loop: the operations of [operations], which
    start at [idx]; [following] is the operation that comes after them in
    the request, if there is one. *)
Fixpoint perform_prefix (idx : nat) (operations : list (string * json))
    (following : option (string * json))
    (bulk_operation_data : BulkOperationData) : M BulkOperationData :=
  match operations with
  | [] => mret bulk_operation_data
  | operation :: rest =>
      bulk_operation_data ←
        perform_operation idx operation
          (match rest with [] => following | next :: _ => Some next end)
          bulk_operation_data;
      perform_prefix (S idx) rest following bulk_operation_data
  end.

(** [bulk_operation_data] as [perform_operations] creates it *)
Definition no_bulk_operation_data : BulkOperationData :=
  {| serializer_collection := [];
     next_operation_code := EmptyString;
     next_resource_type := JStr EmptyString |}.

Record Response : Type := {
  body : list json;
  status : nat;
}.

Definition perform_operations (parsed_operations : list (string * json))
  : M Response :=
  put_response_data [] ;;
  atomic (perform_loop 0 parsed_operations no_bulk_operation_data) ;;
  response_data ← get_response_data;
  mret {| body := response_data;
          status := if Nat.eqb (length response_data) 0 then 204 else 200 |}.

End WithHandlers.

Arguments set_db {Store}.
Arguments set_lid_to_id {Store}.
Arguments set_response_data {Store}.
Arguments lift {Store A}.
Arguments raise {Store A}.
Arguments query {Store A}.
Arguments command {Store A}.
Arguments atomic {Store A}.
Arguments for_each_M {Store A}.
Arguments get_lid_to_id {Store}.
Arguments put_lid_to_id {Store}.
Arguments get_response_data {Store}.
Arguments put_response_data {Store}.
Arguments lid_to_id_getitem {Store}.
Arguments lid_to_id_lookup {Store}.
Arguments lid_to_id_setitem {Store}.
Arguments resolve_lid {Store}.
Arguments visit_elements {Store}.
Arguments visit_value {Store}.
Arguments visit_items {Store}.
Arguments substitute_lids {Store}.
Arguments response_data_append {Store}.
Arguments response_data_extend {Store}.
Arguments map_M {Store A B}.
Arguments db {Store}.
Arguments lid_to_id {Store}.
Arguments response_data {Store}.
Arguments get_serializer_classes {Store Instance Validated}.
Arguments get_serializer_class {Store Instance Validated}.
Arguments get_serializer {Store Instance Validated}.
Arguments run_is_valid {Store Instance Validated}.
Arguments run_save {Store Instance Validated}.
Arguments run_delete {Store Instance Validated}.
Arguments handle_sequential {Store Instance Validated}.
Arguments perform_bulk_create {Store Instance Validated}.
Arguments perform_bulk_delete {Store Instance Validated}.
Arguments handle_bulk {Store Instance Validated}.
Arguments perform_operation {Store Instance Validated}.
Arguments perform_loop {Store Instance Validated}.
Arguments perform_prefix {Store Instance Validated}.
Arguments no_bulk_operation_data {Store Instance Validated}.
Arguments perform_operations {Store Instance Validated}.
Arguments class {Store Instance Validated}.
Arguments initial_data {Store Instance Validated}.
Arguments instance {Store Instance Validated}.
Arguments partial {Store Instance Validated}.
Arguments serializer_classes {Store Instance Validated}.
Arguments sequential {Store Instance Validated}.
Arguments Meta_model {Store Instance Validated}.
Arguments objects_get {Store Instance Validated}.
Arguments model_new {Store Instance Validated}.
Arguments bulk_create {Store Instance Validated}.
Arguments filter_delete {Store Instance Validated}.
Arguments pk {Store Instance Validated}.
Arguments delete {Store Instance Validated}.
Arguments init {Store Instance Validated}.
Arguments is_valid {Store Instance Validated}.
Arguments save {Store Instance Validated}.
Arguments unsaved_data {Store Instance Validated}.
Arguments instance_data {Store Instance Validated}.
Arguments serializer_collection {Store Instance Validated}.
Arguments next_operation_code {Store Instance Validated}.
Arguments next_resource_type {Store Instance Validated}.

End View.

(** Modelled from the spec: [atomic_operations/exceptions.py], which declares
    the exception classes, is not among the sources.  The spec gives every
    failure a stable machine id; [MissingPrimaryData] is the failure of kind
    `missing-primary-data` and [InvalidPrimaryDataType] the one of kind
    `invalid-primary-data-type`.  The other failures carry their id in the
    source. *)
Definition error_id (e : exn) : option string :=
  match e with
  | JsonApiParseError id _ _ => Some id
  | MissingPrimaryData _ => Some "missing-primary-data"
  | InvalidPrimaryDataType _ _ => Some "invalid-primary-data-type"
  | UnprocessableEntity (JList [JDict error]) =>
      match Py.lookup "id" error with
      | Some (JStr id) => Some id
      | _ => None
      end
  | _ => None
  end.

(** The pointer of a failure, where the source spells it out. *)
Definition error_pointer (e : exn) : option string :=
  match e with
  | JsonApiParseError _ _ pointer => Some pointer
  | UnprocessableEntity (JList [JDict error]) =>
      match Py.lookup "source" error with
      | Some (JDict source) =>
          match Py.lookup "pointer" source with
          | Some (JStr pointer) => Some pointer
          | _ => None
          end
      | _ => None
      end
  | _ => None
  end.

(** [member] is present on [d]: it is there and Python takes its value for
    true, which is how the checks of the parser ask for a member. *)
Definition present (member : string) (d : pydict) : bool :=
  Py.truthy (default JNull (Py.lookup member d)).

(** The pointer [/<operationsKey>/<i>/<field>] *)
Definition field_pointer (idx : nat) (field : string) : string :=
  "/" +:+ ATOMIC_OPERATIONS +:+ "/" +:+ pretty idx +:+ "/" +:+ field.

(** The pointer [/<operationsKey>/<i>], to the operation itself *)
Definition operation_pointer (idx : nat) : string :=
  "/" +:+ ATOMIC_OPERATIONS +:+ "/" +:+ pretty idx.

(** Where a failure of the checks of the operation at [idx] points: a
    [JsonApiParseError] names the place; [MissingPrimaryData] and
    [InvalidPrimaryDataType] are given the index and build their pointer in
    [exceptions.py]. *)
Definition points_at_operation (idx : nat) (e : exn) : Prop :=
  match e with
  | JsonApiParseError id _ pointer =>
      (id = "missing-ref-attribute" ∧ pointer = operation_pointer idx)
      ∨ (id ≠ "missing-ref-attribute"
         ∧ ∃ field, field ∈ ["op"; "href"; "data"; "ref"]
                    ∧ pointer = field_pointer idx field)
  | MissingPrimaryData i | InvalidPrimaryDataType i _ => i = idx
  | _ => False
  end.

(** The operations that leave an entry in the response of a sequential
    view. *)
Definition has_entry (operation_code : string) : bool :=
  String.eqb operation_code OP_ADD || String.eqb operation_code OP_UPDATE
  || String.eqb operation_code OP_INVOKE.

(** How many of [operations] leave an entry. *)
Definition entry_count (operations : list (string * json)) : nat :=
  length (List.filter (λ operation, has_entry operation.1) operations).

(** ** Vocabulary for the lid registry *)

Definition hashable (v : json) : bool := is_ok (Py.hash_key v).

(** Neither a list nor a dictionary *)
Definition scalar (v : json) : bool := negb (Py.is_dict v || Py.is_list v).

(** The identifiers of the registry are scalars. *)
Definition scalar_ids (reg : View.registry) : Prop :=
  ∀ t l id, View.registered reg t l = Some id → scalar id = true.

(** The [type] and [lid] members throughout [v] can be dictionary keys. *)
Fixpoint well_keyed (v : json) : bool :=
  match v with
  | JDict d =>
      hashable (default JNull (Py.lookup "type" d))
      && hashable (default JNull (Py.lookup "lid" d))
      && forallb (λ kv : string * json, well_keyed kv.2) d
  | JList l => forallb well_keyed l
  | _ => true
  end.

(** The pair of keys under which the registry holds the identifier of the
    resource that [d] names by its [type] and its [lid], when [d] has both
    and its [lid] is not empty. *)
Definition reference (d : pydict) : option (Py.key * Py.key) :=
  match Py.lookup "type" d, Py.lookup "lid" d with
  | Some type, Some lid =>
      if Py.truthy lid then
        match Py.hash_key type, Py.hash_key lid with
        | Ok t, Ok l => Some (t, l)
        | _, _ => None
        end
      else None
  | _, _ => None
  end.

(** [operation] is an [add] whose payload names a resource by the [type]
    and [lid] that hash to [t] and [l]. *)
Definition declares (t l : Py.key) (operation : string * json) : bool :=
  String.eqb operation.1 OP_ADD
  && match operation.2 with
     | JDict d => bool_decide (reference d = Some (t, l))
     | _ => false
     end.

(** [visited data should_raise o]: the walk of [substitute_lids] over
    [data], when it gets that far, calls itself on the dictionary [o] with
    [should_raise_unknown_lid_error] true.  These are [data] itself when the
    flag is true, the dictionaries that are members of a visited dictionary,
    and those that are elements of a list that is a member of one.  The
    member [id] is left out: the assignment may have replaced it. *)
Inductive visited : json → bool → pydict → Prop :=
| visited_itself d : visited (JDict d) true d
| visited_member d flag k d' o :
    (k, JDict d') ∈ d → k ≠ "id" → visited (JDict d') true o →
    visited (JDict d) flag o
| visited_element d flag k l d' o :
    (k, JList l) ∈ d → k ≠ "id" → JDict d' ∈ l → visited (JDict d') true o →
    visited (JDict d) flag o.

(** What [substitute_lids] returns or raises, as a function of the
    identifiers that the registry holds.  The walk reads the registry and
    writes nothing to it but the empty dictionary of a type it has not seen,
    so that its outcome is this function of [registered]; see
    [substitute_lids_outcome]. *)
Module Outcome.

Section WithRegistry.

Variable registered : Py.key → Py.key → option json.

Definition resolve_lid (d : pydict) (idx : nat)
    (should_raise_unknown_lid_error : bool) : result (option json) :=
  let lid := default JNull (Py.lookup "lid" d) in
  let unknown :=
    if should_raise_unknown_lid_error
    then Raise (View.unknown_lid lid idx) else Ok None in
  if Py.truthy lid then
    match Py.lookup "type" d with
    | None => unknown
    | Some resource_type =>
        t ← Py.hash_key resource_type;
        l ← Py.hash_key lid;
        match registered t l with
        | None => unknown
        | Some id =>
            if Py.is_dict id || Py.is_list id
            then Raise (OutOfModel "identifier that is a list or a dictionary")
            else Ok (Some id)
        end
    end
  else Ok None.

Section Walk.

Variable visit_dict : json → result json.

Fixpoint visit_elements (l : list json) : result (list json) :=
  match l with
  | [] => Ok []
  | x :: l' =>
      x' ← visit_dict x;
      r ← visit_elements l';
      Ok (x' :: r)
  end.

Definition visit_value (value : json) : result json :=
  match value with
  | JDict _ => visit_dict value
  | JList l => l' ← visit_elements l; Ok (JList l')
  | _ => Ok value
  end.

Fixpoint visit_items (its : pydict) (pending : option json) : result pydict :=
  match its with
  | [] => Ok (match pending with Some id => [("id", id)] | None => [] end)
  | (k, value) :: rest =>
      match pending with
      | Some id =>
          if String.eqb k "id" then
            rest' ← visit_items rest None; Ok ((k, id) :: rest')
          else
            value' ← visit_value value;
            rest' ← visit_items rest pending;
            Ok ((k, value') :: rest')
      | None =>
          value' ← visit_value value;
          rest' ← visit_items rest None;
          Ok ((k, value') :: rest')
      end
  end.

End Walk.

Fixpoint substitute_lids (data : json) (idx : nat)
    (should_raise_unknown_lid_error : bool) {struct data} : result json :=
  match data with
  | JDict d =>
      id ← resolve_lid d idx should_raise_unknown_lid_error;
      members ← visit_items (λ value, substitute_lids value idx true) d id;
      Ok (JDict members)
  | _ => Ok data
  end.

End WithRegistry.

End Outcome.

(** ** serializers.py: [AtomicOperationIncludedResourcesValidationMixin] *)
Module Serializers.

(** What the mixin raises: [ParseError] itself, [AttributeError] on an
    include that is not a string, [IndexError] on an empty path. *)
Inductive error : Type :=
| ParseError (detail : string)
| AttributeError (attr : string)
| IndexError.

Inductive checked : Type :=
| Passed
| Raised (e : error).

(** A serializer class, as far as the mixin looks at it: its
    [included_serializers], when it has the attribute. *)
Inductive serializer_class : Type :=
| Class (included : option (list (string * serializer_class))).

Definition included_serializers (cls : serializer_class)
  : option (list (string * serializer_class)) :=
  match cls with Class included => included end.

(** [serializers.get(name)] *)
Fixpoint get (name : string) (serializers : list (string * serializer_class))
  : option serializer_class :=
  match serializers with
  | [] => None
  | (k, cls) :: rest => if String.eqb k name then Some cls else get name rest
  end.

(** [name.split(".")] *)
Fixpoint split_from (acc s : string) : list string :=
  match s with
  | EmptyString => [String.rev acc]
  | String c s' =>
      if Ascii.eqb c "."%char then String.rev acc :: split_from EmptyString s'
      else split_from (String c acc) s'
  end.

Definition split (s : string) : list string := split_from EmptyString s.

Section WithInflection.

(** [inflection.underscore] *)
Variable underscore : string → string.

(** The function [validate_path] of [__init__] *)
Fixpoint validate_path (cls : serializer_class) (field_path : list string)
    (path : string) : checked :=
  match included_serializers cls with
  | None =>
      Raised (ParseError "This endpoint does not support the include parameter")
  | Some serializers =>
      match field_path with
      | [] => Raised IndexError
      | first :: new_included_field_path =>
          match get (underscore first) serializers with
          | None =>
              Raised (ParseError
                ("This endpoint does not support the include parameter for path "
                 +:+ path))
          | Some this_included_serializer =>
              match new_included_field_path with
              | [] => Passed
              | _ :: _ =>
                  validate_path this_included_serializer
                    new_included_field_path path
              end
          end
      end
  end.

(** The loop of [__init__] over [included_resources], for the class that
    the view gives. *)
Fixpoint validate_included_resources (this_serializer_class : serializer_class)
    (included_resources : list json) : checked :=
  match included_resources with
  | [] => Passed
  | included_field_name :: rest =>
      match included_field_name with
      | JStr name =>
          match validate_path this_serializer_class (split name) name with
          | Passed => validate_included_resources this_serializer_class rest
          | Raised e => Raised e
          end
      | _ => Raised (AttributeError "split")
      end
  end.

End WithInflection.

End Serializers.

(** ** The renderer *)

Definition ATOMIC_RESULTS : string := "atomic:results".

(** [renderers.py]: [AtomicResultRenderer].  Byte strings are strings here,
    and a text is the string of its UTF-8 bytes. *)
Module Renderer.

(** What [render] gives: the content, or the exception that leaves it. *)
Inductive rendered (Exception : Type) : Type :=
| Bytes (content : string)
| Raises (e : Exception).
Arguments Bytes {Exception} content.
Arguments Raises {Exception} e.

(** The character of the two quotes in ['{"'] and ['":'] *)
Definition quote : string := String (ascii_of_nat 34) EmptyString.

Section WithJSONRenderer.

(** An element of the data: a dictionary, with the serializer that it
    carries. *)
Variable ReturnDict : Type.
Variable items : ReturnDict → pydict.

Variable Exception : Type.

(** [int(status)]; [None] when it raises. *)
Variable int : json → option Z.

(** [self.render_errors(data, accepted_media_type, renderer_context)];
    [None] when it raises an [Exception]. *)
Variable render_errors : list ReturnDict → option string.

(** What [render] does with an element that [check_error] lets pass: the
    resource name and the request data are set, the element goes through
    [super().render] and the result is decoded. *)
Variable render_primary_data : ReturnDict → rendered Exception.

(** [check_error]; [None] is Python's. *)
Definition check_error (operation_result_data : ReturnDict) : option string :=
  let status := default JNull (Py.lookup "status" (items operation_result_data)) in
  match int status with
  | Some status =>
      if (400 <=? status)%Z && (status <=? 600)%Z
      then render_errors [operation_result_data]
      else None
  | None => None
  end.

(** [if has_error:] *)
Definition has_content (has_error : option string) : bool :=
  match has_error with
  | Some content => negb (String.eqb content "")
  | None => false
  end.

(** The loop of [render] from an element on, and what follows it. *)
Fixpoint render_from (data : list ReturnDict) (atomic_results : list string)
  : rendered Exception :=
  match data with
  | [] =>
      let atomic_results_str :=
        "[" +:+ String.concat "," atomic_results +:+ "]" in
      Bytes ("{" +:+ quote +:+ ATOMIC_RESULTS +:+ quote +:+ ":"
             +:+ atomic_results_str +:+ "}")
  | operation_result_data :: rest =>
      let has_error := check_error operation_result_data in
      if has_content has_error then Bytes (default "" has_error)
      else
        match render_primary_data operation_result_data with
        | Raises e => Raises e
        | Bytes rendered_primary_data =>
            render_from rest (atomic_results ++ [rendered_primary_data])
        end
  end.

Definition render (data : list ReturnDict) : rendered Exception :=
  render_from data [].

End WithJSONRenderer.

End Renderer.

(** ** Stand-ins for what lies outside the repository

    The statements below hold for every base parser and for every set of
    serializers.  To run the pipeline on concrete requests, a base parser
    and one serializer class over a small table are fixed here. *)

(** The inherited methods of [JSONParser], after [rest_framework_json_api]
    with field names left as they are. *)
Module JSONParser.

Definition members (v : json) : pydict :=
  match v with JDict d => d | _ => [] end.

Definition parse_attributes (data : json) : result pydict :=
  attributes ← Py.get data "attributes";
  Ok (if Py.truthy attributes then members attributes else []).

Definition parse_relationships (data : json) : result pydict :=
  relationships ← Py.get data "relationships";
  (fix each (l : pydict) : result pydict :=
     match l with
     | [] => Ok []
     | (field_name, field) :: l' =>
         field_data ← Py.get field "data";
         rest ← each l';
         Ok (match field_data with
             | JNull | JDict _ | JList _ => (field_name, field_data) :: rest
             | _ => rest
             end)
     end) (if Py.truthy relationships then members relationships else []).

Definition parse_metadata (document : json) : result pydict :=
  metadata ← Py.get document "meta";
  Ok (if Py.truthy metadata then [("_meta", metadata)] else []).

Definition SUPPORTED_OPERATIONS : list string :=
  [OP_ADD; OP_UPDATE; OP_REMOVE; OP_INVOKE].

Definition check_operation := Parser.check_operation SUPPORTED_OPERATIONS.

Definition parse_data_operation :=
  Parser.parse_data_operation SUPPORTED_OPERATIONS
    parse_attributes parse_relationships parse_metadata.

Definition parse_data :=
  Parser.parse_data SUPPORTED_OPERATIONS
    parse_attributes parse_relationships parse_metadata.

End JSONParser.

(** One table of rows keyed by a primary key, with a journal of the writes
    it received, and a serializer class over it.  A payload with a true
    [invalid] member does not validate; one with a true [explode] member is
    written and then fails in [save]. *)
Module Memory.

Inductive write : Type :=
| Inserted (pk : string)
| Updated (pk : string)
| Deleted (pk : string)
| BulkInserted (pks : list string)
| BulkDeleted (pks : list json).

Record store : Type := {
  rows : pydict;
  next_pk : nat;
  journal : list write;
}.

Definition empty : store := {| rows := []; next_pk := 1; journal := [] |}.

Definition instance : Type := string * json.

Definition with_id (pk : string) (row : json) : json :=
  JDict (Py.setitem "id" (JStr pk) (JSONParser.members row)).

Definition objects_get (pk : json) (s : store) : result instance :=
  match Py.lookup (Py.str pk) (rows s) with
  | Some row => Ok (Py.str pk, row)
  | None => Raise ObjectDoesNotExist
  end.

Definition insert_row (row : json) (s : store) : string * store :=
  let pk := pretty (next_pk s) in
  (pk, {| rows := Py.setitem pk (with_id pk row) (rows s);
          next_pk := S (next_pk s);
          journal := journal s |}).

Definition log (w : write) (s : store) : store :=
  {| rows := rows s; next_pk := next_pk s; journal := (journal s ++ [w])%list |}.

Fixpoint insert_rows (objs : list instance) (s : store)
  : list instance * store :=
  match objs with
  | [] => ([], s)
  | obj :: objs' =>
      let '(pk, s1) := insert_row obj.2 s in
      let '(done, s2) := insert_rows objs' s1 in
      ((pk, with_id pk obj.2) :: done, s2)
  end.

Definition bulk_create (objs : list instance) (s : store)
  : result (list instance) * store :=
  let '(done, s') := insert_rows objs s in
  (Ok done, log (BulkInserted (map fst done)) s').

Definition filter_delete (pks : list json) (s : store) : result unit * store :=
  (Ok tt,
   log (BulkDeleted pks)
     {| rows := fold_left (λ acc pk, Py.delitem (Py.str pk) acc) pks (rows s);
        next_pk := next_pk s; journal := journal s |}).

Definition delete (i : instance) (s : store) : result unit * store :=
  (Ok tt,
   log (Deleted i.1)
     {| rows := Py.delitem i.1 (rows s);
        next_pk := next_pk s; journal := journal s |}).

Definition model : View.Model store instance json :=
  {| View.objects_get := objects_get;
     View.model_new := λ validated, Ok (EmptyString, validated);
     View.bulk_create := bulk_create;
     View.filter_delete := filter_delete;
     View.pk := λ i, JStr i.1;
     View.delete := delete |}.

Definition flag (name : string) (payload : json) : bool :=
  Py.truthy (default JNull (Py.lookup name (JSONParser.members payload))).

Definition is_valid (payload : json) (i : option instance) (partial : bool)
    (s : store) : result json :=
  if flag "invalid" payload then Raise (HandlerError payload) else Ok payload.

Definition save (payload : json) (i : option instance) (validated : json)
    (s : store) : result (View.Saved) * store :=
  let '(pk, s') :=
    match i with
    | None => let '(pk, s') := insert_row validated s in (pk, log (Inserted pk) s')
    | Some (pk, row) =>
        (pk,
         log (Updated pk)
           {| rows := Py.setitem pk
                        (with_id pk (JDict (Py.update (JSONParser.members row)
                                              (JSONParser.members validated))))
                        (rows s);
              next_pk := next_pk s; journal := journal s |})
    end in
  if flag "explode" payload then (Raise (HandlerError payload), s')
  else
    (Ok {| View.result_data := None;
           View.data := Ok (default JNull (Py.lookup pk (rows s'))) |}, s').

Definition serializer_class : View.SerializerClass store instance json :=
  {| View.Meta_model := model;
     View.init := λ _ _ _, Ok tt;
     View.is_valid := is_valid;
     View.save := save;
     View.unsaved_data := λ _ i _, Ok (default JNull (snd <$> i));
     View.instance_data := λ i _, Ok i.2 |}.

(** The view class of an application with one resource type: the three
    write operations on [articles], and [add] on a bulk type. *)
Definition classes : gmap string (View.SerializerClass store instance json) :=
  list_to_map
    [("add:articles", serializer_class);
     ("update:articles", serializer_class);
     ("remove:articles", serializer_class);
     ("add:bulkArticles", serializer_class);
     ("update:bulkArticles", serializer_class)].

Definition view (sequential : bool) : View.Settings store instance json :=
  {| View.serializer_classes := classes; View.sequential := sequential |}.

Definition start (s : store) : View.world store :=
  {| View.db := s; View.lid_to_id := ∅; View.response_data := [] |}.

(** [post]: the request body is parsed, then the operations are performed. *)
Definition post (sequential : bool) (document : json)
  : View.M store (View.Response) :=
  λ w,
    match JSONParser.parse_data document with
    | Ok parsed_operations =>
        View.perform_operations (view sequential) parsed_operations w
    | Raise e => (Raise e, w)
    end.

End Memory.

(** Request bodies for the table above. *)
Module Requests.

(** A resource object: its [type], the members that identify it, and a
    [title] attribute. *)
Definition resource (type : string) (identifier : pydict) (title : string)
  : json :=
  JDict ([("type", JStr type)] ++ identifier
         ++ [("attributes", JDict [("title", JStr title)])])%list.

Definition add (type : string) (identifier : pydict) (title : string) : json :=
  JDict [("op", JStr "add"); ("data", resource type identifier title)].

Definition update (type : string) (identifier : pydict) (title : string)
  : json :=
  JDict [("op", JStr "update"); ("data", resource type identifier title)].

Definition remove (type : string) (identifier : pydict) : json :=
  JDict [("op", JStr "remove");
         ("ref", JDict (("type", JStr type) :: identifier))].

Definition document (operations : list json) : json :=
  JDict [(ATOMIC_OPERATIONS, JList operations)].

End Requests.

(** A renderer over plain dictionaries: what [JSONRenderer] writes is
    written with [repr] here, and an element with a true [unserializable]
    member fails to render. *)
Module Rendering.

Fixpoint digits (s : string) (acc : Z) : option Z :=
  match s with
  | EmptyString => Some acc
  | String c s' =>
      let n := Z.of_N (N_of_ascii c) in
      if (48 <=? n)%Z && (n <=? 57)%Z then digits s' (10 * acc + (n - 48))%Z
      else None
  end.

(** [int] on a number, on a boolean and on a string of decimal digits; it
    raises on [None], on a list, on a dictionary and on the empty string.
    The signs, spaces and underscores that [int] reads in a string are not
    read. *)
Definition int (v : json) : option Z :=
  match v with
  | JNum n => Some n
  | JBool b => Some (if b then 1 else 0)%Z
  | JStr EmptyString => None
  | JStr s => digits s 0
  | JNull | JList _ | JDict _ => None
  end.

Definition render_errors (data : list pydict) : option string :=
  Some (Py.repr (JDict [("errors", JList (JDict <$> data))])).

Definition render_primary_data (operation_result_data : pydict)
  : Renderer.rendered string :=
  if Py.truthy (default JNull (Py.lookup "unserializable" operation_result_data))
  then Renderer.Raises "unserializable"
  else Renderer.Bytes (Py.repr (JDict [("data", JDict operation_result_data)])).

Definition render : list pydict → Renderer.rendered string :=
  Renderer.render pydict id string int render_errors render_primary_data.

End Rendering.

(** Serializer classes with includes. *)
Module Includes.

(** A serializer class for articles, with the includes [author] and
    [comments], and [employer] below [author]. *)
Definition article_serializer : Serializers.serializer_class :=
  Serializers.Class
    (Some [("author",
            Serializers.Class
              (Some [("employer", Serializers.Class None)]));
           ("comments", Serializers.Class (Some []))]).

End Includes.

(** * Properties of the parser *)

Lemma get_dict d k : Py.get (JDict d) k = Ok (default JNull (Py.lookup k d)).
Proof. reflexivity. Qed.

(** What [check_resource_identifier_object] makes of the target of an
    update or of a remove: with both [id] and [lid] it fails as
    `multiple-id-fields`, with neither as `missing-id`; with exactly one,
    only the [type] is still asked for. *)
Lemma check_resource_identifier_object_outcome
    (idx : nat) (target : pydict) (operation_code : string) :
  operation_code = OP_UPDATE ∨ operation_code = OP_REMOVE →
  let pointer :=
    "/" +:+ ATOMIC_OPERATIONS +:+ "/" +:+ pretty idx +:+ "/" +:+
    (if String.eqb operation_code OP_UPDATE then "data" else "ref") in
  Parser.check_resource_identifier_object idx (JDict target) (JStr operation_code)
  = match present "id" target, present "lid" target with
    | true, true =>
        Raise (JsonApiParseError "multiple-id-fields"
                 "Only one of `id`, `lid` may be specified" pointer)
    | false, false =>
        Raise (JsonApiParseError "missing-id"
                 "The resource identifier object must contain an `id` member or a `lid` member"
                 pointer)
    | _, _ =>
        if present "type" target then Ok tt
        else Raise (JsonApiParseError "missing-type"
                      "The resource identifier object must contain an `type` member"
                      pointer)
    end.
Proof.
  intros Hcode pointer. unfold Parser.check_resource_identifier_object.
  rewrite !get_dict. unfold present.
  destruct Hcode as [-> | ->]; cbn [Py.is_str String.eqb Ascii.eqb Bool.eqb orb
    mbind result_bind OP_UPDATE OP_REMOVE];
    destruct (Py.truthy (default JNull (Py.lookup "id" target)));
    destruct (Py.truthy (default JNull (Py.lookup "lid" target)));
    cbn; try reflexivity;
    destruct (Py.truthy (default JNull (Py.lookup "type" target))); reflexivity.
Qed.

Lemma check_resource_identifier_object_raises idx rio code e :
  Parser.check_resource_identifier_object idx rio code = Raise e →
  error_id e ≠ None →
  ∃ id detail,
    e = JsonApiParseError id detail
          (field_pointer idx (if Py.is_str code "update" then "data" else "ref"))
    ∧ id ∈ ["missing-id"; "multiple-id-fields"; "missing-type"].
Proof.
  unfold Parser.check_resource_identifier_object, field_pointer.
  intros H Hid.
  destruct rio; cbn in H;
    repeat match type of H with
           | context [if ?b then _ else _] => destruct b eqn:?; cbn in H
           end;
    try discriminate; injection H as <-;
    try (by destruct Hid);
    do 2 eexists; (split; [reflexivity|set_solver]).
Qed.

Lemma get_raises v k e : Py.get v k = Raise e → error_id e = None.
Proof. destruct v; cbn; try discriminate; by intros [= <-]. Qed.

Lemma except_KeyError_raises {A} (body : result A) handler e :
  except_KeyError body (Raise handler) = Raise e →
  e = handler ∨ body = Raise e.
Proof.
  destruct body as [|[]]; cbn; try discriminate; intros [= <-]; auto.
Qed.

Lemma for_each_raises {A} (f : A → result unit) l e :
  for_each f l = Raise e → ∃ x, x ∈ l ∧ f x = Raise e.
Proof.
  induction l as [|x l IH]; cbn; [discriminate|].
  destruct (f x) eqn:Hx; cbn.
  - intros H. destruct (IH H) as (y & Hy & Hfy). exists y. split; [set_solver|done].
  - intros [= <-]. exists x. split; [set_solver|done].
Qed.

Ltac points_at_field f :=
  right; split; [discriminate|]; exists f; split; [set_solver|reflexivity].

Lemma points_at_of_identifier idx rio code e :
  Parser.check_resource_identifier_object idx rio code = Raise e →
  error_id e ≠ None → points_at_operation idx e.
Proof.
  intros H Hid.
  destruct (check_resource_identifier_object_raises _ _ _ _ H Hid)
    as (id & detail & -> & Hin).
  cbn. right. split.
  - intros ->. set_solver.
  - eexists. split; [|reflexivity]. destruct (Py.is_str code "update"); set_solver.
Qed.

Section ParserProperties.

(** The order of iteration over [SUPPORTED_OPERATIONS], see [Parser]. *)
Variable SUPPORTED_OPERATIONS : list string.

Local Abbreviation check_operation := (Parser.check_operation SUPPORTED_OPERATIONS).

(** C9, for the checks of the envelope and of the shape of an operation:
    a failure of [check_root] points at the operations key; a failure of
    [check_operation] for the operation at [idx] points at that operation,
    `missing-ref-attribute` at the operation itself and every other one at
    its member [op], [href], [data] or [ref]. *)
Theorem structural_failures_point_at_their_place :
  (∀ document e,
     Parser.check_root document = Raise e →
     error_pointer e = Some ("/" +:+ ATOMIC_OPERATIONS))
  ∧ (∀ idx operation e,
       check_operation idx operation = Raise e →
       error_id e ≠ None →
       points_at_operation idx e).
Proof.
  split.
  - intros document e. unfold Parser.check_root.
    destruct document as [| | | | |d]; try (intros [= <-]; reflexivity).
    destruct (Py.lookup ATOMIC_OPERATIONS d) as [ops|];
      [|intros [= <-]; reflexivity].
    destruct (Py.is_list ops); cbn; [discriminate|intros [= <-]; reflexivity].
  - intros idx operation e. unfold Parser.check_operation.
    destruct operation as [| | | | |d]; try (cbn; intros [= <-] []; reflexivity).
    rewrite !get_dict. cbn [mbind result_bind].
    destruct (Py.truthy (default JNull (Py.lookup "op" d))); cbn [negb];
      [|intros [= <-] _; points_at_field "op"].
    destruct (Py.truthy (default JNull (Py.lookup "href" d))
              && negb (Py.is_str (default JNull (Py.lookup "op" d)) OP_INVOKE));
      [intros [= <-] _; points_at_field "href"|].
    destruct (Py.is_str (default JNull (Py.lookup "op" d)) OP_ADD).
    { unfold Parser.check_add_operation.
      destruct (Py.is_dict (default JNull (Py.lookup "data" d))); cbn [negb];
        [apply points_at_of_identifier|intros [= <-] _; reflexivity]. }
    destruct (Py.is_str (default JNull (Py.lookup "op" d)) OP_REMOVE).
    { unfold Parser.check_remove_operation.
      destruct (Py.truthy (default JNull (Py.lookup "ref" d))); cbn [negb];
        [apply points_at_of_identifier|].
      intros [= <-] _. left. split; reflexivity. }
    destruct (Py.is_str (default JNull (Py.lookup "op" d)) OP_UPDATE).
    { unfold Parser.check_update_operation. rewrite !get_dict.
      cbn [mbind result_bind].
      destruct (Py.truthy (default JNull (Py.lookup "ref" d))).
      - unfold Parser.check_relation_update, Py.getitem.
        destruct (Py.lookup "ref" d) as [ref|]; cbn [mbind result_bind];
          [|intros [= <-] []; reflexivity].
        destruct (Parser.check_resource_identifier_object idx ref (JStr "update"))
          eqn:Href; cbn [mbind result_bind];
          [|intros [= <-]; by apply (points_at_of_identifier _ _ _ _ Href)].
        destruct (Py.get ref "relationship") as [relationship|] eqn:Hrel;
          cbn [mbind result_bind];
          [|intros [= <-] []; apply (get_raises _ _ _ Hrel)].
        destruct (Py.truthy relationship); cbn [negb];
          [|intros [= <-] _; points_at_field "ref"].
        intros H Hid. apply except_KeyError_raises in H as [->|H]; [reflexivity|].
        destruct (Py.lookup "data" d) as [data|]; cbn [mbind result_bind] in H;
          [|injection H as <-; by destruct Hid].
        destruct data as [| | | |relations|members];
          try discriminate; try (injection H as <-; reflexivity).
        + apply for_each_raises in H as (x & _ & Hx).
          by apply (points_at_of_identifier _ _ _ _ Hx).
        + by apply (points_at_of_identifier _ _ _ _ H).
      - destruct (Py.truthy (default JNull (Py.lookup "data" d))); cbn [negb];
          [|intros [= <-] _; reflexivity].
        destruct (Py.is_dict (default JNull (Py.lookup "data" d))); cbn [negb];
          [|intros [= <-] _; reflexivity].
        unfold Py.getitem. destruct (Py.lookup "op" d); cbn [mbind result_bind];
          [apply points_at_of_identifier|intros [= <-] []; reflexivity]. }
    destruct (Py.is_str (default JNull (Py.lookup "op" d)) OP_INVOKE).
    { unfold Parser.check_invoke_operation. rewrite !get_dict.
      cbn [mbind result_bind].
      destruct (Py.truthy (default JNull (Py.lookup "ref" d))); cbn [negb];
        [|intros [= <-] _; left; split; reflexivity].
      destruct (Py.get (default JNull (Py.lookup "ref" d)) "href") as [href|]
        eqn:Hhref; cbn [mbind result_bind];
        [|intros [= <-] []; apply (get_raises _ _ _ Hhref)].
      destruct (Py.truthy href); cbn [negb];
        [|intros [= <-] _; points_at_field "ref"].
      destruct (Py.get (default JNull (Py.lookup "ref" d)) "type") as [type|]
        eqn:Htype; cbn [mbind result_bind];
        [|intros [= <-] []; apply (get_raises _ _ _ Htype)].
      destruct (Py.truthy type); cbn [negb];
        [discriminate|intros [= <-] _; points_at_field "ref"]. }
    intros [= <-] _. points_at_field "op".
Qed.

(** ** Relationship updates *)

(** What [check_operation] answers on an update that names an object
    through [ref], when that object passes for the target of an update and
    names a relationship: without a [data] member the primary data are
    missing, and with a null one the operation is accepted. *)
Lemma check_relation_update_data idx (d ref : pydict) :
  Py.lookup "op" d = Some (JStr OP_UPDATE) →
  present "href" d = false →
  Py.lookup "ref" d = Some (JDict ref) →
  Parser.check_resource_identifier_object idx (JDict ref) (JStr OP_UPDATE) = Ok tt →
  present "relationship" ref = true →
  check_operation idx (JDict d)
  = match Py.lookup "data" d with
    | None => Raise (MissingPrimaryData idx)
    | Some data =>
        except_KeyError
          match data with
          | JNull => Ok tt
          | JDict _ =>
              Parser.check_resource_identifier_object idx data (JStr OP_UPDATE)
          | JList relations =>
              for_each
                (λ relation,
                   Parser.check_resource_identifier_object idx relation
                     (JStr OP_UPDATE))
                relations
          | _ => Raise (InvalidPrimaryDataType idx "object or array")
          end
          (Raise (MissingPrimaryData idx))
    end.
Proof.
  intros Hop Hhref Href Hrio Hrelationship.
  assert (Py.truthy (JDict ref) = true) as Htruthy.
  { destruct ref; [discriminate Hrelationship|reflexivity]. }
  transitivity (Parser.check_relation_update idx (JDict d)).
  { unfold Parser.check_operation. rewrite !get_dict. cbn [mbind result_bind].
    rewrite Hop. cbn [from_option id]. unfold present in Hhref.
    rewrite Hhref. transitivity (Parser.check_update_operation idx (JDict d));
      [reflexivity|].
    unfold Parser.check_update_operation. rewrite !get_dict, Href.
    cbn [mbind result_bind from_option id]. by rewrite Htruthy. }
  unfold Parser.check_relation_update, Py.getitem. rewrite Href.
  cbn [mbind result_bind]. change (JStr "update") with (JStr OP_UPDATE).
  rewrite Hrio, get_dict. cbn [mbind result_bind].
  unfold present in Hrelationship. rewrite Hrelationship. cbn [negb].
  by destruct (Py.lookup "data" d).
Qed.

Section BaseParser.

(** The inherited methods, see [Parser]. *)
Variable parse_attributes parse_relationships parse_metadata : json → result pydict.

Local Abbreviation parse_data_operation :=
  (Parser.parse_data_operation SUPPORTED_OPERATIONS
     parse_attributes parse_relationships parse_metadata).

(** C8: an operation whose code is not [invoke] and that carries an [href]
    is refused as `not-implemented`, with the pointer of its [href], whatever
    its other members are; the parser stops on it. *)
Theorem href_outside_invoke_is_not_implemented
    (document : json) (idx : nat) (operation : pydict) (operation_code : json) :
  Py.lookup "op" operation = Some operation_code →
  Py.truthy operation_code = true →
  Py.is_str operation_code OP_INVOKE = false →
  present "href" operation = true →
  let failure :=
    JsonApiParseError "not-implemented"
      "Operation 'href' is only supported for invoke operations. Use 'ref' instead."
      ("/" +:+ ATOMIC_OPERATIONS +:+ "/" +:+ pretty idx +:+ "/href") in
  check_operation idx (JDict operation) = Raise failure
  ∧ parse_data_operation document idx (JDict operation) = Raise failure
  ∧ error_id failure = Some "not-implemented".
Proof.
  intros Hop Hcode Hinvoke Hhref failure.
  assert (Hcheck : check_operation idx (JDict operation) = Raise failure).
  { unfold Parser.check_operation. rewrite !get_dict. cbn [mbind result_bind].
    rewrite Hop. cbn [from_option id]. rewrite Hcode. cbn [negb].
    unfold present in Hhref. rewrite Hhref, Hinvoke. reflexivity. }
  split; [exact Hcheck|]. split; [|reflexivity].
  unfold Parser.parse_data_operation. rewrite Hcheck. reflexivity.
Qed.

(** The parser hands such an update on under the code of a relationship
    update. *)
Lemma parse_relation_update_code document idx (d ref : pydict) parsed :
  Py.lookup "op" d = Some (JStr OP_UPDATE) →
  Py.lookup "ref" d = Some (JDict ref) →
  present "relationship" ref = true →
  parse_data_operation document idx (JDict d) = Ok parsed →
  parsed.1 = OP_UPDATE_RELATIONSHIP.
Proof.
  intros Hop Href Hrelationship.
  assert (Py.truthy (JDict ref) = true) as Htruthy.
  { destruct ref; [discriminate Hrelationship|reflexivity]. }
  unfold Parser.parse_data_operation.
  destruct (check_operation idx (JDict d)); [|discriminate].
  cbn [mbind result_bind]. rewrite !get_dict. unfold Py.getitem.
  rewrite Hop, Href. cbn [mbind result_bind from_option id].
  change (Py.is_str (JStr OP_UPDATE) OP_UPDATE) with true. cbn match.
  rewrite Htruthy. cbn [mbind result_bind].
  destruct (Py.lookup "relationship" ref) as [name|]; [|discriminate].
  destruct (Py.lookup "data" d) as [data|]; [|discriminate].
  cbn [mbind result_bind].
  destruct name; cbn [mbind result_bind]; try discriminate.
  destruct (Parser.parse_operation _ _ _ _ _); [|discriminate].
  cbn [mbind result_bind].
  destruct (Parser.parse_operation_metadata _ _); [|discriminate].
  by intros [= <-].
Qed.

End BaseParser.

End ParserProperties.

(** ** Dictionaries *)

Lemma lookup_setitem k k' v d :
  Py.lookup k (Py.setitem k' v d)
  = if String.eqb k' k then Some v else Py.lookup k d.
Proof.
  induction d as [|[k0 v0] d IH]; cbn; [done|].
  destruct (String.eqb_spec k0 k') as [->|Hne]; cbn.
  - by destruct (String.eqb k' k).
  - rewrite IH. destruct (String.eqb_spec k0 k) as [->|]; [|done].
    destruct (String.eqb_spec k' k) as [->|]; done.
Qed.

Lemma lookup_app k d e :
  Py.lookup k (d ++ e)
  = match Py.lookup k d with Some v => Some v | None => Py.lookup k e end.
Proof.
  induction d as [|[k0 v0] d IH]; cbn; [done|]. by destruct (String.eqb k0 k).
Qed.

(** The binding that [d.update(e)] takes from [e] for the key [k]: the last
    one that [e] has for it.  A Python dictionary has one at most. *)
Definition overriding (k : string) (e : pydict) : option json :=
  Py.lookup k (reverse e).

Lemma lookup_update k d e :
  Py.lookup k (Py.update d e) = overriding k e ∪ Py.lookup k d.
Proof.
  unfold Py.update, overriding. revert d.
  induction e as [|[k' v] e IH]; intros d; cbn [fold_left fst snd].
  - by destruct (Py.lookup k d).
  - rewrite IH, reverse_cons, lookup_app, lookup_setitem. cbn.
    by destruct (Py.lookup k (reverse e)), (String.eqb k' k), (Py.lookup k d).
Qed.

(** ** The meta object of an operation *)

Lemma for_each_ok {A} (f : A → result unit) l :
  for_each f l = Ok tt → ∀ x, x ∈ l → f x = Ok tt.
Proof.
  induction l as [|y l IH]; cbn; [intros _ x Hx; by apply elem_of_nil in Hx|].
  destruct (f y) as [[]|] eqn:Hy; cbn; [|discriminate].
  intros Hl x [->|Hx]%elem_of_cons; [done|by apply IH].
Qed.

(** What [parse_operation_metadata] puts where the index of the operation
    would be: the [id] of the resource when it has that member, else its
    [lid], else [None]. *)
Definition meta_idx (resource : pydict) : json :=
  match Py.lookup "id" resource with
  | Some id => id
  | None => default JNull (Py.lookup "lid" resource)
  end.

Lemma parse_operation_metadata_ok resource metadata r :
  Parser.parse_operation_metadata resource metadata = Ok r →
  (Py.truthy metadata = false ∧ r = [])
  ∨ ∃ items,
      metadata = JDict items ∧ r = [("meta", metadata)]
      ∧ ∀ v, ("include", v) ∈ items → Py.is_list v = true.
Proof.
  unfold Parser.parse_operation_metadata.
  destruct (Py.truthy metadata); cbn [negb]; [|intros [= <-]; by left].
  destruct (Py.contains "id" resource) as [has_id|]; cbn [mbind result_bind];
    [|discriminate].
  destruct (if has_id then _ else _) as [idx|]; cbn [mbind result_bind];
    [|discriminate].
  destruct metadata as [| | | | |items]; try discriminate.
  destruct (for_each _ items) as [[]|] eqn:Hitems; cbn [mbind result_bind];
    [|discriminate].
  intros [= <-]. right. exists items. repeat split.
  intros v Hv. pose proof (for_each_ok _ _ Hitems _ Hv) as H. cbn in H.
  by destruct (Py.is_list v).
Qed.

Lemma parse_operation_metadata_raises resource metadata e :
  Parser.parse_operation_metadata (JDict resource) metadata = Raise e →
  ∃ id detail suffix,
    e = JsonApiParseError id detail
          (ATOMIC_OPERATIONS +:+ "/" +:+ Py.str (meta_idx resource) +:+ suffix)
    ∧ ((id = "invalid-operation-meta-object" ∧ suffix = "/meta"
        ∧ Py.is_dict metadata = false)
       ∨ (id = "invalid-operation-include-value" ∧ suffix = "/meta/include"
          ∧ ∃ items v,
              metadata = JDict items ∧ ("include", v) ∈ items
              ∧ Py.is_list v = false)).
Proof.
  unfold Parser.parse_operation_metadata, meta_idx.
  destruct (Py.truthy metadata); cbn [negb]; [|discriminate].
  cbn [Py.contains mbind result_bind]. rewrite !get_dict.
  assert ((if bool_decide (is_Some (Py.lookup "id" resource))
           then Ok (default JNull (Py.lookup "id" resource))
           else
             (if bool_decide (is_Some (Py.lookup "lid" resource))
              then Ok (default JNull (Py.lookup "lid" resource))
              else Ok JNull))
          = Ok (match Py.lookup "id" resource with
                | Some id => id
                | None => default JNull (Py.lookup "lid" resource)
                end)) as ->.
  { destruct (Py.lookup "id" resource); cbn; [done|].
    by destruct (Py.lookup "lid" resource). }
  cbn [mbind result_bind].
  destruct metadata as [| | | | |items];
    try (intros [= <-]; eexists _, _, "/meta"; split; [reflexivity|by left]).
  destruct (for_each _ items) as [[]|e'] eqn:Hitems; cbn [mbind result_bind];
    [discriminate|].
  intros [= <-].
  apply for_each_raises in Hitems as ([k v] & Hin & Hkv). cbn [fst snd] in Hkv.
  destruct (String.eqb_spec k "include") as [->|]; cbn [andb] in Hkv;
    [|discriminate].
  destruct (Py.is_list v) eqn:Hv; cbn [negb] in Hkv; [discriminate|].
  injection Hkv as <-. eexists _, _, "/meta/include". split; [reflexivity|].
  right. repeat split. by exists items, v.
Qed.

Lemma for_each_forallb {A} (f : A → result unit) (p : A → bool) e l :
  (∀ x, f x = if p x then Ok tt else Raise e) →
  for_each f l = if forallb p l then Ok tt else Raise e.
Proof.
  intros Hf. induction l as [|x l IH]; cbn [for_each forallb]; [done|].
  rewrite Hf. destruct (p x); cbn [mbind result_bind andb]; [exact IH|done].
Qed.

(** The outcome of [parse_operation_metadata] on a resource object, for
    every meta object.  It returns the empty dictionary for a meta object
    that Python takes for false, an absent one among them.  For any other
    meta object that is not a dictionary it raises
    `invalid-operation-meta-object`.  For a dictionary it returns the meta
    object whole, under the key [meta], when every [include] in it is a
    list, and raises `invalid-operation-include-value` otherwise.  The
    pointer of either failure is made of the identifier of the resource,
    without a leading slash; the index of the operation is not in it. *)
Theorem meta_is_handed_on_whole_or_refused resource metadata :
  let pointer suffix :=
    ATOMIC_OPERATIONS +:+ "/" +:+ Py.str (meta_idx resource) +:+ suffix in
  Parser.parse_operation_metadata (JDict resource) metadata
  = if negb (Py.truthy metadata) then Ok []
    else
      match metadata with
      | JDict items =>
          if forallb
               (λ kv : string * json,
                  negb (String.eqb kv.1 "include") || Py.is_list kv.2)
               items
          then Ok [("meta", metadata)]
          else
            Raise (JsonApiParseError "invalid-operation-include-value"
                     "Received operation include value is not a list"
                     (pointer "/meta/include"))
      | _ =>
          Raise (JsonApiParseError "invalid-operation-meta-object"
                   "Received operation meta data value is not valid"
                   (pointer "/meta"))
      end.
Proof.
  intros pointer. unfold Parser.parse_operation_metadata, pointer, meta_idx.
  destruct (Py.truthy metadata); cbn [negb]; [|done].
  cbn [Py.contains mbind result_bind]. rewrite !get_dict.
  assert ((if bool_decide (is_Some (Py.lookup "id" resource))
           then Ok (default JNull (Py.lookup "id" resource))
           else
             (if bool_decide (is_Some (Py.lookup "lid" resource))
              then Ok (default JNull (Py.lookup "lid" resource))
              else Ok JNull))
          = Ok (match Py.lookup "id" resource with
                | Some id => id
                | None => default JNull (Py.lookup "lid" resource)
                end)) as ->.
  { destruct (Py.lookup "id" resource); cbn; [done|].
    by destruct (Py.lookup "lid" resource). }
  cbn [mbind result_bind]. destruct metadata as [| | | | |items]; try done.
  rewrite (for_each_forallb _
             (λ kv : string * json,
                negb (String.eqb kv.1 "include") || Py.is_list kv.2)
             (JsonApiParseError "invalid-operation-include-value"
                "Received operation include value is not a list"
                (ATOMIC_OPERATIONS +:+ "/" +:+
                 Py.str (match Py.lookup "id" resource with
                         | Some id => id
                         | None => default JNull (Py.lookup "lid" resource)
                         end) +:+ "/meta/include"))).
  - by destruct (forallb _ items).
  - intros [k v]. cbn [fst snd].
    by destruct (String.eqb k "include"), (Py.is_list v).
Qed.

(** ** What the parser hands on *)

Section ParserOutput.

Variable SUPPORTED_OPERATIONS : list string.
Variable parse_attributes parse_relationships parse_metadata : json → result pydict.

Local Abbreviation check_operation := (Parser.check_operation SUPPORTED_OPERATIONS).
Local Abbreviation parse_operation :=
  (Parser.parse_operation parse_attributes parse_relationships parse_metadata).
Local Abbreviation parse_data_operation :=
  (Parser.parse_data_operation SUPPORTED_OPERATIONS
     parse_attributes parse_relationships parse_metadata).
Local Abbreviation parse_operations :=
  (Parser.parse_operations SUPPORTED_OPERATIONS
     parse_attributes parse_relationships parse_metadata).
Local Abbreviation parse_data :=
  (Parser.parse_data SUPPORTED_OPERATIONS
     parse_attributes parse_relationships parse_metadata).

Lemma is_str_eq v s : Py.is_str v s = true → v = JStr s.
Proof.
  destruct v; try discriminate. cbn. by intros ->%String.eqb_eq.
Qed.

(** An operation that passes the checks is an object whose code is one of
    the four codes of the protocol. *)
Lemma check_operation_ok idx operation :
  check_operation idx operation = Ok tt →
  ∃ d code,
    operation = JDict d ∧ Py.lookup "op" d = Some (JStr code)
    ∧ code ∈ [OP_ADD; OP_UPDATE; OP_REMOVE; OP_INVOKE]
    ∧ (present "href" d = true → code = OP_INVOKE).
Proof.
  unfold Parser.check_operation.
  destruct operation as [| | | | |d]; try discriminate.
  rewrite !get_dict. cbn [mbind result_bind]. unfold present.
  destruct (Py.lookup "op" d) as [code|] eqn:Hop; cbn [from_option id];
    [|discriminate].
  destruct (Py.truthy code); cbn [negb]; [|discriminate].
  destruct (Py.truthy (default JNull (Py.lookup "href" d))) eqn:Hhref;
    cbn [andb].
  - destruct (Py.is_str code OP_INVOKE) eqn:Hinvoke; cbn [negb]; [|discriminate].
    apply is_str_eq in Hinvoke as ->. intros _. exists d, OP_INVOKE.
    repeat split; [done|rewrite !elem_of_cons; auto].
  - intros H. exists d.
    destruct (Py.is_str code OP_ADD) eqn:Hadd;
      [apply is_str_eq in Hadd as ->; exists OP_ADD; repeat split;
       try done; try congruence; rewrite !elem_of_cons; auto|].
    destruct (Py.is_str code OP_REMOVE) eqn:Hremove;
      [apply is_str_eq in Hremove as ->; exists OP_REMOVE; repeat split;
       try done; try congruence; rewrite !elem_of_cons; auto|].
    destruct (Py.is_str code OP_UPDATE) eqn:Hupdate;
      [apply is_str_eq in Hupdate as ->; exists OP_UPDATE; repeat split;
       try done; try congruence; rewrite !elem_of_cons; auto|].
    destruct (Py.is_str code OP_INVOKE) eqn:Hinvoke;
      [apply is_str_eq in Hinvoke as ->; exists OP_INVOKE; repeat split;
       try done; try congruence; rewrite !elem_of_cons; auto|].
    discriminate.
Qed.

(** Takes a run of the error monad apart along the calls it makes. *)
Ltac walk_through H :=
  repeat (cbn [mbind result_bind] in H;
          match type of H with
          | Raise _ = Ok _ => discriminate H
          | context [result_bind _ ?x] => destruct x eqn:?
          | context [@mbind result _ _ _ _ ?x] => destruct x eqn:?
          | context [match ?x with _ => _ end] => destruct x eqn:?
          end).

(** What the parser makes of an operation is a pair of one of the five
    codes that the view knows and a dictionary; the code is that of the
    request, but for an update with a [ref], which becomes a relationship
    update. *)
Theorem parsed_operation_has_a_known_code document idx operation parsed :
  parse_data_operation document idx operation = Ok parsed →
  ∃ d code payload,
    operation = JDict d
    ∧ Py.lookup "op" d = Some (JStr code)
    ∧ code ∈ [OP_ADD; OP_UPDATE; OP_REMOVE; OP_INVOKE]
    ∧ parsed = (if String.eqb code OP_UPDATE && present "ref" d
                then OP_UPDATE_RELATIONSHIP else code, JDict payload).
Proof.
  unfold Parser.parse_data_operation.
  destruct (check_operation idx operation) as [[]|] eqn:Hcheck; [|discriminate].
  apply check_operation_ok in Hcheck as (d & code & -> & Hop & Hcode & _).
  cbn [mbind result_bind]. rewrite !get_dict. unfold Py.getitem, present.
  rewrite Hop. cbn [mbind result_bind]. intros H. exists d, code.
  rewrite !elem_of_cons in Hcode.
  destruct Hcode as [->|[->|[->|[->|Hcode]]]]; [..|by apply elem_of_nil in Hcode];
    cbn [Py.is_str OP_ADD OP_UPDATE OP_REMOVE OP_INVOKE String.eqb Ascii.eqb
         Bool.eqb andb] in H |- *.
  all: walk_through H.
  all: injection H as <-; eexists; repeat split; try done;
    rewrite ?elem_of_cons; auto 6.
Qed.

Lemma parse_operations_ok document operations idx parsed :
  parse_operations document idx operations = Ok parsed →
  length parsed = length operations
  ∧ ∀ i operation,
      operations !! i = Some operation →
      ∃ p, parsed !! i = Some p
           ∧ parse_data_operation document (idx + i) operation = Ok p.
Proof.
  revert idx parsed.
  induction operations as [|first rest IH]; intros idx parsed; cbn [Parser.parse_operations].
  - intros [= <-]. split; [done|]. intros i operation H. by destruct i.
  - destruct (parse_data_operation document idx first) as [p|] eqn:Hfirst;
      cbn [mbind result_bind]; [|discriminate].
    destruct (parse_operations document (S idx) rest) as [ps|] eqn:Hrest;
      cbn [mbind result_bind]; [|discriminate].
    intros [= <-]. destruct (IH _ _ Hrest) as [Hlen Hps].
    split; [cbn; by rewrite Hlen|].
    intros [|i] operation; cbn.
    + intros [= <-]. exists p. by rewrite Nat.add_0_r.
    + intros Hi. destruct (Hps i operation Hi) as (q & Hq & Hparsed).
      exists q. split; [done|]. by rewrite Nat.add_succ_r.
Qed.

Lemma parse_operations_raises document operations idx e :
  parse_operations document idx operations = Raise e →
  ∃ i operation,
    operations !! i = Some operation
    ∧ parse_data_operation document (idx + i) operation = Raise e
    ∧ ∀ j earlier,
        j < i → operations !! j = Some earlier →
        is_ok (parse_data_operation document (idx + j) earlier) = true.
Proof.
  revert idx.
  induction operations as [|first rest IH]; intros idx; cbn [Parser.parse_operations];
    [discriminate|].
  destruct (parse_data_operation document idx first) as [p|e1] eqn:Hfirst;
    cbn [mbind result_bind].
  - destruct (parse_operations document (S idx) rest) as [ps|e2] eqn:Hrest;
      cbn [mbind result_bind]; [discriminate|].
    intros [= <-]. destruct (IH _ Hrest) as (i & operation & Hi & Hfails & Hbefore).
    exists (S i), operation. split; [done|].
    split; [by rewrite Nat.add_succ_r|].
    intros [|j] earlier Hlt; cbn.
    + intros [= <-]. by rewrite Nat.add_0_r, Hfirst.
    + intros Hj. rewrite Nat.add_succ_r. apply (Hbefore j earlier); [lia|done].
  - intros [= <-]. exists 0, first. split; [done|].
    split; [by rewrite Nat.add_0_r|]. intros j earlier Hlt. lia.
Qed.

(** [parse_data] goes through the operations of the document in order, one
    by one and each with its index.  When it returns, it returns one parsed
    operation for each operation of the document, in the same order; when
    it raises, either the document has no list of operations or the failure
    is that of the first operation which does not parse, and every
    operation before that one parses. *)
Theorem parse_data_goes_operation_by_operation document :
  match parse_data document with
  | Ok parsed =>
      ∃ operations,
        Py.getitem document ATOMIC_OPERATIONS = Ok (JList operations)
        ∧ length parsed = length operations
        ∧ ∀ i operation,
            operations !! i = Some operation →
            ∃ p, parsed !! i = Some p
                 ∧ parse_data_operation document i operation = Ok p
  | Raise e =>
      Parser.check_root document = Raise e
      ∨ ∃ operations i operation,
          Py.getitem document ATOMIC_OPERATIONS = Ok (JList operations)
          ∧ operations !! i = Some operation
          ∧ parse_data_operation document i operation = Raise e
          ∧ ∀ j earlier,
              j < i → operations !! j = Some earlier →
              is_ok (parse_data_operation document j earlier) = true
  end.
Proof.
  unfold Parser.parse_data.
  destruct (Parser.check_root document) as [[]|e] eqn:Hroot;
    cbn [mbind result_bind]; [|by left].
  unfold Parser.check_root in Hroot.
  destruct document as [| | | | |d]; try discriminate.
  unfold Py.getitem.
  destruct (Py.lookup ATOMIC_OPERATIONS d) as [operations|]; [|discriminate].
  destruct operations as [| | | |operations|]; try discriminate.
  cbn [mbind result_bind].
  destruct (parse_operations (JDict d) 0 operations) as [parsed|e] eqn:Hparsed.
  - exists operations. split; [done|].
    by apply parse_operations_ok in Hparsed.
  - right. apply parse_operations_raises in Hparsed
      as (i & operation & Hi & Hfails & Hbefore).
    by exists operations, i, operation.
Qed.

Lemma getitem_dict d k :
  Py.getitem (JDict d) k
  = match Py.lookup k d with Some x => Ok x | None => Raise (KeyError k) end.
Proof. reflexivity. Qed.

Lemma check_invoke_operation_ok idx d :
  Parser.check_invoke_operation idx (JDict d) = Ok tt →
  ∃ ref type href,
    Py.lookup "ref" d = Some (JDict ref)
    ∧ Py.lookup "type" ref = Some type ∧ Py.truthy type = true
    ∧ Py.lookup "href" ref = Some href ∧ Py.truthy href = true.
Proof.
  unfold Parser.check_invoke_operation. rewrite get_dict.
  cbn [mbind result_bind].
  destruct (Py.lookup "ref" d) as [ref|]; cbn [from_option id]; [|discriminate].
  destruct (Py.truthy ref); cbn [negb]; [|discriminate].
  destruct ref as [| | | | |ref]; try discriminate.
  rewrite !get_dict. cbn [mbind result_bind].
  destruct (Py.lookup "href" ref) as [href|] eqn:Hh; cbn [from_option id];
    [|discriminate].
  destruct (Py.truthy href) eqn:Hhref; cbn [negb]; [|discriminate].
  destruct (Py.lookup "type" ref) as [type|] eqn:Ht; cbn [from_option id];
    [|discriminate].
  destruct (Py.truthy type) eqn:Htype; cbn [negb]; [|discriminate].
  intros _. by exists ref, type, href.
Qed.

Lemma check_operation_invoke idx d :
  Py.lookup "op" d = Some (JStr OP_INVOKE) →
  check_operation idx (JDict d) = Ok tt →
  Parser.check_invoke_operation idx (JDict d) = Ok tt.
Proof.
  intros Hop. unfold Parser.check_operation. rewrite !get_dict, Hop.
  cbn [mbind result_bind from_option id].
  change (Py.truthy (JStr OP_INVOKE)) with true.
  change (Py.is_str (JStr OP_INVOKE) OP_INVOKE) with true.
  change (Py.is_str (JStr OP_INVOKE) OP_ADD) with false.
  change (Py.is_str (JStr OP_INVOKE) OP_REMOVE) with false.
  change (Py.is_str (JStr OP_INVOKE) OP_UPDATE) with false.
  cbn [negb andb]. by rewrite andb_false_r.
Qed.

(** What the parser hands on for an [invoke]: the [type] and the [href] of
    its [ref], the [data] of the operation, and the meta object.  The
    [data] are parsed when they have [attributes] or, failing that,
    [relationships], and handed on as they are otherwise, the empty
    dictionary standing for a missing member.  The [id] and the [lid] of
    the [ref] are not handed on. *)
Theorem invoke_hands_on_type_href_and_data document idx d parsed :
  Py.lookup "op" d = Some (JStr OP_INVOKE) →
  parse_data_operation document idx (JDict d) = Ok parsed →
  ∃ ref type href has_attributes structured data metadata payload,
    Py.lookup "ref" d = Some (JDict ref)
    ∧ Py.lookup "type" ref = Some type ∧ Py.truthy type = true
    ∧ Py.lookup "href" ref = Some href ∧ Py.truthy href = true
    ∧ (let raw := default (JDict []) (Py.lookup "data" d) in
       Py.contains "attributes" raw = Ok has_attributes
       ∧ (if has_attributes : bool then structured = true
          else Py.contains "relationships" raw = Ok structured)
       ∧ (if structured : bool
          then ∃ p, parse_operation raw document = Ok p ∧ data = JDict p
          else data = raw))
    ∧ Parser.parse_operation_metadata (JDict ref)
        (default JNull (Py.lookup "meta" d)) = Ok metadata
    ∧ payload = Py.update [("type", type); ("href", href); ("data", data)] metadata
    ∧ parsed = (OP_INVOKE, JDict payload)
    ∧ Py.lookup "id" payload = None
    ∧ Py.lookup "lid" payload = None.
Proof.
  intros Hop. unfold Parser.parse_data_operation.
  destruct (check_operation idx (JDict d)) as [[]|] eqn:Hcheck; [|discriminate].
  apply (check_operation_invoke _ _ Hop), check_invoke_operation_ok in Hcheck
    as (ref & type & href & Href & Htype & Htype' & Hhref & Hhref').
  cbn [mbind result_bind]. rewrite !get_dict, !getitem_dict, Hop, Href.
  cbn [mbind result_bind Py.get_default from_option id].
  change (Py.is_str (JStr OP_INVOKE) OP_UPDATE) with false.
  change (Py.is_str (JStr OP_INVOKE) OP_INVOKE) with true.
  cbn [mbind result_bind]. rewrite !getitem_dict, Htype, Hhref.
  set (raw := default (JDict []) (Py.lookup "data" d)).
  destruct (Py.contains "attributes" raw) as [has_attributes|] eqn:Hattributes;
    cbn [mbind result_bind]; [|discriminate].
  destruct (if has_attributes then Ok true else Py.contains "relationships" raw)
    as [structured|] eqn:Hstructured; cbn [mbind result_bind]; [|discriminate].
  destruct (if structured
            then parse_operation raw document ≫= λ p : pydict, Ok (JDict p)
            else Ok raw) as [data|] eqn:Hdata;
    cbn [mbind result_bind]; [|discriminate].
  destruct (Parser.parse_operation_metadata (JDict ref)
              (default JNull (Py.lookup "meta" d))) as [metadata|] eqn:Hmeta;
    cbn [mbind result_bind]; [|discriminate].
  intros [= <-].
  pose proof (parse_operation_metadata_ok _ _ _ Hmeta) as Hshape.
  exists ref, type, href, has_attributes, structured, data, metadata.
  eexists. repeat split; try done;
    try (destruct Hshape as [[_ ->]|(items & _ & -> & _)]; reflexivity).
  - destruct has_attributes; [by injection Hstructured|done].
  - destruct structured; [|by injection Hdata].
    destruct (parse_operation raw document) as [p|]; [|discriminate].
    exists p. split; [done|]. by injection Hdata.
Qed.

(** An [add], a [remove] and an [update] without [ref] are parsed from the
    [data] member of the operation when it has one, and from its [ref]
    otherwise, whatever the checks have looked at: a [remove] is checked on
    its [ref] and parsed from its [data] when it carries both.  A bulk type
    makes no difference to what is handed on. *)
Theorem standard_operation_is_parsed_from_data_before_ref
    document idx d code parsed :
  Py.lookup "op" d = Some (JStr code) →
  code ≠ OP_INVOKE →
  (code = OP_UPDATE → present "ref" d = false) →
  parse_data_operation document idx (JDict d) = Ok parsed →
  let target :=
    default (default JNull (Py.lookup "ref" d)) (Py.lookup "data" d) in
  ∃ p m,
    parse_operation target document = Ok p
    ∧ Parser.parse_operation_metadata target
        (default JNull (Py.lookup "meta" d)) = Ok m
    ∧ parsed = (code, JDict (Py.update p m)).
Proof.
  intros Hop Hinvoke Hupdate. unfold Parser.parse_data_operation.
  destruct (check_operation idx (JDict d)) as [[]|] eqn:Hcheck; [|discriminate].
  apply check_operation_ok in Hcheck as (d' & code' & [= <-] & Hop' & Hcode & _).
  rewrite Hop in Hop'. injection Hop' as <-.
  cbn [mbind result_bind]. rewrite !get_dict, !getitem_dict, Hop.
  cbn [mbind result_bind Py.get_default]. unfold present in Hupdate.
  rewrite !elem_of_cons in Hcode.
  destruct (Py.lookup "data" d) as [data|] eqn:Hdata; cbn [from_option id].
  all: destruct Hcode as [->|[->|[->|[->|Hcode]]]];
    [| | |done|by apply elem_of_nil in Hcode].
  all: repeat match goal with
         | |- context [Py.is_str (JStr ?a) ?b] =>
             let v := eval vm_compute in (Py.is_str (JStr a) b) in
             change (Py.is_str (JStr a) b) with v
         end.
  all: rewrite ?(Hupdate eq_refl); cbn [mbind result_bind].
  all: intros H; walk_through H; injection H as <-; eauto.
Qed.

(** What [parse_id_lid_and_type] keeps of a resource object: its [id] when
    the member is there, whatever its value; its [type], or [None] for a
    missing one; its [lid] when Python takes it for true; nothing else. *)
Lemma parse_id_lid_and_type_lookup (r : pydict) :
  ∃ ident,
    Parser.parse_id_lid_and_type (JDict r) = Ok ident
    ∧ Py.lookup "id" ident = Py.lookup "id" r
    ∧ Py.lookup "type" ident = Some (default JNull (Py.lookup "type" r))
    ∧ Py.lookup "lid" ident
      = (if Py.truthy (default JNull (Py.lookup "lid" r))
         then Py.lookup "lid" r else None)
    ∧ ∀ k, k ≠ "id" → k ≠ "type" → k ≠ "lid" → Py.lookup k ident = None.
Proof.
  unfold Parser.parse_id_lid_and_type. cbn [Py.contains mbind result_bind].
  rewrite !get_dict. cbn [mbind result_bind Py.get_default].
  destruct (Py.lookup "id" r) as [given|];
    [rewrite bool_decide_true by done|rewrite bool_decide_false by by intros []];
    cbn [mbind result_bind from_option id];
    (eexists; split; [reflexivity|]);
    destruct (Py.lookup "lid" r) as [lid|]; cbn [from_option id];
    try destruct (Py.truthy lid); cbn [Py.truthy];
    repeat split; try (rewrite ?lookup_setitem; cbn; done);
    intros k Hid Htype Hlid; rewrite ?lookup_setitem; cbn [Py.lookup];
    repeat match goal with
           | |- context [String.eqb ?a k] =>
               destruct (String.eqb_spec a k); [congruence|]
           end; done.
Qed.

(** What [parse_operation] hands on under a key is what the last of its
    four parts to have the key gives: the meta data of the document before
    the relationships, these before the attributes, and the attributes
    before what [parse_id_lid_and_type] keeps of the resource object, which
    is its [id] when it has the member, its [type], and its [lid] when it is
    not empty.  An attribute called [id], [type] or [lid] takes the place of
    that member. *)
Theorem parse_operation_lets_later_parts_win (r : pydict) document p :
  parse_operation (JDict r) document = Ok p →
  ∃ ident attributes relationships metadata,
    Parser.parse_id_lid_and_type (JDict r) = Ok ident
    ∧ parse_attributes (JDict r) = Ok attributes
    ∧ parse_relationships (JDict r) = Ok relationships
    ∧ parse_metadata document = Ok metadata
    ∧ (∀ k,
         Py.lookup k p
         = overriding k metadata ∪ (overriding k relationships
             ∪ (overriding k attributes ∪ Py.lookup k ident)))
    ∧ Py.lookup "id" ident = Py.lookup "id" r
    ∧ Py.lookup "type" ident = Some (default JNull (Py.lookup "type" r))
    ∧ Py.lookup "lid" ident
      = (if Py.truthy (default JNull (Py.lookup "lid" r))
         then Py.lookup "lid" r else None)
    ∧ ∀ k, k ≠ "id" → k ≠ "type" → k ≠ "lid" → Py.lookup k ident = None.
Proof.
  unfold Parser.parse_operation.
  destruct (parse_id_lid_and_type_lookup r)
    as (ident & -> & Hid & Htype & Hlid & Hother).
  intros H. walk_through H. injection H as <-.
  exists ident. eexists _, _, _. repeat split; try done.
  intros k. by rewrite !lookup_update.
Qed.

End ParserOutput.

(** ** What the checks let pass *)

Lemma check_resource_identifier_object_ok idx rio code :
  Parser.check_resource_identifier_object idx rio (JStr code) = Ok tt →
  ∃ target,
    rio = JDict target
    ∧ present "type" target = true
    ∧ (code = OP_UPDATE ∨ code = OP_REMOVE →
       xorb (present "id" target) (present "lid" target) = true).
Proof.
  unfold Parser.check_resource_identifier_object, present, Py.is_str.
  destruct rio as [| | | | |target];
    try (destruct (_ || _); discriminate).
  rewrite !get_dict. cbn [mbind result_bind]. intros H. exists target.
  split; [done|].
  destruct (String.eqb code "update") eqn:Hupdate;
    destruct (String.eqb code "remove") eqn:Hremove;
    cbn [orb mbind result_bind] in H;
    destruct (Py.truthy (default JNull (Py.lookup "id" target)));
    destruct (Py.truthy (default JNull (Py.lookup "lid" target)));
    destruct (Py.truthy (default JNull (Py.lookup "type" target)));
    try discriminate; (split; [done|]); try done;
    intros [-> | ->]; first [by vm_compute in Hupdate | by vm_compute in Hremove].
Qed.

(** Closes a case in which a check has raised. *)
Ltac refused :=
  cbn [mbind result_bind negb andb default from_option id Py.truthy Py.is_dict
       except_KeyError] in *;
  discriminate.

Section Accepted.

Variable SUPPORTED_OPERATIONS : list string.
Variable parse_attributes parse_relationships parse_metadata : json → result pydict.

Local Abbreviation check_operation := (Parser.check_operation SUPPORTED_OPERATIONS).
Local Abbreviation parse_data_operation :=
  (Parser.parse_data_operation SUPPORTED_OPERATIONS
     parse_attributes parse_relationships parse_metadata).

(** The member of an operation that the checks take for its target: [data]
    for an [add] and for an [update] without [ref], [ref] otherwise. *)
Definition checked_member (code : string) (d : pydict) : string :=
  if String.eqb code OP_ADD || (String.eqb code OP_UPDATE && negb (present "ref" d))
  then "data" else "ref".

(** An operation that passes [check_operation] has an object for its
    target, with a [type]; the target of an [update] and of a [remove] has
    exactly one of [id] and [lid]; the [ref] of an [invoke] has an [href];
    and an [update] with a [ref] names a relationship and has a [data]
    member. *)
Theorem accepted_operation_has_a_typed_target idx operation :
  check_operation idx operation = Ok tt →
  ∃ d code target,
    operation = JDict d
    ∧ Py.lookup "op" d = Some (JStr code)
    ∧ Py.lookup (checked_member code d) d = Some (JDict target)
    ∧ present "type" target = true
    ∧ (code = OP_UPDATE ∨ code = OP_REMOVE →
       xorb (present "id" target) (present "lid" target) = true)
    ∧ (code = OP_INVOKE → present "href" target = true)
    ∧ (code = OP_UPDATE → present "ref" d = true →
       present "relationship" target = true ∧ is_Some (Py.lookup "data" d)).
Proof.
  intros H. pose proof H as H0.
  apply check_operation_ok in H0 as (d & code & -> & Hop & Hcode & Hhref).
  exists d, code. unfold Parser.check_operation in H.
  rewrite !get_dict, Hop in H. cbn [mbind result_bind from_option id] in H.
  unfold checked_member, present in *.
  rewrite !elem_of_cons in Hcode.
  destruct Hcode as [->|[->|[->|[->|Hcode]]]]; [..|by apply elem_of_nil in Hcode].
  all: repeat match type of H with
         | context [Py.is_str (JStr ?a) ?b] =>
             let v := eval vm_compute in (Py.is_str (JStr a) b) in
             change (Py.is_str (JStr a) b) with v in H
         | context [Py.truthy (JStr ?a)] =>
             let v := eval vm_compute in (Py.truthy (JStr a)) in
             change (Py.truthy (JStr a)) with v in H
         end.
  all: cbn [negb andb] in H; rewrite ?andb_false_r, ?andb_true_r in H.
  - (* add *)
    destruct (Py.truthy (default JNull (Py.lookup "href" d))); [refused|].
    unfold Parser.check_add_operation in H.
    destruct (Py.is_dict _); [|refused]. cbn [negb] in H.
    apply check_resource_identifier_object_ok in H as (target & Hdata & Htype & _).
    exists target. change (String.eqb OP_ADD OP_ADD) with true. cbn [orb].
    destruct (Py.lookup "data" d) as [data|]; [|refused].
    cbn in Hdata. subst data. repeat split; try done.
    intros [|]; discriminate.
  - (* update *)
    destruct (Py.truthy (default JNull (Py.lookup "href" d))); [refused|].
    change (String.eqb OP_UPDATE OP_ADD) with false.
    change (String.eqb OP_UPDATE OP_UPDATE) with true. cbn [orb andb].
    unfold Parser.check_update_operation in H. rewrite !get_dict in H.
    cbn [mbind result_bind] in H.
    destruct (Py.truthy (default JNull (Py.lookup "ref" d))) eqn:Href;
      cbn [negb].
    + unfold Parser.check_relation_update in H.
      destruct (Py.lookup "ref" d) as [ref|] eqn:Hr; [|refused].
      rewrite !getitem_dict, Hr in H. cbn [mbind result_bind default] in H.
      destruct (Parser.check_resource_identifier_object idx ref (JStr "update"))
        as [[]|] eqn:Hcheck; [|refused].
      apply check_resource_identifier_object_ok in Hcheck
        as (target & -> & Htype & Hone).
      cbn [mbind result_bind] in H. rewrite get_dict in H.
      cbn [mbind result_bind] in H.
      destruct (Py.truthy (default JNull (Py.lookup "relationship" target)))
        eqn:Hrel; [|refused].
      cbn [negb] in H. exists target.
      repeat split; try done; try (intros _; apply Hone; auto; fail).
      destruct (Py.lookup "data" d); [done|refused].
    + destruct (Py.truthy (default JNull (Py.lookup "data" d))); [|refused].
      cbn [negb] in H. destruct (Py.is_dict _); [|refused].
      cbn [negb] in H. rewrite getitem_dict, Hop in H.
      cbn [mbind result_bind] in H.
      apply check_resource_identifier_object_ok in H as (target & Hdata & Htype & Hone).
      exists target. destruct (Py.lookup "data" d) as [data|]; [|refused].
      cbn in Hdata. subst data.
      repeat split; try done; try (intros _; apply Hone; auto; fail).
  - (* remove *)
    destruct (Py.truthy (default JNull (Py.lookup "href" d))); [refused|].
    change (String.eqb OP_REMOVE OP_ADD) with false.
    change (String.eqb OP_REMOVE OP_UPDATE) with false. cbn [orb andb].
    unfold Parser.check_remove_operation in H.
    destruct (Py.truthy _); [|refused]. cbn [negb] in H.
    apply check_resource_identifier_object_ok in H as (target & Href & Htype & Hone).
    exists target. destruct (Py.lookup "ref" d) as [ref|]; [|refused].
    cbn in Href. subst ref.
    repeat split; try done; try (intros _; apply Hone; auto; fail).
  - (* invoke *)
    change (String.eqb OP_INVOKE OP_ADD) with false.
    change (String.eqb OP_INVOKE OP_UPDATE) with false. cbn [orb andb].
    apply check_invoke_operation_ok in H
      as (ref & type & href & Href & Htype & Htype' & Hhref' & Hhref'').
    exists ref. rewrite Htype, Hhref'. repeat split; try done.
    intros [|]; discriminate.
Qed.

(** What [check_operation] does with an update or a remove that has no
    [href] and whose target is an object that is not empty: it checks the
    target, and, for an update with a [ref], goes on to the relationship. *)
Lemma check_operation_checks_the_target idx d target code :
  Py.lookup "op" d = Some (JStr code) →
  code = OP_UPDATE ∨ code = OP_REMOVE →
  present "href" d = false →
  Py.lookup (checked_member code d) d = Some (JDict target) →
  target ≠ [] →
  ∃ rest : unit → result unit,
    check_operation idx (JDict d)
    = Parser.check_resource_identifier_object idx (JDict target) (JStr code)
      ≫= rest
    ∧ (String.eqb code OP_UPDATE && present "ref" d = false → rest tt = Ok tt).
Proof.
  intros Hop Hcode Hhref Htarget Hne.
  assert (Py.truthy (JDict target) = true) as Htruthy by (by destruct target).
  unfold Parser.check_operation. rewrite !get_dict, Hop.
  cbn [mbind result_bind from_option id]. unfold present in Hhref. rewrite Hhref.
  unfold checked_member, present in *.
  destruct Hcode as [-> | ->].
  - change (Py.truthy (JStr OP_UPDATE)) with true.
    change (Py.is_str (JStr OP_UPDATE) OP_ADD) with false.
    change (Py.is_str (JStr OP_UPDATE) OP_REMOVE) with false.
    change (Py.is_str (JStr OP_UPDATE) OP_UPDATE) with true.
    change (String.eqb OP_UPDATE OP_ADD) with false in Htarget.
    change (String.eqb OP_UPDATE OP_UPDATE) with true in Htarget |- *.
    cbn [negb andb orb] in Htarget |- *.
    unfold Parser.check_update_operation. rewrite !get_dict.
    cbn [mbind result_bind].
    destruct (Py.truthy (default JNull (Py.lookup "ref" d))) eqn:Href;
      cbn [negb] in Htarget.
    + unfold Parser.check_relation_update. rewrite !getitem_dict, Htarget.
      cbn [mbind result_bind]. eexists. split; [reflexivity|done].
    + rewrite Htarget. cbn [from_option id]. rewrite Htruthy.
      cbn [negb Py.is_dict]. rewrite getitem_dict, Hop. cbn [mbind result_bind].
      exists (λ _, Ok tt). split; [|done].
      by destruct (Parser.check_resource_identifier_object _ _ _) as [[]|].
  - change (Py.truthy (JStr OP_REMOVE)) with true.
    change (Py.is_str (JStr OP_REMOVE) OP_ADD) with false.
    change (Py.is_str (JStr OP_REMOVE) OP_REMOVE) with true.
    change (String.eqb OP_REMOVE OP_ADD) with false in Htarget.
    change (String.eqb OP_REMOVE OP_UPDATE) with false in Htarget |- *.
    cbn [negb andb orb] in Htarget |- *.
    unfold Parser.check_remove_operation. rewrite Htarget. cbn [from_option id].
    rewrite Htruthy. cbn [negb]. exists (λ _, Ok tt). split; [|done].
    by destruct (Parser.check_resource_identifier_object _ _ _) as [[]|].
Qed.

(** C7: an update or a remove that has no [href] and whose target, the
    [data] of an update without [ref] and the [ref] otherwise, is an object
    that is not empty.  When the target has both an [id] and a [lid] the
    operation fails as `multiple-id-fields`, and when it has neither it
    fails as `missing-id`, a member that Python takes for false counting as
    absent: [check_operation] raises the failure, and so does the parser on
    the operation.  When the target has exactly one, the check of the
    target asks for the [type] only, and this is all that is asked of a
    remove and of an update without [ref]. *)
Theorem target_carries_exactly_one_of_id_and_lid
    (document : json) (idx : nat) (d target : pydict) (code : string) :
  Py.lookup "op" d = Some (JStr code) →
  code = OP_UPDATE ∨ code = OP_REMOVE →
  present "href" d = false →
  Py.lookup (checked_member code d) d = Some (JDict target) →
  target ≠ [] →
  let pointer :=
    field_pointer idx (if String.eqb code OP_UPDATE then "data" else "ref") in
  let type_only :=
    if present "type" target then Ok tt
    else Raise (JsonApiParseError "missing-type"
                  "The resource identifier object must contain an `type` member"
                  pointer) in
  let fails_with failure :=
    check_operation idx (JDict d) = Raise failure
    ∧ parse_data_operation document idx (JDict d) = Raise failure in
  match present "id" target, present "lid" target with
  | true, true =>
      fails_with (JsonApiParseError "multiple-id-fields"
                    "Only one of `id`, `lid` may be specified" pointer)
      ∧ error_id (JsonApiParseError "multiple-id-fields"
                    "Only one of `id`, `lid` may be specified" pointer)
        = Some "multiple-id-fields"
  | false, false =>
      fails_with (JsonApiParseError "missing-id"
                    "The resource identifier object must contain an `id` member or a `lid` member"
                    pointer)
      ∧ error_id (JsonApiParseError "missing-id"
                    "The resource identifier object must contain an `id` member or a `lid` member"
                    pointer)
        = Some "missing-id"
  | _, _ =>
      Parser.check_resource_identifier_object idx (JDict target) (JStr code)
      = type_only
      ∧ (code = OP_UPDATE → present "ref" d = false →
         check_operation idx (JDict d) = type_only)
      ∧ (code = OP_REMOVE → check_operation idx (JDict d) = type_only)
  end.
Proof.
  intros Hop Hcode Hhref Htarget Hne pointer type_only fails_with.
  pose proof (check_resource_identifier_object_outcome idx target code Hcode)
    as Hrio. cbn zeta in Hrio.
  destruct (check_operation_checks_the_target idx d target code Hop Hcode
              Hhref Htarget Hne) as (rest & Hcheck & Hrest).
  unfold fails_with, Parser.parse_data_operation.
  rewrite Hcheck, Hrio. unfold type_only, pointer, field_pointer.
  destruct (present "id" target), (present "lid" target);
    cbn [mbind result_bind]; try done.
  all: split; [done|]; split.
  all: try (intros -> Href; destruct (present "type" target);
            cbn [mbind result_bind]; [|done];
            apply Hrest; by rewrite Href, andb_false_r).
  all: intros ->; destruct (present "type" target);
    cbn [mbind result_bind]; [|done]; by apply Hrest.
Qed.

End Accepted.

(** ** The action that an [href] names *)

Lemma app_cons c s t : String c s +:+ t = String c (s +:+ t).
Proof. reflexivity. Qed.

Lemma app_empty_l s : "" +:+ s = s.
Proof. reflexivity. Qed.

Lemma app_empty_r s : s +:+ "" = s.
Proof. induction s as [|c s IH]; [done|]. by rewrite app_cons, IH. Qed.

Lemma app_assoc_string s t u : (s +:+ t) +:+ u = s +:+ t +:+ u.
Proof. induction s as [|c s IH]; [done|]. by rewrite !app_cons, IH. Qed.

Lemma rev_app_append s t : String.rev_app s t = String.rev s +:+ t.
Proof.
  unfold String.rev. revert t. induction s as [|c s IH]; intros t; cbn; [done|].
  rewrite (IH (String c "")), IH, app_assoc_string. done.
Qed.

Lemma rev_cons c s : String.rev (String c s) = String.rev s +:+ String c "".
Proof. unfold String.rev at 1. cbn. apply rev_app_append. Qed.

Fixpoint slashes (n : nat) : string :=
  match n with
  | 0 => ""
  | S n => String "/" (slashes n)
  end.

(** [s] has no slash *)
Definition slashless (s : string) : Prop := ∀ x y, s ≠ x +:+ String "/" y.

Lemma slashless_empty : slashless "".
Proof. intros [|c x] y; discriminate. Qed.

Lemma slashless_snoc s c :
  slashless s → c ≠ "/"%char → slashless (s +:+ String c "").
Proof.
  intros Hs Hc. induction s as [|c0 s IH].
  - intros [|c1 [|c2 x]] y; rewrite ?app_cons, ?app_empty_l; congruence.
  - intros [|c1 x] y; rewrite ?app_cons, ?app_empty_l.
    + intros [= -> _]. by apply (Hs "" s).
    + intros [= -> H]. revert H. apply IH.
      intros x' y' ->. by apply (Hs (String c1 x') y').
Qed.

(** [s.rstrip('/')] takes slashes off the end of [s], and all of them. *)
Lemma rstrip_slash_spec s :
  ∃ n, s = Py.rstrip_slash s +:+ slashes n
       ∧ ∀ x, Py.rstrip_slash s ≠ x +:+ "/".
Proof.
  induction s as [|c s (n & Hs & Hend)]; [by exists 0; split; [|intros [|??]]|].
  cbn [Py.rstrip_slash].
  destruct (Ascii.eqb_spec c "/") as [->|Hc]; cbn [andb].
  - destruct (String.eqb_spec (Py.rstrip_slash s) "") as [Hr|Hr].
    + exists (S n). rewrite Hr in Hs. cbn. split; [by rewrite Hs at 1|].
      by intros [|??].
    + exists n. rewrite app_cons, <- Hs. split; [done|].
      intros [|c x]; rewrite ?app_cons, ?app_empty_l;
        [intros [= H]; by rewrite H in Hr|].
      intros [= <- H]. by apply (Hend x).
  - exists n. rewrite app_cons, <- Hs. split; [done|].
    intros [|c' x]; rewrite ?app_cons, ?app_empty_l; [by intros [= -> _]|].
    intros [= <- H]. by apply (Hend x).
Qed.

(** [s.split('/')[-1]] is what follows the last slash of [s]. *)
Lemma last_segment_from_spec s acc :
  slashless (String.rev acc) →
  ∃ pre,
    String.rev acc +:+ s = pre +:+ Py.last_segment_from acc s
    ∧ slashless (Py.last_segment_from acc s)
    ∧ (pre = "" ∨ ∃ x, pre = x +:+ "/").
Proof.
  revert acc. induction s as [|c s IH]; intros acc Hacc; cbn [Py.last_segment_from].
  - exists "". rewrite app_empty_r, app_empty_l. auto.
  - destruct (Ascii.eqb_spec c "/") as [->|Hc].
    + destruct (IH "" slashless_empty) as (pre & Hs & Hless & Hpre).
      cbn in Hs. exists (String.rev acc +:+ String "/" pre).
      rewrite app_assoc_string, app_cons, <- Hs. split; [done|]. split; [done|].
      right. destruct Hpre as [->|[x ->]]; [by exists (String.rev acc)|].
      exists (String.rev acc +:+ String "/" x).
      by rewrite app_assoc_string, app_cons.
    + destruct (IH (String c acc)) as (pre & Hs & Hless & Hpre).
      { rewrite rev_cons. by apply slashless_snoc. }
      exists pre. split; [|done].
      by rewrite <- Hs, rev_cons, app_assoc_string.
Qed.

(** The action that [extract_action_from_href] reads off an [href] is the
    piece of it between its last slash, trailing slashes apart, and these:
    the [href] is a path that is empty or ends on a slash, then the action,
    then slashes only; the action has no slash, and is empty only for an
    [href] made of slashes. *)
Theorem action_is_the_last_segment_of_the_href (href : string) :
  ∃ action pre n,
    View.extract_action_from_href (JStr href) = Ok action
    ∧ href = pre +:+ action +:+ slashes n
    ∧ slashless action
    ∧ (pre = "" ∨ ∃ x, pre = x +:+ "/")
    ∧ (action = "" → pre = "").
Proof.
  destruct (rstrip_slash_spec href) as (n & Hhref & Hend).
  destruct (last_segment_from_spec (Py.rstrip_slash href) "" slashless_empty)
    as (pre & Hstripped & Hless & Hpre).
  cbn in Hstripped. fold (Py.last_segment (Py.rstrip_slash href)) in *.
  exists (Py.last_segment (Py.rstrip_slash href)), pre, n.
  split; [done|]. split; [by rewrite <- app_assoc_string, <- Hstripped|].
  split; [done|]. split; [done|].
  intros Hempty. rewrite Hempty, app_empty_r in Hstripped.
  destruct Hpre as [->|[x ->]]; [done|]. by destruct (Hend x).
Qed.

(** ** The serializer class of an [invoke] *)

Lemma rstrip_slash_slashes s n :
  Py.rstrip_slash (s +:+ slashes n) = Py.rstrip_slash s.
Proof.
  induction s as [|c s IH].
  - rewrite app_empty_l. induction n as [|n IHn]; [done|].
    cbn [slashes Py.rstrip_slash]. by rewrite IHn.
  - rewrite app_cons. cbn [Py.rstrip_slash]. by rewrite IH.
Qed.

Lemma rstrip_slash_id s : (∀ x, s ≠ x +:+ "/") → Py.rstrip_slash s = s.
Proof.
  induction s as [|c s IH]; intros Hend; [done|]. cbn [Py.rstrip_slash].
  destruct s as [|c' s].
  - cbn. destruct (Ascii.eqb_spec c "/") as [->|]; [|done]. by destruct (Hend "").
  - rewrite IH; [by rewrite andb_false_r|].
    intros x Hx. apply (Hend (String c x)). by rewrite app_cons, Hx.
Qed.

Lemma slashless_tail c s : slashless (String c s) → c ≠ "/"%char ∧ slashless s.
Proof.
  intros Hs. split.
  - intros ->. by apply (Hs "" s).
  - intros x y ->. by apply (Hs (String c x) y).
Qed.

Lemma slashless_end pre action x :
  slashless action → action ≠ "" → pre +:+ action ≠ x +:+ "/".
Proof.
  intros Hless Hne. revert x. induction pre as [|c pre IH]; intros x.
  - rewrite app_empty_l. intros ->. apply (Hless x ""). done.
  - destruct x as [|c' x]; rewrite ?app_cons, ?app_empty_l.
    + intros [= _ H]. destruct pre; [by rewrite app_empty_l in H|done].
    + intros [= _ H]. by apply (IH x).
Qed.

Lemma last_segment_from_after_slash acc x s :
  Py.last_segment_from acc (x +:+ String "/" s) = Py.last_segment_from "" s.
Proof.
  revert acc. induction x as [|c x IH]; intros acc;
    rewrite ?app_cons, ?app_empty_l; cbn [Py.last_segment_from]; [done|].
  destruct (Ascii.eqb c "/"); apply IH.
Qed.

Lemma last_segment_from_slashless acc s :
  slashless s → Py.last_segment_from acc s = String.rev acc +:+ s.
Proof.
  revert acc. induction s as [|c s IH]; intros acc Hs; cbn [Py.last_segment_from].
  - by rewrite app_empty_r.
  - apply slashless_tail in Hs as [Hc Hs].
    destruct (Ascii.eqb_spec c "/") as [|_]; [done|].
    by rewrite (IH _ Hs), rev_cons, app_assoc_string.
Qed.

Lemma extract_action_from_href_path pre action n :
  (pre = "" ∨ ∃ x, pre = x +:+ "/") →
  slashless action → action ≠ "" →
  View.extract_action_from_href (JStr (pre +:+ action +:+ slashes n)) = Ok action.
Proof.
  intros Hpre Hless Hne. unfold View.extract_action_from_href. f_equal.
  rewrite <- app_assoc_string, rstrip_slash_slashes.
  rewrite rstrip_slash_id by (intros x; by apply slashless_end).
  unfold Py.last_segment. destruct Hpre as [->|[x ->]].
  - rewrite app_empty_l. by rewrite last_segment_from_slashless.
  - rewrite app_assoc_string. change ("/" +:+ action) with (String "/" action).
    rewrite last_segment_from_after_slash. by rewrite last_segment_from_slashless.
Qed.

Lemma slashless_cons c s :
  c ≠ "/"%char → slashless s → slashless (String c s).
Proof.
  intros Hc Hs [|c' x] y; rewrite ?app_cons, ?app_empty_l.
  - by intros [= -> _].
  - intros [= _ H]. by apply (Hs x y).
Qed.

(** [s] has a slash, decided *)
Fixpoint has_slash (s : string) : bool :=
  match s with
  | EmptyString => false
  | String c s' => Ascii.eqb c "/" || has_slash s'
  end.

Lemma slashless_characters s : has_slash s = false → slashless s.
Proof.
  induction s as [|c s IH]; cbn [has_slash]; [intros _; apply slashless_empty|].
  intros [Hc Hs]%orb_false_iff. apply slashless_cons; [|by apply IH].
  intros ->. done.
Qed.

Section InvokeClass.

Context {Store Instance Validated : Type}.

(** An [invoke] is served by the serializer class that the view has under
    the key [invoke:<type>/<action>], the action being the last segment of
    the path of its [href]: what comes before the segment, and the slashes
    after it, make no difference. *)
Theorem invoke_is_served_by_the_class_of_its_action
    (self : View.Settings Store Instance Validated)
    (resource_type : json) (pre action : string) (n : nat) cls :
  (pre = "" ∨ ∃ x, pre = x +:+ "/") →
  slashless action → action ≠ "" →
  View.serializer_classes self
    !! (OP_INVOKE +:+ ":" +:+ Py.str resource_type +:+ "/" +:+ action)
  = Some cls →
  View.get_serializer_class self OP_INVOKE resource_type
    (JStr (pre +:+ action +:+ slashes n))
  = Ok cls.
Proof.
  intros Hpre Hless Hne Hcls. unfold View.get_serializer_class.
  assert (Py.truthy (JStr (pre +:+ action +:+ slashes n)) = true) as ->.
  { cbn [Py.truthy]. destruct (String.eqb_spec (pre +:+ action +:+ slashes n) "")
      as [Hempty|]; [|done].
    destruct pre; [|done]. rewrite app_empty_l in Hempty. by destruct action. }
  rewrite extract_action_from_href_path by done.
  cbn [mbind result_bind andb String.eqb Ascii.eqb Bool.eqb OP_INVOKE].
  unfold View.get_serializer_classes.
  destruct (Nat.eqb_spec (size (View.serializer_classes self)) 0) as [Hnone|_];
    cbn [mbind result_bind]; [|by rewrite Hcls].
  apply map_size_empty_iff in Hnone. rewrite Hnone in Hcls.
  by rewrite lookup_empty in Hcls.
Qed.

End InvokeClass.

(** * Properties of the validation of includes *)

Section IncludeProperties.

Variable underscore : string → string.

Local Abbreviation validate_path := (Serializers.validate_path underscore).
Local Abbreviation validate_included_resources :=
  (Serializers.validate_included_resources underscore).

Lemma split_from_app acc s t :
  Serializers.split_from acc (s +:+ String "." t)
  = (Serializers.split_from acc s ++ Serializers.split t)%list.
Proof.
  revert acc. induction s as [|c s IH]; intros acc; rewrite ?app_cons, ?app_empty_l;
    cbn [Serializers.split_from].
  - done.
  - destruct (Ascii.eqb c "."); [|apply IH]. cbn [app]. f_equal. apply IH.
Qed.

Lemma split_from_not_empty acc s : Serializers.split_from acc s ≠ [].
Proof.
  revert acc. induction s as [|c s IH]; intros acc; cbn; [done|].
  destruct (Ascii.eqb c "."); [done|apply IH].
Qed.

Lemma validate_path_prefix cls p q path path' :
  p ≠ [] →
  validate_path cls (p ++ q) path = Serializers.Passed →
  validate_path cls p path' = Serializers.Passed.
Proof.
  revert cls. induction p as [|first p IH]; intros cls Hp; [done|].
  cbn [app Serializers.validate_path].
  destruct (Serializers.included_serializers cls) as [serializers|]; [|done].
  destruct (Serializers.get (underscore first) serializers) as [next|]; [|done].
  destruct p as [|second p]; [done|]. cbn [app]. by apply IH.
Qed.

(** When the include of a dotted path is accepted, so is the include of
    what comes before any of its dots. *)
Theorem include_of_a_path_admits_its_prefixes cls s t path path' :
  validate_path cls (Serializers.split (s +:+ String "." t)) path
  = Serializers.Passed →
  validate_path cls (Serializers.split s) path' = Serializers.Passed.
Proof.
  unfold Serializers.split. rewrite split_from_app.
  apply validate_path_prefix, split_from_not_empty.
Qed.

Lemma validate_path_raises cls field_path path e :
  validate_path cls field_path path = Serializers.Raised e →
  e = Serializers.ParseError "This endpoint does not support the include parameter"
  ∨ e = Serializers.ParseError
          ("This endpoint does not support the include parameter for path "
           +:+ path)
  ∨ (e = Serializers.IndexError ∧ field_path = []).
Proof.
  revert cls. induction field_path as [|first rest IH]; intros cls;
    cbn [Serializers.validate_path];
    destruct (Serializers.included_serializers cls) as [serializers|];
    try (intros [= <-]; auto).
  destruct (Serializers.get (underscore first) serializers) as [next|];
    [|intros [= <-]; auto].
  destruct rest as [|second rest]; [done|]. intros H.
  destruct (IH _ H) as [?|[?|[_ ?]]]; auto. done.
Qed.

(** An include that the loop accepts: a string whose path is accepted. *)
Definition accepted_include (cls : Serializers.serializer_class) (v : json)
  : Prop :=
  ∃ name, v = JStr name
          ∧ validate_path cls (Serializers.split name) name = Serializers.Passed.


End IncludeProperties.

(** * Properties of the renderer *)

Section RendererProperties.

Context {ReturnDict Exception : Type}.
Variable items : ReturnDict → pydict.
Variable int : json → option Z.
Variable render_errors : list ReturnDict → option string.
Variable render_primary_data : ReturnDict → Renderer.rendered Exception.

Local Abbreviation check_error := (Renderer.check_error _ items int render_errors).
Local Abbreviation render_from :=
  (Renderer.render_from _ items _ int render_errors render_primary_data).
Local Abbreviation render :=
  (Renderer.render _ items _ int render_errors render_primary_data).

(** An element that [render] goes past: the check of its status gives
    nothing to return, and its own rendering gives [content]. *)
Definition rendered_as (operation_result_data : ReturnDict) (content : string)
  : Prop :=
  Renderer.has_content (check_error operation_result_data) = false
  ∧ render_primary_data operation_result_data = Renderer.Bytes content.

Lemma render_from_rendered data contents atomic_results rest :
  Forall2 rendered_as data contents →
  render_from (data ++ rest) atomic_results
  = render_from rest (atomic_results ++ contents).
Proof.
  intros Hall. revert atomic_results.
  induction Hall as [|d content data contents [Hpass Hcontent] _ IH];
    intros atomic_results; cbn [app Renderer.render_from].
  - by rewrite app_nil_r.
  - rewrite Hpass, Hcontent, IH. by rewrite <- app_assoc.
Qed.

(** The first element with a status from 400 to 600 whose errors render to
    some content ends the rendering: the response is the rendering of the
    errors of this one element, with nothing of the elements before it,
    which were rendered, and whatever the elements after it are. *)
Theorem first_error_is_the_whole_response
    data contents operation_result_data rest status content :
  Forall2 rendered_as data contents →
  int (default JNull (Py.lookup "status" (items operation_result_data)))
  = Some status →
  (400 ≤ status ≤ 600)%Z →
  render_errors [operation_result_data] = Some content →
  content ≠ "" →
  render (data ++ operation_result_data :: rest) = Renderer.Bytes content.
Proof.
  intros Hall Hint [Hlow Hhigh] Herrors Hcontent. unfold Renderer.render.
  rewrite (render_from_rendered _ _ _ _ Hall). cbn [Renderer.render_from].
  unfold Renderer.check_error. rewrite Hint.
  destruct (Z.leb_spec 400 status); [|lia].
  destruct (Z.leb_spec status 600); [|lia].
  cbn [andb]. rewrite Herrors. cbn [Renderer.has_content default].
  by destruct (String.eqb_spec content "").
Qed.

(** When no element gives an error to return, the response is the object
    with the one member [atomic:results], whose array holds the renderings
    of the elements, in their order, with a comma between them. *)
Theorem results_are_joined_in_the_order_of_the_data data contents :
  Forall2 rendered_as data contents →
  render data
  = Renderer.Bytes
      ("{" +:+ Renderer.quote +:+ ATOMIC_RESULTS +:+ Renderer.quote +:+ ":"
       +:+ ("[" +:+ String.concat "," contents +:+ "]") +:+ "}").
Proof.
  intros Hall. unfold Renderer.render.
  rewrite <- (app_nil_r data), (render_from_rendered _ _ _ _ Hall).
  cbn [Renderer.render_from app]. reflexivity.
Qed.

(** An element whose own rendering raises ends [render] with this exception,
    when the elements before it were rendered and the check of its status
    gives nothing to return: the elements after it are not looked at. *)
Theorem failed_rendering_leaves_render
    data contents operation_result_data rest e :
  Forall2 rendered_as data contents →
  Renderer.has_content (check_error operation_result_data) = false →
  render_primary_data operation_result_data = Renderer.Raises e →
  render (data ++ operation_result_data :: rest) = Renderer.Raises e.
Proof.
  intros Hall Hpass Hraises. unfold Renderer.render.
  rewrite (render_from_rendered _ _ _ _ Hall). cbn [Renderer.render_from].
  by rewrite Hpass, Hraises.
Qed.

End RendererProperties.

(** * Properties of the view *)

#[local] Arguments String.eqb : simpl never.

Lemma json_nested_ind (P : json → Prop) :
  P JNull → (∀ b, P (JBool b)) → (∀ n, P (JNum n)) → (∀ s, P (JStr s)) →
  (∀ l, Forall P l → P (JList l)) →
  (∀ d, Forall (λ kv : string * json, P kv.2) d → P (JDict d)) →
  ∀ v, P v.
Proof.
  intros HN HB HZ HS HL HD. fix IH 1.
  intros [| | | |l|d]; [exact HN|apply HB|apply HZ|apply HS| |].
  - apply HL. induction l as [|x l IHl]; constructor; [apply IH|exact IHl].
  - apply HD. induction d as [|[k v] d IHd]; constructor; [apply IH|exact IHd].
Qed.

(** Induction along the walk of [substitute_lids]: from the members of a
    dictionary, and the elements of those that are lists, to the
    dictionary. *)
Lemma json_walk_ind (Q : json → Prop) :
  (∀ v, Py.is_dict v = false → Q v) →
  (∀ d, Forall (λ kv : string * json,
                  Q kv.2 ∧ ∀ l, kv.2 = JList l → Forall Q l) d →
        Q (JDict d)) →
  ∀ v, Q v.
Proof.
  intros Hother Hdict v.
  enough (Q v ∧ ∀ l, v = JList l → Forall Q l) by tauto.
  induction v as [| | | |l IH|d IH] using json_nested_ind;
    try (split; [by apply Hother|discriminate]).
  - split; [by apply Hother|]. intros ? [= <-].
    eapply Forall_impl; [exact IH|]. cbn. tauto.
  - split; [|discriminate]. apply Hdict. exact IH.
Qed.

Lemma hash_key_raises v e :
  Py.hash_key v = Raise e → e = TypeError "unhashable type".
Proof. destruct v; cbn; congruence. Qed.

(** ** What the walk does with the entries of the registry *)
Section OutcomeProperties.

Variable registered : Py.key → Py.key → option json.
Variable idx : nat.

Local Abbreviation walk := (λ value, Outcome.substitute_lids registered value idx true).

Lemma visit_elements_not_ok (f : json → result json) l x :
  x ∈ l → is_ok (f x) = false → is_ok (Outcome.visit_elements f l) = false.
Proof.
  induction l as [|y l IH]; [by intros ?%elem_of_nil|].
  intros [<-|Hin]%elem_of_cons Hx; cbn.
  - by destruct (f x).
  - destruct (f y); [|done]. cbn.
    specialize (IH Hin Hx). by destruct (Outcome.visit_elements f l).
Qed.

Lemma visit_items_not_ok (f : json → result json) its pending k v :
  (k, v) ∈ its → k ≠ "id" → is_ok (Outcome.visit_value f v) = false →
  is_ok (Outcome.visit_items f its pending) = false.
Proof.
  revert pending. induction its as [|[k' v'] its IH]; intros pending;
    [by intros ?%elem_of_nil|].
  assert (Hrest : ∀ pending', (k, v) ∈ its → k ≠ "id" →
            is_ok (Outcome.visit_value f v) = false →
            is_ok (rest' ← Outcome.visit_items f its pending';
                   Ok ((k', v') :: rest')) = false).
  { intros pending' Hin Hk Hv. specialize (IH pending' Hin Hk Hv).
    by destruct (Outcome.visit_items f its pending'). }
  intros [[= <- <-]|Hin]%elem_of_cons Hk Hv; cbn.
  - destruct pending as [id|].
    + rewrite (proj2 (String.eqb_neq k "id")) by done.
      by destruct (Outcome.visit_value f v).
    + by destruct (Outcome.visit_value f v).
  - destruct pending as [id|].
    + destruct (String.eqb k' "id").
      * specialize (IH None Hin Hk Hv).
        by destruct (Outcome.visit_items f its None).
      * destruct (Outcome.visit_value f v'); [|done]. cbn.
        specialize (IH (Some id) Hin Hk Hv).
        by destruct (Outcome.visit_items f its (Some id)).
    + destruct (Outcome.visit_value f v'); [|done]. cbn.
      specialize (IH None Hin Hk Hv).
      by destruct (Outcome.visit_items f its None).
Qed.

(** The walk does not return once it has visited a dictionary on which the
    resolution raises. *)
Lemma visited_not_ok data flag o :
  visited data flag o →
  is_ok (Outcome.resolve_lid registered o idx true) = false →
  is_ok (Outcome.substitute_lids registered data idx flag) = false.
Proof.
  induction 1 as [d|d flag k d' o Hin Hk _ IH|d flag k l d' o Hin Hk Hel _ IH];
    intros Ho; cbn [Outcome.substitute_lids].
  - by destruct (Outcome.resolve_lid registered d idx true).
  - destruct (Outcome.resolve_lid registered d idx flag) as [pending|]; [|done].
    cbn. pose proof (visit_items_not_ok walk d pending k (JDict d') Hin Hk (IH Ho)).
    by destruct (Outcome.visit_items _ d pending).
  - destruct (Outcome.resolve_lid registered d idx flag) as [pending|]; [|done].
    cbn.
    assert (is_ok (Outcome.visit_value walk (JList l)) = false) as Hl.
    { cbn. pose proof (visit_elements_not_ok walk l (JDict d') Hel (IH Ho)).
      by destruct (Outcome.visit_elements _ l). }
    pose proof (visit_items_not_ok walk d pending k (JList l) Hin Hk Hl).
    by destruct (Outcome.visit_items _ d pending).
Qed.

Lemma visit_elements_raises (f : json → result json) l e :
  Outcome.visit_elements f l = Raise e → ∃ x, x ∈ l ∧ f x = Raise e.
Proof.
  induction l as [|y l IH]; cbn; [discriminate|].
  destruct (f y) eqn:Hy; cbn.
  - destruct (Outcome.visit_elements f l); cbn; [discriminate|].
    intros [= <-]. destruct (IH eq_refl) as (x & Hin & Hx).
    exists x. split; [by apply elem_of_cons; right|done].
  - intros [= <-]. exists y. split; [by apply elem_of_cons; left|done].
Qed.

Lemma visit_items_raises (f : json → result json) its pending e :
  Outcome.visit_items f its pending = Raise e →
  ∃ k v, (k, v) ∈ its ∧ Outcome.visit_value f v = Raise e.
Proof.
  revert pending. induction its as [|[k v] its IH]; intros pending; cbn.
  { by destruct pending. }
  assert (Hrest : ∀ pending' (x : string * json),
            (rest' ← Outcome.visit_items f its pending'; Ok (x :: rest'))
            = Raise e →
            ∃ k0 v0, (k0, v0) ∈ (k, v) :: its
                     ∧ Outcome.visit_value f v0 = Raise e).
  { intros pending' x.
    destruct (Outcome.visit_items f its pending') eqn:Hits; cbn; [discriminate|].
    intros [= <-]. destruct (IH _ Hits) as (k0 & v0 & Hin & Hv0).
    exists k0, v0. split; [by apply elem_of_cons; right|done]. }
  assert (Hstep : ∀ pending',
            (value' ← Outcome.visit_value f v;
             rest' ← Outcome.visit_items f its pending';
             Ok ((k, value') :: rest')) = Raise e →
            ∃ k0 v0, (k0, v0) ∈ (k, v) :: its
                     ∧ Outcome.visit_value f v0 = Raise e).
  { intros pending'. destruct (Outcome.visit_value f v) eqn:Hv; cbn.
    - apply Hrest.
    - intros [= <-]. exists k, v. split; [by apply elem_of_cons; left|done]. }
  destruct pending as [id|]; [|apply Hstep].
  destruct (String.eqb k "id"); [apply Hrest|apply Hstep].
Qed.

(** What the walk can raise: `unknown-lid`; Python's [TypeError] for a
    [type] or a [lid] that cannot be a key; and the end of this development
    at an identifier that is a list or a dictionary. *)
Lemma outcome_raises data flag e :
  Outcome.substitute_lids registered data idx flag = Raise e →
  (∃ lid, e = View.unknown_lid lid idx)
  ∨ (e = TypeError "unhashable type" ∧ well_keyed data = false)
  ∨ (e = OutOfModel "identifier that is a list or a dictionary"
     ∧ ∃ t l id, registered t l = Some id ∧ scalar id = false).
Proof.
  revert flag e. induction data as [v Hv|d IH] using json_walk_ind;
    intros flag e; [by destruct v|].
  cbn [Outcome.substitute_lids well_keyed].
  destruct (Outcome.resolve_lid registered d idx flag) as [pending|e0] eqn:Hres;
    cbn [mbind result_bind].
  - destruct (Outcome.visit_items _ d pending) as [members|e1] eqn:Hits;
      cbn [mbind result_bind]; [discriminate|]. intros [= ->].
    apply visit_items_raises in Hits as (k & v & Hin & Hv).
    apply list_elem_of_In in Hin as Hin'.
    rewrite Forall_forall in IH. destruct (IH (k, v) Hin) as [IHv IHl].
    assert (Hdeep : well_keyed v = false →
              forallb (λ kv : string * json, well_keyed kv.2) d = false).
    { intros Hwk. apply not_true_is_false. intros Hall.
      rewrite forallb_forall in Hall. specialize (Hall (k, v) Hin'). cbn in Hall.
      congruence. }
    destruct v as [| | | |l|d']; try discriminate.
    + cbn in Hv. destruct (Outcome.visit_elements _ l) eqn:Hl; [discriminate|].
      injection Hv as ->. apply visit_elements_raises in Hl as (x & Hx & Hraise).
      specialize (IHl l eq_refl). rewrite Forall_forall in IHl.
      apply list_elem_of_In in Hx as Hx'.
      pose proof (IHl x Hx true e Hraise) as Hclass.
      destruct Hclass as [?|[[-> Hwk]|?]]; [by left| |by right; right].
      right; left. split; [done|].
      assert (well_keyed (JList l) = false) as Hwl.
      { cbn. apply not_true_is_false. intros Hall.
        rewrite forallb_forall in Hall. specialize (Hall x Hx'). congruence. }
      rewrite (Hdeep Hwl). apply andb_false_r.
    + cbn in Hv. destruct (IHv true e Hv) as [?|[[-> Hwk]|?]];
        [by left| |by right; right].
      right; left. split; [done|]. rewrite (Hdeep Hwk). apply andb_false_r.
  - intros [= ->]. unfold Outcome.resolve_lid in Hres. unfold hashable.
    destruct (Py.truthy (default JNull (Py.lookup "lid" d))); [|discriminate].
    destruct (Py.lookup "type" d) as [type|]; cbn [default from_option id].
    + destruct (Py.hash_key type) as [t|e1] eqn:Ht; cbn [mbind result_bind] in Hres.
      * destruct (Py.hash_key (default JNull (Py.lookup "lid" d)))
          as [l|e1] eqn:Hl; cbn [mbind result_bind] in Hres.
        -- destruct (registered t l) as [id|] eqn:Hreg.
           ++ destruct (Py.is_dict id || Py.is_list id) eqn:Hid; [|discriminate].
              injection Hres as <-. right; right. split; [done|].
              exists t, l, id. split; [done|]. unfold scalar. by rewrite Hid.
           ++ destruct flag; [|discriminate]. injection Hres as <-. left. eauto.
        -- injection Hres as <-. right; left.
           split; [by rewrite (hash_key_raises _ _ Hl)|]. by cbn.
      * injection Hres as <-. right; left.
        split; [by rewrite (hash_key_raises _ _ Ht)|]. by cbn.
    + destruct flag; [|discriminate]. injection Hres as <-. left. eauto.
Qed.

Lemma visit_elements_elem (f : json → result json) l l' x' :
  Outcome.visit_elements f l = Ok l' → x' ∈ l' → ∃ x, x ∈ l ∧ f x = Ok x'.
Proof.
  revert l'. induction l as [|y l IH]; intros l'; cbn.
  { intros [= <-] ?%elem_of_nil. done. }
  destruct (f y) as [y'|] eqn:Hy; cbn; [|discriminate].
  destruct (Outcome.visit_elements f l) as [r|]; cbn; [|discriminate].
  intros [= <-] [->|Hin]%elem_of_cons.
  - exists y. split; [by apply elem_of_cons; left|done].
  - destruct (IH r eq_refl Hin) as (x & Hx & Hfx).
    exists x. split; [by apply elem_of_cons; right|done].
Qed.

Lemma visit_items_elem (f : json → result json) its pending out k v' :
  Outcome.visit_items f its pending = Ok out → (k, v') ∈ out → k ≠ "id" →
  ∃ v, (k, v) ∈ its ∧ Outcome.visit_value f v = Ok v'.
Proof.
  revert pending out. induction its as [|[k0 v0] its IH]; intros pending out; cbn.
  { destruct pending; intros [= <-].
    - intros [[= -> ->]|?%elem_of_nil]%elem_of_cons; done.
    - by intros ?%elem_of_nil. }
  assert (Hstep : ∀ pending',
            (value' ← Outcome.visit_value f v0;
             rest' ← Outcome.visit_items f its pending';
             Ok ((k0, value') :: rest')) = Ok out →
            (k, v') ∈ out → k ≠ "id" →
            ∃ v, (k, v) ∈ (k0, v0) :: its ∧ Outcome.visit_value f v = Ok v').
  { intros pending'. destruct (Outcome.visit_value f v0) as [value'|] eqn:Hv0;
      cbn; [|discriminate].
    destruct (Outcome.visit_items f its pending') as [rest'|] eqn:Hits;
      cbn; [|discriminate].
    intros [= <-] [[= -> ->]|Hin]%elem_of_cons Hk.
    - exists v0. split; [by apply elem_of_cons; left|done].
    - destruct (IH _ _ Hits Hin Hk) as (v & Hv & Hfv).
      exists v. split; [by apply elem_of_cons; right|done]. }
  destruct pending as [id|]; [|apply Hstep].
  destruct (String.eqb k0 "id") eqn:Hk0; [|apply Hstep].
  destruct (Outcome.visit_items f its None) as [rest'|] eqn:Hits;
    cbn; [|discriminate].
  intros [= <-] [[= -> ->]|Hin]%elem_of_cons Hk.
  - apply String.eqb_eq in Hk0. done.
  - destruct (IH _ _ Hits Hin Hk) as (v & Hv & Hfv).
    exists v. split; [by apply elem_of_cons; right|done].
Qed.

Lemma visit_items_id (f : json → result json) its id out :
  Outcome.visit_items f its (Some id) = Ok out → Py.lookup "id" out = Some id.
Proof.
  revert out. induction its as [|[k v] its IH]; intros out; cbn.
  { by intros [= <-]. }
  destruct (String.eqb k "id") eqn:Hk.
  - destruct (Outcome.visit_items f its None); cbn; [|discriminate].
    intros [= <-]. cbn. by rewrite Hk.
  - destruct (Outcome.visit_value f v); cbn; [|discriminate].
    destruct (Outcome.visit_items f its (Some id)) eqn:Hits; cbn; [|discriminate].
    intros [= <-]. cbn. rewrite Hk. by apply IH.
Qed.

Lemma visit_items_lookup (f : json → result json) its pending out k :
  Outcome.visit_items f its pending = Ok out → k ≠ "id" →
  match Py.lookup k its with
  | None => Py.lookup k out = None
  | Some v => ∃ v', Outcome.visit_value f v = Ok v' ∧ Py.lookup k out = Some v'
  end.
Proof.
  intros Hout Hk. revert pending out Hout.
  induction its as [|[k0 v0] its IH]; intros pending out; cbn.
  { destruct pending; intros [= <-]; cbn; [|done].
    by rewrite (proj2 (String.eqb_neq "id" k)). }
  assert (Hstep : ∀ pending',
            (value' ← Outcome.visit_value f v0;
             rest' ← Outcome.visit_items f its pending';
             Ok ((k0, value') :: rest')) = Ok out →
            match (if String.eqb k0 k then Some v0 else Py.lookup k its) with
            | None => Py.lookup k out = None
            | Some v =>
                ∃ v', Outcome.visit_value f v = Ok v' ∧ Py.lookup k out = Some v'
            end).
  { intros pending'. destruct (Outcome.visit_value f v0) as [value'|] eqn:Hv0;
      cbn; [|discriminate].
    destruct (Outcome.visit_items f its pending') as [rest'|] eqn:Hits;
      cbn; [|discriminate].
    intros [= <-]. cbn. destruct (String.eqb k0 k); [eauto|].
    by apply (IH pending'). }
  destruct pending as [id|]; [|apply Hstep].
  destruct (String.eqb k0 "id") eqn:Hk0; [|apply Hstep].
  destruct (Outcome.visit_items f its None) as [rest'|] eqn:Hits;
    cbn; [|discriminate].
  intros [= <-]. cbn. apply String.eqb_eq in Hk0 as ->.
  rewrite (proj2 (String.eqb_neq "id" k)) by done. by apply (IH None).
Qed.

Lemma walk_dict data flag d' :
  Outcome.substitute_lids registered data idx flag = Ok (JDict d') →
  ∃ d, data = JDict d.
Proof. destruct data; cbn; try discriminate. eauto. Qed.

Lemma walk_keeps_kind data flag data' :
  Outcome.substitute_lids registered data idx flag = Ok data' →
  Py.is_dict data' = Py.is_dict data ∧ Py.is_list data' = Py.is_list data.
Proof.
  destruct data; cbn; try (by intros [= <-]).
  destruct (Outcome.resolve_lid _ _ _ _); cbn; [|discriminate].
  destruct (Outcome.visit_items _ _ _); cbn; [|discriminate]. by intros [= <-].
Qed.

Lemma visit_value_hashable value value' :
  Outcome.visit_value walk value = Ok value' →
  hashable value' = true → value = value'.
Proof.
  destruct value; cbn [Outcome.visit_value]; try (by intros [= <-]).
  - destruct (Outcome.visit_elements _ _); cbn; [|discriminate]. by intros [= <-].
  - intros Hwalk Hhash. apply walk_keeps_kind in Hwalk as [Hdict _].
    by destruct value'.
Qed.

Lemma visit_items_lookup_scalar its pending out k v :
  Outcome.visit_items walk its pending = Ok out → k ≠ "id" →
  Py.lookup k its = Some v → hashable v = true → Py.lookup k out = Some v.
Proof.
  intros Hout Hk Hlookup Hv.
  pose proof (visit_items_lookup walk its pending out k Hout Hk) as H.
  rewrite Hlookup in H. destruct H as (v' & Hvisit & ->).
  by destruct v; cbn in Hvisit; try discriminate; injection Hvisit as <-.
Qed.

(** The references of the dictionary that comes out of the walk are those of
    the one that went in. *)
Lemma visit_items_reference its pending out :
  Outcome.visit_items walk its pending = Ok out →
  ∀ tl, reference out = Some tl → reference its = Some tl.
Proof.
  intros Hout tl. unfold reference.
  pose proof (visit_items_lookup walk its pending out "type" Hout ltac:(done))
    as Htype.
  pose proof (visit_items_lookup walk its pending out "lid" Hout ltac:(done))
    as Hlid.
  destruct (Py.lookup "type" out) as [type|]; [|discriminate].
  destruct (Py.lookup "lid" out) as [lid|]; [|discriminate].
  destruct (Py.truthy lid) eqn:Htruthy; [|discriminate].
  destruct (Py.hash_key type) as [t|] eqn:Ht; [|discriminate].
  destruct (Py.hash_key lid) as [l|] eqn:Hl; [|discriminate].
  intros [= <-].
  destruct (Py.lookup "type" its) as [type0|]; [|discriminate].
  destruct (Py.lookup "lid" its) as [lid0|]; [|discriminate].
  destruct Htype as (? & Htype & [= ->]). destruct Hlid as (? & Hlid & [= ->]).
  apply visit_value_hashable in Htype as ->; [|unfold hashable; by rewrite Ht].
  apply visit_value_hashable in Hlid as ->; [|unfold hashable; by rewrite Hl].
  by rewrite Htruthy, Ht, Hl.
Qed.

Lemma resolve_lid_registered d flag t l id pending :
  reference d = Some (t, l) → registered t l = Some id →
  Outcome.resolve_lid registered d idx flag = Ok pending → pending = Some id.
Proof.
  unfold reference, Outcome.resolve_lid. intros Href Hreg.
  destruct (Py.lookup "type" d) as [type|]; [|discriminate].
  destruct (Py.lookup "lid" d) as [lid|]; [|discriminate]. cbn.
  destruct (Py.truthy lid); [|discriminate].
  destruct (Py.hash_key type); [|discriminate].
  destruct (Py.hash_key lid); [|discriminate]. injection Href as -> ->. cbn.
  rewrite Hreg. destruct (Py.is_dict id || Py.is_list id); [discriminate|].
  by intros [= <-].
Qed.

Lemma resolve_lid_resolves d flag t l id :
  reference d = Some (t, l) → registered t l = Some id → scalar id = true →
  Outcome.resolve_lid registered d idx flag = Ok (Some id).
Proof.
  unfold reference, Outcome.resolve_lid, scalar. intros Href Hreg Hid.
  destruct (Py.lookup "type" d) as [type|]; [|discriminate].
  destruct (Py.lookup "lid" d) as [lid|]; [|discriminate]. cbn.
  destruct (Py.truthy lid); [|discriminate].
  destruct (Py.hash_key type); [|discriminate].
  destruct (Py.hash_key lid); [|discriminate]. injection Href as -> ->. cbn.
  rewrite Hreg. by destruct (Py.is_dict id || Py.is_list id).
Qed.

Lemma resolve_lid_unregistered d t l :
  reference d = Some (t, l) → registered t l = None →
  Outcome.resolve_lid registered d idx true
  = Raise (View.unknown_lid (default JNull (Py.lookup "lid" d)) idx).
Proof.
  unfold reference, Outcome.resolve_lid. intros Href Hreg.
  destruct (Py.lookup "type" d) as [type|]; [|discriminate].
  destruct (Py.lookup "lid" d) as [lid|]; [|discriminate]. cbn.
  destruct (Py.truthy lid); [|discriminate].
  destruct (Py.hash_key type); [|discriminate].
  destruct (Py.hash_key lid); [|discriminate]. injection Href as -> ->. cbn.
  by rewrite Hreg.
Qed.

(** After a walk that returns, every dictionary that a walk would visit
    holds under [id] the identifier that the registry has for its [type]
    and [lid]. *)
Lemma outcome_resolved data flag data' :
  Outcome.substitute_lids registered data idx flag = Ok data' →
  ∀ o' t l id,
    visited data' true o' → reference o' = Some (t, l) →
    registered t l = Some id → Py.lookup "id" o' = Some id.
Proof.
  revert flag data'. induction data as [v Hv|d IH] using json_walk_ind;
    intros flag data'.
  { destruct v; try discriminate; intros [= <-] o' t0 l0 id0 Hvisited;
      inversion Hvisited. }
  cbn [Outcome.substitute_lids].
  destruct (Outcome.resolve_lid registered d idx flag) as [pending|] eqn:Hres;
    cbn [mbind result_bind]; [|discriminate].
  destruct (Outcome.visit_items walk d pending) as [members|] eqn:Hits;
    cbn [mbind result_bind]; [|discriminate].
  intros [= <-] o' t l id Hvisited Href Hreg. rewrite Forall_forall in IH.
  inversion Hvisited as [?|? ? k d' ? Hin Hk Hsub|? ? k els d' ? Hin Hk Hel Hsub];
    subst.
  - apply (visit_items_reference _ _ _ Hits) in Href.
    rewrite (resolve_lid_registered _ _ _ _ _ _ Href Hreg Hres) in Hits.
    by apply visit_items_id in Hits.
  - destruct (visit_items_elem _ _ _ _ _ _ Hits Hin Hk) as (v & Hv & Hwalk).
    destruct (IH (k, v) Hv) as [IHv _].
    assert (∃ d0, v = JDict d0) as [d0 ->].
    { destruct v; cbn [Outcome.visit_value] in Hwalk; try discriminate; [|eauto].
      by destruct (Outcome.visit_elements _ _). }
    by apply (IHv true (JDict d') Hwalk o' t l id).
  - destruct (visit_items_elem _ _ _ _ _ _ Hits Hin Hk) as (v & Hv & Hwalk).
    destruct (IH (k, v) Hv) as [_ IHl].
    assert (∃ l0, v = JList l0 ∧ Outcome.visit_elements walk l0 = Ok els)
      as (l0 & -> & Hl0).
    { destruct v; cbn [Outcome.visit_value] in Hwalk; try discriminate.
      - destruct (Outcome.visit_elements _ _) eqn:?; cbn in Hwalk; [|discriminate].
        injection Hwalk as <-. eauto.
      - apply walk_keeps_kind in Hwalk as [Hkind _]. discriminate. }
    destruct (visit_elements_elem _ _ _ _ Hl0 Hel) as (x & Hx & Hwalkx).
    specialize (IHl l0 eq_refl). rewrite Forall_forall in IHl.
    by apply (IHl x Hx true (JDict d') Hwalkx o' t l id).
Qed.

End OutcomeProperties.

(** ** The shape of what the walk returns *)

(** No dictionary in [v] has a [lid] that Python takes for true. *)
Fixpoint lid_free (v : json) : bool :=
  match v with
  | JDict d =>
      negb (Py.truthy (default JNull (Py.lookup "lid" d)))
      && forallb (λ kv : string * json, lid_free kv.2) d
  | JList l => forallb lid_free l
  | _ => true
  end.

Lemma visit_elements_same (f : json → result json) l :
  Forall (λ x, f x = Ok x) l → Outcome.visit_elements f l = Ok l.
Proof. induction 1 as [|x l Hx _ IH]; cbn; [done|]. by rewrite Hx, IH. Qed.

Lemma visit_items_same (f : json → result json) its :
  Forall (λ kv : string * json, Outcome.visit_value f kv.2 = Ok kv.2) its →
  Outcome.visit_items f its None = Ok its.
Proof.
  induction 1 as [|[k v] its Hv _ IH]; cbn; [done|]. cbn in Hv.
  by rewrite Hv, IH.
Qed.

Lemma outcome_lid_free registered idx data flag :
  lid_free data = true →
  Outcome.substitute_lids registered data idx flag = Ok data.
Proof.
  revert flag. induction data as [v Hv|d IH] using json_walk_ind; intros flag.
  { by destruct v. }
  cbn [lid_free Outcome.substitute_lids]. intros [Hlid Hd]%andb_true_iff.
  unfold Outcome.resolve_lid. apply negb_true_iff in Hlid. rewrite Hlid.
  cbn [mbind result_bind]. rewrite visit_items_same; [done|].
  rewrite forallb_forall in Hd. rewrite Forall_forall in IH |- *.
  intros [k v] Hin. cbn [snd].
  specialize (IH (k, v) Hin) as [Hv Hl]. cbn [snd] in Hv, Hl.
  specialize (Hd (k, v) (proj1 (list_elem_of_In _ _) Hin)). cbn [snd] in Hd.
  destruct v as [| | | |l|d']; try done.
  - cbn [Outcome.visit_value]. rewrite visit_elements_same; [done|].
    specialize (Hl l eq_refl). cbn [lid_free] in Hd.
    rewrite forallb_forall in Hd. rewrite Forall_forall in Hl |- *.
    intros x Hx. apply Hl; [done|]. by apply Hd, list_elem_of_In.
  - cbn [Outcome.visit_value]. by apply Hv.
Qed.

Lemma visit_items_keys (f : json → result json) its pending out :
  Outcome.visit_items f its pending = Ok out →
  map fst out
  = (map fst its
     ++ match pending, Py.lookup "id" its with
        | Some _, None => ["id"]
        | _, _ => []
        end)%list.
Proof.
  revert pending out. induction its as [|[k v] its IH]; intros pending out; cbn.
  { destruct pending; by intros [= <-]. }
  destruct pending as [id|].
  - destruct (String.eqb_spec k "id") as [->|Hk].
    + destruct (Outcome.visit_items f its None) as [rest|] eqn:Hrest; cbn;
        [|discriminate].
      intros [= <-]. cbn. f_equal. rewrite (IH _ _ Hrest).
      by destruct (Py.lookup "id" its).
    + destruct (Outcome.visit_value f v); cbn; [|discriminate].
      destruct (Outcome.visit_items f its (Some id)) as [rest|] eqn:Hrest; cbn;
        [|discriminate].
      intros [= <-]. cbn. f_equal. by rewrite (IH _ _ Hrest).
  - destruct (Outcome.visit_value f v); cbn; [|discriminate].
    destruct (Outcome.visit_items f its None) as [rest|] eqn:Hrest; cbn;
      [|discriminate].
    intros [= <-]. cbn. f_equal. rewrite (IH _ _ Hrest).
    by destruct (String.eqb k "id"), (Py.lookup "id" its).
Qed.

Section ViewProperties.

Context {Store Instance Validated : Type}.

Local Abbreviation M := (View.M Store).
Local Abbreviation world := (View.world Store).

(** What a method leaves of the world it started in. *)
Definition keeps {A} (R : world → world → Prop) (m : M A) : Prop :=
  ∀ w, R w (m w).2.

Lemma keeps_ret {A} R `{!Reflexive R} (a : A) : keeps R (mret a : M A).
Proof. intros w. cbn. reflexivity. Qed.

Lemma keeps_lift {A} R `{!Reflexive R} (r : result A) : keeps R (View.lift r).
Proof. intros w. cbn. reflexivity. Qed.

Lemma keeps_bind {A B} R `{!Transitive R} (m : M A) (f : A → M B) :
  keeps R m → (∀ a, keeps R (f a)) → keeps R (m ≫= f).
Proof.
  intros Hm Hf w. unfold mbind, View.M_bind.
  specialize (Hm w). destruct (m w) as [[a|e] w1]; cbn in *; [|done].
  etransitivity; [exact Hm|apply Hf].
Qed.

(** The same database, the same response so far, and the same identifier
    under every pair of a type and a lid. *)
Definition same_entries (w w' : world) : Prop :=
  View.db w' = View.db w
  ∧ View.response_data w' = View.response_data w
  ∧ ∀ t l, View.registered (View.lid_to_id w') t l
           = View.registered (View.lid_to_id w) t l.

#[local] Instance same_entries_preorder : PreOrder same_entries.
Proof.
  split.
  - intros w. by repeat split.
  - intros w1 w2 w3 (Hd1 & Hr1 & Hl1) (Hd2 & Hr2 & Hl2). repeat split.
    + by rewrite Hd2.
    + by rewrite Hr2.
    + intros t l. by rewrite Hl2.
Qed.

(** Runs the operations of the monad in the goal. *)
Ltac run :=
  unfold mbind, mret, View.M_bind, View.M_ret, View.raise, View.lift,
    View.get_lid_to_id, View.put_lid_to_id, View.get_response_data,
    View.put_response_data, View.query, View.command;
  cbn [result_bind result_ret View.db View.lid_to_id View.response_data
       View.set_db View.set_lid_to_id View.set_response_data fst snd].

Lemma bind_run {A B} (m : M A) (f : A → M B) w :
  (m ≫= f) w
  = match m w with
    | (Ok a, w') => f a w'
    | (Raise e, w') => (Raise e, w')
    end.
Proof. reflexivity. Qed.

Lemma bind_returns {A B} (m : M A) (f : A → M B) w a w1 :
  m w = (Ok a, w1) → (m ≫= f) w = f a w1.
Proof. intros H. by rewrite bind_run, H. Qed.

Lemma bind_raises {A B} (m : M A) (f : A → M B) w e w1 :
  m w = (Raise e, w1) → (m ≫= f) w = (Raise e, w1).
Proof. intros H. by rewrite bind_run, H. Qed.

Lemma bind_ok {A B} (m : M A) (f : A → M B) w b w' :
  (m ≫= f) w = (Ok b, w') →
  ∃ a w1, m w = (Ok a, w1) ∧ f a w1 = (Ok b, w').
Proof. rewrite bind_run. destruct (m w) as [[a|e] w1]; [eauto|discriminate]. Qed.

Lemma bind_raise {A B} (m : M A) (f : A → M B) w e w' :
  (m ≫= f) w = (Raise e, w') →
  m w = (Raise e, w') ∨ ∃ a w1, m w = (Ok a, w1) ∧ f a w1 = (Raise e, w').
Proof.
  rewrite bind_run. destruct (m w) as [[a|e0] w1]; intros H.
  - right. exists a, w1. split; [reflexivity|exact H].
  - left. by injection H as <- <-.
Qed.

Lemma registered_blank (reg : View.registry) t t' l :
  reg !! t = None →
  View.registered (<[t := ∅]> reg) t' l = View.registered reg t' l.
Proof.
  intros Hnone. unfold View.registered.
  destruct (decide (t = t')) as [<-|Hne].
  - by rewrite lookup_insert_eq, Hnone.
  - by rewrite lookup_insert_ne.
Qed.

Lemma lid_to_id_getitem_spec resource_type (w : world) :
  match Py.hash_key resource_type with
  | Raise e => View.lid_to_id_getitem resource_type w = (Raise e, w)
  | Ok t =>
      ∃ w', View.lid_to_id_getitem resource_type w
            = (Ok (t, default ∅ (View.lid_to_id w !! t)), w')
            ∧ same_entries w w'
            ∧ View.lid_to_id w' !! t = Some (default ∅ (View.lid_to_id w !! t))
  end.
Proof.
  unfold View.lid_to_id_getitem.
  destruct (Py.hash_key resource_type) as [t|e]; [|reflexivity].
  run. destruct (View.lid_to_id w !! t) as [by_lid|] eqn:Ht; run.
  - exists w. by repeat split.
  - eexists. split; [reflexivity|]. split.
    + repeat split. intros t' l. run. by apply registered_blank.
    + run. by rewrite lookup_insert_eq.
Qed.

Lemma lid_to_id_lookup_spec resource_type lid (w : world) :
  match Py.hash_key resource_type, Py.hash_key lid with
  | Raise e, _ => View.lid_to_id_lookup resource_type lid w = (Raise e, w)
  | Ok t, Raise e =>
      ∃ w', View.lid_to_id_lookup resource_type lid w = (Raise e, w')
            ∧ same_entries w w'
  | Ok t, Ok l =>
      ∃ w', View.lid_to_id_lookup resource_type lid w
            = (match View.registered (View.lid_to_id w) t l with
               | Some id => Ok id
               | None => Raise (KeyError (Py.repr lid))
               end, w')
            ∧ same_entries w w'
  end.
Proof.
  unfold View.lid_to_id_lookup.
  pose proof (lid_to_id_getitem_spec resource_type w) as Hget.
  destruct (Py.hash_key resource_type) as [t|e].
  - destruct Hget as (w' & Hget & Hsame & _).
    run. rewrite Hget. run.
    destruct (Py.hash_key lid) as [l|e]; run.
    + exists w'. split; [|done]. unfold View.registered.
      destruct (View.lid_to_id w !! t) as [by_lid|]; cbn.
      * by destruct (by_lid !! l).
      * by rewrite lookup_empty.
    + by exists w'.
  - run. by rewrite Hget.
Qed.

Local Abbreviation entries w := (View.registered (View.lid_to_id w)).

Lemma resolve_lid_outcome d idx flag (w : world) :
  ∃ w', View.resolve_lid d idx flag w
        = (Outcome.resolve_lid (entries w) d idx flag, w')
        ∧ same_entries w w'.
Proof.
  unfold View.resolve_lid, Outcome.resolve_lid.
  destruct (Py.truthy (default JNull (Py.lookup "lid" d))); [|by exists w].
  unfold Py.getitem. destruct (Py.lookup "type" d) as [type|].
  - rewrite (bind_returns _ _ w type w) by reflexivity.
    pose proof (lid_to_id_lookup_spec type (default JNull (Py.lookup "lid" d)) w)
      as Hlookup.
    destruct (Py.hash_key type) as [t|e] eqn:Ht; cbn [mbind result_bind].
    + destruct (Py.hash_key (default JNull (Py.lookup "lid" d))) as [l|e] eqn:Hl;
        cbn [mbind result_bind]; destruct Hlookup as (w' & -> & Hsame).
      * exists w'. split; [|done].
        destruct (entries w t l) as [id|]; [|by destruct flag].
        by destruct (Py.is_dict id || Py.is_list id).
      * exists w'. split; [|done]. by rewrite (hash_key_raises _ _ Hl).
    + rewrite Hlookup. exists w. split; [|done].
      by rewrite (hash_key_raises _ _ Ht).
  - rewrite (bind_raises _ _ w (KeyError "type") w) by reflexivity.
    exists w. split; [|done]. by destruct flag.
Qed.

Lemma visit_elements_ext (f g : json → result json) l :
  Forall (λ v, f v = g v) l →
  Outcome.visit_elements f l = Outcome.visit_elements g l.
Proof. induction 1 as [|x l Hx _ IH]; cbn; [done|]. by rewrite Hx, IH. Qed.

Lemma visit_value_ext (f g : json → result json) v :
  f v = g v →
  (∀ l, v = JList l → Forall (λ x, f x = g x) l) →
  Outcome.visit_value f v = Outcome.visit_value g v.
Proof.
  intros Hv Hl. destruct v; cbn; try done.
  by rewrite (visit_elements_ext f g l) by by apply Hl.
Qed.

Lemma visit_items_ext (f g : json → result json) its :
  Forall (λ kv : string * json,
            f kv.2 = g kv.2
            ∧ ∀ l, kv.2 = JList l → Forall (λ x, f x = g x) l) its →
  ∀ pending, Outcome.visit_items f its pending = Outcome.visit_items g its pending.
Proof.
  induction 1 as [|[k v] its [Hv Hl] _ IH]; intros pending; cbn; [done|].
  rewrite (visit_value_ext f g v Hv Hl), !IH. done.
Qed.

Lemma outcome_ext (f g : Py.key → Py.key → option json) :
  (∀ t l, f t l = g t l) →
  ∀ data idx flag,
    Outcome.substitute_lids f data idx flag = Outcome.substitute_lids g data idx flag.
Proof.
  intros Hfg data. induction data as [v Hv|d IH] using json_walk_ind;
    intros idx flag; [by destruct v|].
  cbn [Outcome.substitute_lids].
  assert (Outcome.resolve_lid f d idx flag = Outcome.resolve_lid g d idx flag)
    as ->.
  { unfold Outcome.resolve_lid.
    destruct (Py.truthy _); [|done].
    destruct (Py.lookup "type" d) as [type|]; [|done].
    destruct (Py.hash_key type); [|done]. cbn.
    destruct (Py.hash_key _); [|done]. cbn. by rewrite Hfg. }
  destruct (Outcome.resolve_lid g d idx flag) as [pending|]; [|done].
  cbn [mbind result_bind].
  rewrite (visit_items_ext
             (λ value, Outcome.substitute_lids f value idx true)
             (λ value, Outcome.substitute_lids g value idx true) d); [done|].
  eapply Forall_impl; [exact IH|]. intros [k v] [Hv Hl]. cbn in *.
  split; [apply Hv|]. intros l Heq. eapply Forall_impl; [exact (Hl l Heq)|].
  intros x Hx. apply Hx.
Qed.

(** [m] returns or raises what [p] says, and leaves the entries as they
    were. *)
Definition refines {A} (m : M A) (p : world → result A) : Prop :=
  ∀ w, ∃ w', m w = (p w, w') ∧ same_entries w w'.

Definition stable {A} (p : world → result A) : Prop :=
  ∀ w w', same_entries w w' → p w' = p w.

Lemma refines_bind {A B} (m : M A) p (f : A → M B) q :
  refines m p → (∀ a, refines (f a) (q a)) → (∀ a, stable (q a)) →
  refines (m ≫= f) (λ w, p w ≫= λ a, q a w).
Proof.
  intros Hm Hf Hq w. destruct (Hm w) as (w1 & Hmw & Hsame1).
  rewrite bind_run, Hmw. destruct (p w) as [a|e]; cbn [mbind result_bind].
  - destruct (Hf a w1) as (w2 & Hfw & Hsame2). exists w2.
    rewrite Hfw, (Hq a w w1 Hsame1). split; [done|]. by etransitivity.
  - by exists w1.
Qed.

Lemma refines_ret {A} (a : A) : refines (mret a) (λ _, Ok a).
Proof. intros w. by exists w. Qed.

Section WalkRefines.

Variable idx : nat.

Let visit (w : world) (value : json) : result json :=
  Outcome.substitute_lids (entries w) value idx true.

Lemma visit_stable w w' value : same_entries w w' → visit w' value = visit w value.
Proof. intros (_ & _ & Hsame). by apply outcome_ext. Qed.

Lemma visit_elements_stable l :
  stable (λ w, Outcome.visit_elements (visit w) l).
Proof.
  intros w w' Hsame. apply visit_elements_ext, Forall_forall.
  intros x _. by apply visit_stable.
Qed.

Lemma visit_value_stable value :
  stable (λ w, Outcome.visit_value (visit w) value).
Proof.
  intros w w' Hsame. apply visit_value_ext; [by apply visit_stable|].
  intros l _. apply Forall_forall. intros x _. by apply visit_stable.
Qed.

Lemma visit_items_stable its pending :
  stable (λ w, Outcome.visit_items (visit w) its pending).
Proof.
  intros w w' Hsame. apply visit_items_ext, Forall_forall. intros kv _.
  split; [by apply visit_stable|].
  intros l _. apply Forall_forall. intros x _. by apply visit_stable.
Qed.

Let Walked (value : json) : Prop :=
  refines (View.substitute_lids value idx true) (λ w, visit w value).

Lemma visit_elements_refines l :
  Forall Walked l →
  refines (View.visit_elements (λ value, View.substitute_lids value idx true) l)
    (λ w, Outcome.visit_elements (visit w) l).
Proof.
  induction 1 as [|x l Hx _ IH]; cbn [View.visit_elements Outcome.visit_elements].
  - apply refines_ret.
  - apply (refines_bind _ _ _ (λ x' w, r ← Outcome.visit_elements (visit w) l;
                                       Ok (x' :: r)) Hx).
    + intros x'. apply (refines_bind _ _ _ (λ r _, Ok (x' :: r)) IH).
      * intros r. apply refines_ret.
      * by intros r w w' _.
    + intros x' w w' Hsame. cbn beta. by rewrite (visit_elements_stable l w w').
Qed.

Lemma visit_value_refines value :
  Walked value → (∀ l, value = JList l → Forall Walked l) →
  refines (View.visit_value (λ value, View.substitute_lids value idx true) value)
    (λ w, Outcome.visit_value (visit w) value).
Proof.
  intros Hvalue Hl.
  destruct value as [| | | |l|d]; try apply refines_ret; [|exact Hvalue].
  cbn [View.visit_value Outcome.visit_value].
  apply (refines_bind _ _ _ (λ l' _, Ok (JList l'))
           (visit_elements_refines l (Hl l eq_refl))).
  - intros l'. apply refines_ret.
  - by intros l' w w' _.
Qed.

Lemma visit_items_refines its :
  Forall (λ kv : string * json,
            Walked kv.2 ∧ ∀ l, kv.2 = JList l → Forall Walked l) its →
  ∀ pending,
    refines (View.visit_items (λ value, View.substitute_lids value idx true)
               its pending)
      (λ w, Outcome.visit_items (visit w) its pending).
Proof.
  induction 1 as [|[k value] its [Hvalue Hl] _ IH]; intros pending;
    cbn [View.visit_items Outcome.visit_items].
  - apply refines_ret.
  - assert (Hstep : ∀ pending',
      refines
        (value' ← View.visit_value
                    (λ value, View.substitute_lids value idx true) value;
         rest' ← View.visit_items
                   (λ value, View.substitute_lids value idx true) its pending';
         mret ((k, value') :: rest'))
        (λ w, value' ← Outcome.visit_value (visit w) value;
              rest' ← Outcome.visit_items (visit w) its pending';
              Ok ((k, value') :: rest'))).
    { intros pending'.
      apply (refines_bind _ _ _
               (λ value' w, rest' ← Outcome.visit_items (visit w) its pending';
                            Ok ((k, value') :: rest'))
               (visit_value_refines value Hvalue Hl)).
      - intros value'.
        apply (refines_bind _ _ _ (λ rest' _, Ok ((k, value') :: rest'))
                 (IH pending')).
        + intros rest'. apply refines_ret.
        + by intros rest' w w' _.
      - intros value' w w' Hsame. cbn beta.
        by rewrite (visit_items_stable its pending' w w'). }
    destruct pending as [id|]; [|apply Hstep].
    destruct (String.eqb k "id"); [|apply Hstep].
    apply (refines_bind _ _ _ (λ rest' _, Ok ((k, id) :: rest')) (IH None)).
    + intros rest'. apply refines_ret.
    + by intros rest' w w' _.
Qed.

End WalkRefines.

(** The outcome of [substitute_lids] is [Outcome.substitute_lids] at the
    entries of the registry, and the walk leaves the database, the response
    and the entries as they were. *)
Lemma substitute_lids_outcome data idx flag :
  refines (View.substitute_lids data idx flag)
    (λ w, Outcome.substitute_lids (entries w) data idx flag).
Proof.
  revert idx flag. induction data as [v Hv|d IH] using json_walk_ind;
    intros idx flag.
  { destruct v; try discriminate; apply refines_ret. }
  cbn [View.substitute_lids Outcome.substitute_lids].
  apply (refines_bind _ _ _
           (λ id w, members ← Outcome.visit_items
                                 (λ value, Outcome.substitute_lids (entries w)
                                             value idx true) d id;
                    Ok (JDict members))
           (resolve_lid_outcome d idx flag)).
  - intros id.
    apply (refines_bind _ _ _ (λ members _, Ok (JDict members))).
    + apply visit_items_refines. eapply Forall_impl; [exact IH|].
      intros kv [Hv Hl]. split; [apply Hv|].
      intros l Heq. eapply Forall_impl; [exact (Hl l Heq)|]. intros x Hx. apply Hx.
    + intros members. apply refines_ret.
    + by intros members w w' _.
  - intros id w w' Hsame. cbn beta.
    by rewrite (visit_items_stable idx d id w w').
Qed.

Lemma perform_operation_stops_in_substitute_lids
    (self : View.Settings Store Instance Validated) idx operation next b
    (w : world) e w' :
  View.substitute_lids operation.2 idx
    (negb (String.eqb operation.1 OP_ADD)) w = (Raise e, w') →
  View.perform_operation self idx operation next b w = (Raise e, w').
Proof. intros H. unfold View.perform_operation. by apply bind_raises. Qed.


Lemma lid_to_id_setitem_spec resource_type lid id (w : world) :
  match Py.hash_key resource_type, Py.hash_key lid with
  | Ok t, Ok l =>
      ∃ w', View.lid_to_id_setitem resource_type lid id w = (Ok tt, w')
            ∧ View.db w' = View.db w
            ∧ View.response_data w' = View.response_data w
            ∧ entries w' t l = Some id
            ∧ ∀ t' l', (t', l') ≠ (t, l) → entries w' t' l' = entries w t' l'
  | _, _ =>
      ∃ e w', View.lid_to_id_setitem resource_type lid id w = (Raise e, w')
              ∧ same_entries w w'
  end.
Proof.
  unfold View.lid_to_id_setitem.
  pose proof (lid_to_id_getitem_spec resource_type w) as Hget.
  destruct (Py.hash_key resource_type) as [t|e].
  - destruct Hget as (w1 & Hget & (Hdb & Hresponse & Hsame) & Ht).
    rewrite (bind_returns _ _ _ _ _ Hget). cbn [fst snd].
    destruct (Py.hash_key lid) as [l|e]; run.
    + eexists. split; [reflexivity|]. run. repeat split; try done.
      * unfold View.registered. by rewrite !lookup_insert_eq; cbn;
          rewrite lookup_insert_eq.
      * intros t' l' Hne. rewrite <- Hsame. unfold View.registered.
        destruct (decide (t' = t)) as [->|Ht'].
        -- rewrite lookup_insert_eq, Ht. cbn.
           rewrite lookup_insert_ne; [done|]. congruence.
        -- by rewrite lookup_insert_ne.
    + by exists e, w1.
  - rewrite (bind_raises _ _ _ _ _ Hget). destruct (Py.hash_key lid); by exists e, w.
Qed.

(** ** The methods, one by one *)

Ltac unravel H :=
  repeat (cbn [fst snd] in H;
          match type of H with
          | context [let (_, _) := ?x in _] => destruct x eqn:?
          | context [match ?x with _ => _ end] => destruct x eqn:?
          end).

(** Decides the comparisons of two string literals in [H]. *)
Ltac compare_codes H :=
  repeat match type of H with
         | context [String.eqb ?a ?b] =>
             let v := eval vm_compute in (String.eqb a b) in
             match v with true => idtac | false => idtac end;
             change (String.eqb a b) with v in H
         end;
  cbn [orb andb negb] in H.

Lemma keeps_query {A} R `{!Reflexive R} (f : Store → result A) :
  keeps R (View.query f).
Proof. intros w. cbn. reflexivity. Qed.

Lemma keeps_raise {A} R `{!Reflexive R} e : keeps R (View.raise e : M A).
Proof. intros w. cbn. reflexivity. Qed.

Ltac frame :=
  repeat first
    [ apply keeps_ret; tc_solve | apply keeps_lift; tc_solve
    | apply keeps_query; tc_solve | apply keeps_raise; tc_solve
    | apply keeps_bind; [tc_solve| |intros ?]
    | match goal with
      | |- keeps _ (if ?b then _ else _) => destruct b
      | |- keeps _ (match ?x with _ => _ end) => destruct x
      end ].

Lemma get_serializer_world
    (self : View.Settings Store Instance Validated) idx operation_code
    resource_type href data partial :
  keeps eq (View.get_serializer self idx operation_code resource_type href data
              partial).
Proof. unfold View.get_serializer. frame. Qed.

Lemma get_serializer_data
    (self : View.Settings Store Instance Validated) idx operation_code
    resource_type href data partial (w : world) serializer w' :
  View.get_serializer self idx operation_code resource_type href data partial w
  = (Ok serializer, w') →
  View.initial_data serializer = data.
Proof.
  unfold View.get_serializer. intros H.
  apply bind_ok in H as (cls & w1 & _ & H).
  apply bind_ok in H as (found & w2 & _ & H).
  apply bind_ok in H as ([] & w3 & _ & H).
  by injection H as <- _.
Qed.

Lemma code_cases operation_code :
  operation_code = OP_ADD ∨ operation_code = OP_UPDATE
  ∨ operation_code = OP_UPDATE_RELATIONSHIP ∨ operation_code = OP_REMOVE
  ∨ operation_code = OP_INVOKE
  ∨ (String.eqb operation_code OP_ADD = false
     ∧ String.eqb operation_code OP_UPDATE = false
     ∧ String.eqb operation_code OP_UPDATE_RELATIONSHIP = false
     ∧ String.eqb operation_code OP_REMOVE = false
     ∧ String.eqb operation_code OP_INVOKE = false).
Proof.
  destruct (String.eqb_spec operation_code OP_ADD); [by left|].
  destruct (String.eqb_spec operation_code OP_UPDATE); [by right; left|].
  destruct (String.eqb_spec operation_code OP_UPDATE_RELATIONSHIP);
    [by right; right; left|].
  destruct (String.eqb_spec operation_code OP_REMOVE);
    [by right; right; right; left|].
  destruct (String.eqb_spec operation_code OP_INVOKE);
    [by right; right; right; right; left|].
  by do 5 right.
Qed.

(** Splits on the operation code and decides the comparisons with it. *)
Ltac by_code code H :=
  destruct (code_cases code)
    as [->|[->|[->|[->|[->|(Hadd & Hupdate & Hrelationship & Hremove & Hinvoke)]]]]];
  [compare_codes H..|
   unfold has_entry in *; rewrite ?Hadd, ?Hupdate, ?Hrelationship, ?Hremove, ?Hinvoke in *;
   cbn [orb andb negb] in *].

(** Takes a run apart along the matches it goes through. *)
Ltac crunch :=
  repeat (cbn [fst snd] in *;
          match goal with
          | H : context [match ?x with _ => _ end] |- _ => destruct x eqn:?
          | H : (_, _) = (_, _) |- _ => apply pair_equal_spec in H as [? ?]
          end); simplify_eq.

Lemma setitem_response resource_type lid id (v v' : world) r' :
  View.lid_to_id_setitem resource_type lid id v = (r', v') →
  View.response_data v' = View.response_data v ∧ View.db v' = View.db v.
Proof.
  pose proof (lid_to_id_setitem_spec resource_type lid id v) as Hspec.
  destruct (Py.hash_key resource_type); [destruct (Py.hash_key lid)|].
  - destruct Hspec as (v1 & -> & Hdb & Hresponse & _). by intros [= _ <-].
  - destruct Hspec as (e1 & v1 & -> & Hdb & Hresponse & _). by intros [= _ <-].
  - destruct Hspec as (e1 & v1 & -> & Hdb & Hresponse & _). by intros [= _ <-].
Qed.

Ltac setitem_frame :=
  repeat match goal with
         | Hset : View.lid_to_id_setitem _ _ _ _ = _ |- _ =>
             apply setitem_response in Hset as [? ?]
         end;
  cbn in *;
  repeat match goal with
         | H : View.response_data _ = _ |- _ => rewrite H
         end.

Lemma handle_sequential_relationship
    (serializer : View.Serializer Store Instance Validated) (w w' : world) r :
  View.handle_sequential serializer OP_UPDATE_RELATIONSHIP w = (r, w') →
  View.response_data w' = View.response_data w.
Proof.
  unfold View.handle_sequential, View.run_is_valid, View.run_save,
    View.response_data_append. intros H. compare_codes H. revert H. run. intros H.
  crunch; by cbn.
Qed.

Lemma handle_sequential_entry
    (serializer : View.Serializer Store Instance Validated) operation_code
    (w w' : world) :
  View.handle_sequential serializer operation_code w = (Ok tt, w') →
  has_entry operation_code = true →
  ∃ entry, View.response_data w' = (View.response_data w ++ [entry])%list.
Proof.
  unfold View.handle_sequential, View.run_is_valid, View.run_save,
    View.run_delete, View.response_data_append. intros H Hentry.
  by_code operation_code H; try discriminate; revert H; run; intros H;
    crunch; setitem_frame; cbn in *; eauto; try congruence.
Qed.

Lemma handle_sequential_no_entry
    (serializer : View.Serializer Store Instance Validated) operation_code
    (w w' : world) r :
  View.handle_sequential serializer operation_code w = (r, w') →
  has_entry operation_code = false ∨ is_ok r = false →
  View.response_data w' = View.response_data w.
Proof.
  unfold View.handle_sequential, View.run_is_valid, View.run_save,
    View.run_delete, View.response_data_append. intros H Hentry.
  by_code operation_code H; destruct Hentry as [?|Hr]; try discriminate;
    revert H; run; intros H;
    crunch; setitem_frame; cbn in *; eauto; try congruence.
Qed.


(** The entry that a sequential [add] leaves in the registry: under the
    [type] and the [lid] of its data, the [id] of what the serializer
    returned. *)
Lemma handle_sequential_registers
    (serializer : View.Serializer Store Instance Validated) (w w' : world)
    type lid t l :
  View.handle_sequential serializer OP_ADD w = (Ok tt, w') →
  Py.get (View.initial_data serializer) "type" = Ok type →
  Py.get_default (View.initial_data serializer) "lid" JNull = Ok lid →
  Py.truthy lid = true →
  View.is_bulk_operation_type type = Ok false →
  Py.hash_key type = Ok t → Py.hash_key lid = Ok l →
  ∃ entry id,
    View.response_data w' = (View.response_data w ++ [entry])%list
    ∧ Py.getitem entry "id" = Ok id
    ∧ entries w' t l = Some id.
Proof.
  unfold View.handle_sequential, View.run_is_valid, View.run_save,
    View.response_data_append.
  intros H Htype Hlid Htruthy Hbulk Ht Hl. compare_codes H. revert H.
  rewrite Htype, Hlid. run. rewrite Hbulk. run. rewrite Htruthy. intros H.
  crunch.
  match goal with
  | Hset : View.lid_to_id_setitem type lid ?id ?v = _ |- _ =>
      pose proof (lid_to_id_setitem_spec type lid id v) as Hspec;
      rewrite Ht, Hl, Hset in Hspec;
      destruct Hspec as (v' & Heq & _ & Hresponse & Hentry & _)
  end.
  simplify_eq. cbn. rewrite Hresponse. cbn. eauto.
Qed.

(** Only a sequential [add] writes an entry, and only the one of its own
    [type] and [lid]. *)
Lemma handle_sequential_entries
    (serializer : View.Serializer Store Instance Validated) operation_code
    (w w' : world) r t l :
  View.handle_sequential serializer operation_code w = (r, w') →
  entries w' t l = entries w t l
  ∨ (operation_code = OP_ADD
     ∧ ∃ type lid,
         Py.get (View.initial_data serializer) "type" = Ok type
         ∧ Py.get_default (View.initial_data serializer) "lid" JNull = Ok lid
         ∧ Py.truthy lid = true
         ∧ Py.hash_key type = Ok t ∧ Py.hash_key lid = Ok l).
Proof.
  unfold View.handle_sequential, View.run_is_valid, View.run_save,
    View.run_delete, View.response_data_append. intros H.
  by_code operation_code H; revert H; run; intros H; crunch; cbn;
    try (by left).
  all: match goal with
       | Hset : View.lid_to_id_setitem ?type ?lid ?id ?v = _ |- _ =>
           pose proof (lid_to_id_setitem_spec type lid id v) as Hspec;
           rewrite Hset in Hspec
       end.
  all: destruct (Py.hash_key _) as [t0|] eqn:Ht0 in Hspec;
    [destruct (Py.hash_key _) as [l0|] eqn:Hl0 in Hspec|].
  all: try (destruct Hspec as (? & ? & Heq & _ & _ & Hsame); simplify_eq;
            by left).
  all: destruct Hspec as (v' & Heq & _ & _ & _ & Hothers); simplify_eq.
  all: destruct (decide ((t, l) = (t0, l0))) as [[= -> ->]|Hne];
    [right; split; [done|]; eauto 10|left; by apply Hothers].
Qed.

(** A turn of the loop of a sequential view: it stops before the
    serializer is used and leaves the world as it was, entries included, or
    it walks the payload, builds the serializer over it and hands it to
    [handle_sequential]. *)
Lemma perform_operation_sequential
    (self : View.Settings Store Instance Validated) idx operation next b
    (w w' : world) r :
  View.sequential self = true →
  View.perform_operation self idx operation next b w = (r, w') →
  (is_ok r = false ∧ same_entries w w')
  ∨ ∃ obj resource_type (serializer : View.Serializer Store Instance Validated)
      (w1 : world) r0,
      Outcome.substitute_lids (entries w) operation.2 idx
        (negb (String.eqb operation.1 OP_ADD)) = Ok obj
      ∧ same_entries w w1
      ∧ Py.getitem obj "type" = Ok resource_type
      ∧ (String.eqb operation.1 OP_INVOKE = false →
         View.initial_data serializer = obj)
      ∧ View.handle_sequential serializer operation.1 w1 = (r0, w')
      ∧ r = (r0 ;; Ok b).
Proof.
  intros Hseq. unfold View.perform_operation. rewrite Hseq.
  destruct (substitute_lids_outcome operation.2 idx
              (negb (String.eqb operation.1 OP_ADD)) w) as (w1 & Hwalk & Hsame).
  rewrite bind_run, Hwalk.
  destruct (Outcome.substitute_lids _ _ _ _) as [obj|e] eqn:Hout;
    [|intros [= <- <-]; by left].
  set (href := if String.eqb operation.1 OP_INVOKE then Py.get obj "href"
               else Ok JNull).
  rewrite bind_run. cbn [View.lift].
  destruct href as [href'|e]; [|intros [= <- <-]; by left].
  rewrite bind_run. cbn [View.lift].
  destruct (if String.eqb operation.1 OP_INVOKE then _ else Ok obj)
    as [serializer_data|e] eqn:Hdata; [|intros [= <- <-]; by left].
  rewrite bind_run. cbn [View.lift].
  destruct (Py.getitem obj "type") as [resource_type|e] eqn:Htype;
    [|intros [= <- <-]; by left].
  rewrite bind_run.
  pose proof (get_serializer_world self idx
                (if String.eqb operation.1 OP_UPDATE_RELATIONSHIP
                 then OP_UPDATE else operation.1)
                resource_type href' serializer_data
                (String.eqb operation.1 OP_UPDATE
                 || String.eqb operation.1 OP_UPDATE_RELATIONSHIP) w1) as Hworld.
  destruct (View.get_serializer _ _ _ _ _ _ _ w1) as [[serializer|e] w2] eqn:Hget;
    cbn in Hworld; subst w2; [|intros [= <- <-]; by left].
  rewrite bind_run.
  destruct (View.handle_sequential serializer operation.1 w1) as [r0 w3] eqn:Hrun.
  intros Hr. right. exists obj, resource_type, serializer, w1, r0.
  split; [done|]. split; [done|]. split; [done|]. split.
  - intros Hinvoke. rewrite Hinvoke in Hdata. injection Hdata as <-.
    by apply get_serializer_data in Hget.
  - by destruct r0; injection Hr as <- <-.
Qed.

(** ** A relationship update leaves no entry, whatever the mode *)

Definition same_response (w w' : world) : Prop :=
  View.response_data w' = View.response_data w.

#[local] Instance same_response_preorder : PreOrder same_response.
Proof.
  split; [done|]. intros w1 w2 w3 H1 H2. unfold same_response in *. congruence.
Qed.

Lemma keeps_weaken {A} (R R' : world → world → Prop) (m : M A) :
  (∀ w w', R w w' → R' w w') → keeps R m → keeps R' m.
Proof. intros HR Hm w. apply HR, Hm. Qed.

Lemma substitute_lids_response data idx flag :
  keeps same_response (View.substitute_lids data idx flag).
Proof.
  intros w. destruct (substitute_lids_outcome data idx flag w) as (w' & -> & Hsame).
  apply Hsame.
Qed.

Lemma handle_sequential_relationship_response
    (serializer : View.Serializer Store Instance Validated) :
  keeps same_response (View.handle_sequential serializer OP_UPDATE_RELATIONSHIP).
Proof.
  intros w.
  destruct (View.handle_sequential serializer OP_UPDATE_RELATIONSHIP w)
    as [r w'] eqn:Hrun.
  exact (handle_sequential_relationship _ _ _ _ Hrun).
Qed.

Lemma handle_bulk_relationship_response
    (serializer : View.Serializer Store Instance Validated) b :
  keeps same_response (View.handle_bulk serializer OP_UPDATE_RELATIONSHIP b).
Proof.
  unfold View.handle_bulk.
  change (String.eqb OP_UPDATE_RELATIONSHIP "add") with false.
  change (String.eqb OP_UPDATE_RELATIONSHIP "delete") with false.
  cbn match.
  apply keeps_bind; [tc_solve|frame|intros flush].
  destruct flush; [|frame].
  apply keeps_bind; [tc_solve| |intros ?; frame].
  destruct (_ ++ [serializer])%list; [frame|].
  apply handle_sequential_relationship_response.
Qed.

Lemma perform_operation_relationship_response
    (self : View.Settings Store Instance Validated) idx obj next b :
  keeps same_response
    (View.perform_operation self idx (OP_UPDATE_RELATIONSHIP, obj) next b).
Proof.
  unfold View.perform_operation. cbn [fst snd].
  apply keeps_bind; [tc_solve|apply substitute_lids_response|intros obj'].
  apply keeps_bind; [tc_solve|frame|intros href].
  apply keeps_bind; [tc_solve|frame|intros serializer_data].
  apply keeps_bind; [tc_solve|frame|intros resource_type].
  apply keeps_bind; [tc_solve| |intros serializer].
  { eapply keeps_weaken; [|apply get_serializer_world]. by intros w w' <-. }
  destruct (View.sequential self).
  - apply keeps_bind; [tc_solve| |intros ?; frame].
    apply handle_sequential_relationship_response.
  - apply keeps_bind; [tc_solve|frame|intros lookahead].
    apply handle_bulk_relationship_response.
Qed.

(** The loop, cut after some of its turns. *)
Lemma perform_prefix_app (self : View.Settings Store Instance Validated)
    pre post idx following b (w : world) :
  View.perform_prefix self idx (pre ++ post) following b w
  = (b' ← View.perform_prefix self idx pre
            (match post with [] => following | next :: _ => Some next end) b;
     View.perform_prefix self (idx + length pre) post following b') w.
Proof.
  revert idx b w. induction pre as [|operation pre IH]; intros idx b w.
  - cbn [app length View.perform_prefix]. by rewrite Nat.add_0_r.
  - cbn [app length View.perform_prefix]. rewrite !bind_run.
    replace (match (pre ++ post)%list with
             | [] => following
             | next :: _ => Some next
             end)
      with (match pre with
            | [] => match post with [] => following | next :: _ => Some next end
            | next :: _ => Some next
            end) by by destruct pre.
    destruct (View.perform_operation _ _ _ _ _ _) as [[b1|e] w1]; [|done].
    rewrite IH. by replace (idx + S (length pre)) with (S idx + length pre) by lia.
Qed.

Lemma perform_loop_app (self : View.Settings Store Instance Validated)
    pre post idx b (w : world) :
  View.perform_loop self idx (pre ++ post) b w
  = (b' ← View.perform_prefix self idx pre (head post) b;
     View.perform_loop self (idx + length pre) post b') w.
Proof.
  revert idx b w. induction pre as [|operation pre IH]; intros idx b w.
  - cbn [app length View.perform_prefix]. by rewrite Nat.add_0_r.
  - cbn [app length View.perform_prefix View.perform_loop]. rewrite !bind_run.
    replace (head (pre ++ post)%list)
      with (match pre with [] => head post | next :: _ => Some next end)
      by by destruct pre.
    destruct (View.perform_operation _ _ _ _ _ _) as [[b1|e] w1]; [|done].
    rewrite IH. by replace (idx + S (length pre)) with (S idx + length pre) by lia.
Qed.

Section SequentialTurn.

Variable self : View.Settings Store Instance Validated.
Hypothesis Hsequential : View.sequential self = true.

Lemma perform_operation_entry idx operation next b (w w' : world) b' :
  View.perform_operation self idx operation next b w = (Ok b', w') →
  has_entry operation.1 = true →
  ∃ entry, View.response_data w' = (View.response_data w ++ [entry])%list.
Proof using Hsequential.
  intros Hrun Hentry.
  apply (perform_operation_sequential self _ _ _ _ _ _ _ Hsequential) in Hrun
    as [[? _]|(obj & type & serializer & w1 & r0 & _ & Hsame & _ & _ & Hrun & Hr)];
    [done|].
  destruct r0 as [[]|]; [|done].
  destruct (handle_sequential_entry _ _ _ _ Hrun Hentry) as (entry & ->).
  exists entry. by destruct Hsame as (_ & -> & _).
Qed.

Lemma perform_operation_no_entry idx operation next b (w w' : world) r :
  View.perform_operation self idx operation next b w = (r, w') →
  has_entry operation.1 = false ∨ is_ok r = false →
  View.response_data w' = View.response_data w.
Proof using Hsequential.
  intros Hrun Hentry.
  apply (perform_operation_sequential self _ _ _ _ _ _ _ Hsequential) in Hrun
    as [[_ Hsame]|(obj & type & serializer & w1 & r0 & _ & Hsame & _ & _ & Hrun & ->)];
    [apply Hsame|].
  rewrite (handle_sequential_no_entry _ _ _ _ _ Hrun); [apply Hsame|].
  destruct Hentry as [?|Hr]; [by left|right]. by destruct r0.
Qed.

(** The entries of the registry after a turn are those before it, but for
    the one that an [add] declares with its [type] and [lid]. *)
Lemma perform_operation_entries idx operation next b (w w' : world) r t l :
  View.perform_operation self idx operation next b w = (r, w') →
  entries w' t l = entries w t l
  ∨ (operation.1 = OP_ADD
     ∧ ∃ d, operation.2 = JDict d ∧ reference d = Some (t, l)).
Proof using Hsequential.
  intros Hrun.
  apply (perform_operation_sequential self _ _ _ _ _ _ _ Hsequential) in Hrun
    as [[_ Hsame]|(obj & type & serializer & w1 & r0 & Hout & Hsame & Htype
                   & Hdata & Hrun & _)]; [left; apply Hsame|].
  destruct (handle_sequential_entries _ _ _ _ _ t l Hrun)
    as [Hkept|[Hadd (type' & lid & Hget & Hlid & Htruthy & Ht & Hl)]].
  { left. rewrite Hkept. apply Hsame. }
  right. split; [done|]. rewrite Hadd in *. cbn [negb] in Hout.
  rewrite Hdata in * by done.
  destruct (walk_dict _ _ _ _ _ Hout) as [d Hd]
    || (destruct obj as [| | | | |members]; try discriminate;
        destruct (walk_dict _ _ _ _ _ Hout) as [d Hd]).
  exists d. split; [done|]. rewrite Hd in Hout. cbn [Outcome.substitute_lids] in Hout.
  destruct (Outcome.resolve_lid _ d idx _) as [pending|]; [|discriminate].
  cbn [mbind result_bind] in Hout.
  destruct (Outcome.visit_items _ d pending) as [out|] eqn:Hits; [|discriminate].
  injection Hout as <-.
  apply (visit_items_reference _ _ _ _ _ Hits). unfold reference.
  cbn in Htype, Hget, Hlid.
  destruct (Py.lookup "type" out) as [type0|]; [|discriminate].
  destruct (Py.lookup "lid" out) as [lid0|]; cbn in Hget, Hlid;
    injection Hget as <-; injection Hlid as <-; [|discriminate].
  by rewrite Htruthy, Ht, Hl.
Qed.

(** An [add] that returns, of a type that is not a bulk type and with a
    [lid], has appended the data of the serializer and entered their [id]
    under its [type] and [lid]. *)
Lemma perform_operation_registers idx d next b (w w' : world) b' t l type :
  View.perform_operation self idx (OP_ADD, JDict d) next b w = (Ok b', w') →
  reference d = Some (t, l) →
  Py.lookup "type" d = Some type →
  View.is_bulk_operation_type type = Ok false →
  ∃ entry id,
    View.response_data w' = (View.response_data w ++ [entry])%list
    ∧ Py.getitem entry "id" = Ok id
    ∧ entries w' t l = Some id.
Proof using Hsequential.
  intros Hrun Href Htype Hbulk.
  apply (perform_operation_sequential self _ _ _ _ _ _ _ Hsequential) in Hrun
    as [[? _]|(obj & type' & serializer & w1 & r0 & Hout & Hsame & _
               & Hdata & Hrun & Hr)]; [done|].
  destruct r0 as [[]|]; [|done]. cbn [fst snd] in *.
  specialize (Hdata eq_refl).
  cbn [Outcome.substitute_lids] in Hout.
  destruct (Outcome.resolve_lid _ d idx _) as [pending|]; [|discriminate].
  cbn [mbind result_bind] in Hout.
  destruct (Outcome.visit_items _ d pending) as [out|] eqn:Hits; [|discriminate].
  injection Hout as <-.
  unfold reference in Href. rewrite Htype in Href.
  destruct (Py.lookup "lid" d) as [lid|] eqn:Hlid; [|discriminate].
  destruct (Py.truthy lid) eqn:Htruthy; [|discriminate].
  destruct (Py.hash_key type) as [t0|] eqn:Ht; [|discriminate].
  destruct (Py.hash_key lid) as [l0|] eqn:Hl; [|discriminate].
  injection Href as -> ->.
  assert (Py.lookup "type" out = Some type) as Htype'.
  { apply (visit_items_lookup_scalar _ _ _ _ _ _ _ Hits); try done.
    unfold hashable. by rewrite Ht. }
  assert (Py.lookup "lid" out = Some lid) as Hlid'.
  { apply (visit_items_lookup_scalar _ _ _ _ _ _ _ Hits); try done.
    unfold hashable. by rewrite Hl. }
  destruct (handle_sequential_registers serializer w1 w' type lid t l Hrun)
    as (entry & id & Hresponse & Hid & Hentry); try done.
  - rewrite Hdata. cbn. by rewrite Htype'.
  - rewrite Hdata. cbn. by rewrite Hlid'.
  - exists entry, id. split; [|done]. rewrite Hresponse.
    by destruct Hsame as (_ & -> & _).
Qed.

Lemma perform_prefix_response operations idx following b (w w' : world) b' :
  View.perform_prefix self idx operations following b w = (Ok b', w') →
  ∃ es, View.response_data w' = (View.response_data w ++ es)%list
        ∧ length es = entry_count operations.
Proof using Hsequential.
  revert idx b w. induction operations as [|operation rest IH]; intros idx b w.
  - intros [= <- <-]. exists []. by rewrite app_nil_r.
  - cbn [View.perform_prefix]. intros Hrun.
    apply bind_ok in Hrun as (b1 & w1 & Hturn & Hrest).
    apply IH in Hrest as (es & -> & Hlen).
    unfold entry_count. cbn [List.filter].
    destruct (has_entry operation.1) eqn:Hentry.
    + destruct (perform_operation_entry _ _ _ _ _ _ _ Hturn Hentry) as (entry & ->).
      exists (entry :: es). rewrite <- app_assoc. split; [done|].
      cbn [length]. by rewrite Hlen.
    + rewrite (perform_operation_no_entry _ _ _ _ _ _ _ Hturn) by by left.
      by exists es.
Qed.

Lemma declares_false t l (operation : string * json) :
  declares t l operation = false →
  ¬ (operation.1 = OP_ADD
     ∧ ∃ d, operation.2 = JDict d ∧ reference d = Some (t, l)).
Proof.
  unfold declares. intros Hno (Hadd & d & Hd & Href).
  rewrite Hadd, Hd, bool_decide_true in Hno by done. discriminate.
Qed.

(** The identifier under a type and a lid stays through the turns of
    operations that do not declare that lid for that type. *)
Lemma perform_prefix_entries operations idx following b (w w' : world) r t l :
  View.perform_prefix self idx operations following b w = (r, w') →
  Forall (λ operation, declares t l operation = false) operations →
  entries w' t l = entries w t l.
Proof using Hsequential.
  revert idx b w. induction operations as [|operation rest IH]; intros idx b w.
  - by intros [= <- <-].
  - cbn [View.perform_prefix]. rewrite bind_run. intros Hrun Hno.
    apply Forall_cons in Hno as [Hno Hrest].
    destruct (View.perform_operation _ _ _ _ _ _) as [r1 w1] eqn:Hturn.
    assert (entries w1 t l = entries w t l) as Hkept.
    { destruct (perform_operation_entries _ _ _ _ _ _ _ t l Hturn) as [H|H];
        [done|]. by apply declares_false in Hno. }
    destruct r1 as [b1|e].
    + rewrite <- Hkept. by apply (IH _ _ _ Hrun).
    + by injection Hrun as <- <-.
Qed.

End SequentialTurn.

Lemma perform_operations_run
    (self : View.Settings Store Instance Validated) parsed_operations (w : world) :
  View.perform_operations self parsed_operations w
  = match View.perform_loop self 0 parsed_operations View.no_bulk_operation_data
            (View.set_response_data [] w) with
    | (Ok _, w') =>
        (Ok {| View.body := View.response_data w';
               View.status := if Nat.eqb (length (View.response_data w')) 0
                              then 204 else 200 |}, w')
    | (Raise e, w') => (Raise e, View.set_db (View.db w) w')
    end.
Proof.
  unfold View.perform_operations, View.atomic. run.
  by destruct (View.perform_loop _ _ _ _ _) as [[[]|e] w'].
Qed.

(** C4: in a view that handles its operations one by one, the response of
    a request that succeeds has as many entries as the request has [add],
    [update] and [invoke] operations, a [remove] and a relationship update
    leaving none; and the entries come in the order of the operations: after
    any number of turns of the loop, the response so far is the first
    entries of the final one, as many as these turns have operations that
    leave an entry. *)
Theorem response_lists_the_entries_in_operation_order
    (self : View.Settings Store Instance Validated)
    (parsed_operations : list (string * json)) (w w' : world)
    (response : View.Response) :
  View.sequential self = true →
  View.perform_operations self parsed_operations w = (Ok response, w') →
  length (View.body response) = entry_count parsed_operations
  ∧ ∀ pre post,
      parsed_operations = (pre ++ post)%list →
      ∃ b w1,
        View.perform_prefix self 0 pre (head post) View.no_bulk_operation_data
          (View.set_response_data [] w) = (Ok b, w1)
        ∧ View.response_data w1
          = take (entry_count pre) (View.body response).
Proof.
  intros Hsequential. rewrite perform_operations_run.
  destruct (View.perform_loop _ _ _ _ _) as [[[]|e] w2] eqn:Hloop; [|discriminate].
  intros [= <- <-]. cbn [View.body]. split.
  - rewrite <- (app_nil_r parsed_operations), perform_loop_app in Hloop.
    apply bind_ok in Hloop as (b & w1 & Hprefix & [= <-]).
    apply (perform_prefix_response self Hsequential) in Hprefix as (es & -> & <-).
    done.
  - intros pre post ->. rewrite perform_loop_app in Hloop.
    apply bind_ok in Hloop as (b & w1 & Hprefix & Hrest).
    exists b, w1. split; [done|].
    rewrite <- (app_nil_r post), perform_loop_app in Hrest.
    apply bind_ok in Hrest as (b2 & w3 & Hpost & [= <-]).
    apply (perform_prefix_response self Hsequential) in Hprefix as (es & Hes & <-).
    apply (perform_prefix_response self Hsequential) in Hpost as (es' & -> & _).
    rewrite Hes. cbn [View.response_data View.set_response_data app].
    by rewrite take_app_length.
Qed.


(** C6: an update that names its target through [ref], the target passing
    for that of an update and naming a relationship, and the operation
    carrying no [href]:
    - without a [data] member it is refused, the primary data are missing,
      and the parser stops on it;
    - with a null [data] member it is accepted; the parser hands it on
      under the code of a relationship update, and the turn of the view on
      it, in either mode, whether it returns or raises, leaves the response
      as it was. *)
Theorem relationship_update_needs_data_and_leaves_no_entry
    (SUPPORTED_OPERATIONS : list string)
    (parse_attributes parse_relationships parse_metadata : json → result pydict)
    (document : json) (idx : nat) (d ref : pydict) :
  Py.lookup "op" d = Some (JStr OP_UPDATE) →
  present "href" d = false →
  Py.lookup "ref" d = Some (JDict ref) →
  Parser.check_resource_identifier_object idx (JDict ref) (JStr OP_UPDATE) = Ok tt →
  present "relationship" ref = true →
  let check_operation := Parser.check_operation SUPPORTED_OPERATIONS in
  let parse_data_operation :=
    Parser.parse_data_operation SUPPORTED_OPERATIONS
      parse_attributes parse_relationships parse_metadata in
  (Py.lookup "data" d = None →
   check_operation idx (JDict d) = Raise (MissingPrimaryData idx)
   ∧ parse_data_operation document idx (JDict d) = Raise (MissingPrimaryData idx)
   ∧ error_id (MissingPrimaryData idx) = Some "missing-primary-data")
  ∧ (Py.lookup "data" d = Some JNull →
     check_operation idx (JDict d) = Ok tt
     ∧ ∀ parsed,
         parse_data_operation document idx (JDict d) = Ok parsed →
         parsed.1 = OP_UPDATE_RELATIONSHIP
         ∧ ∀ (self : View.Settings Store Instance Validated) i next b (w : world),
             View.response_data (View.perform_operation self i parsed next b w).2
             = View.response_data w).
Proof.
  intros Hop Hhref Href Hrio Hrelationship check_operation parse_data_operation.
  pose proof (check_relation_update_data SUPPORTED_OPERATIONS idx d ref
                Hop Hhref Href Hrio Hrelationship) as Hcheck.
  fold check_operation in Hcheck. split; intros Hdata; rewrite Hdata in Hcheck.
  - split; [done|]. split; [|done].
    unfold parse_data_operation, Parser.parse_data_operation.
    fold check_operation. by rewrite Hcheck.
  - split; [done|]. intros [code obj] Hparsed.
    apply (parse_relation_update_code _ _ _ _ _ _ _ ref) in Hparsed; try done.
    cbn [fst] in Hparsed. subst code. split; [done|].
    intros self i next b w.
    apply (perform_operation_relationship_response self i obj next b w).
Qed.

(** ** Failures *)

(** Whatever the mode, a request that fails leaves the database as it was
    when the request came in. *)
Theorem failed_request_leaves_the_database
    (self : View.Settings Store Instance Validated)
    (parsed_operations : list (string * json)) (w w' : world) (e : exn) :
  View.perform_operations self parsed_operations w = (Raise e, w') →
  View.db w' = View.db w.
Proof.
  rewrite perform_operations_run.
  destruct (View.perform_loop _ _ _ _ _) as [[[]|e'] w1]; [discriminate|].
  by intros [= _ <-].
Qed.

(** Whatever the mode, the request ends with the first operation that
    fails: its failure is the outcome of the request, and the view is left
    as that operation left it, with the database put back; the operations
    after it are not run. *)
Theorem first_failure_ends_the_request
    (self : View.Settings Store Instance Validated)
    (pre post : list (string * json)) (operation : string * json)
    (b : View.BulkOperationData Store Instance Validated)
    (w w1 w2 : world) (e : exn) :
  View.perform_prefix self 0 pre (Some operation) View.no_bulk_operation_data
    (View.set_response_data [] w) = (Ok b, w1) →
  View.perform_operation self (length pre) operation (head post) b w1
  = (Raise e, w2) →
  View.perform_operations self (pre ++ operation :: post) w
  = (Raise e, View.set_db (View.db w) w2).
Proof.
  intros Hprefix Hturn.
  rewrite perform_operations_run, perform_loop_app, bind_run.
  cbn [head]. rewrite Hprefix. cbn [View.perform_loop plus].
  by rewrite bind_run, Hturn.
Qed.

(** ** What [get_serializer] refuses *)

Lemma perform_operation_fails_in_get_serializer
    (self : View.Settings Store Instance Validated) idx operation next b
    (w w1 w2 : world) obj type e :
  String.eqb operation.1 OP_INVOKE = false →
  View.substitute_lids operation.2 idx
    (negb (String.eqb operation.1 OP_ADD)) w = (Ok obj, w1) →
  Py.getitem obj "type" = Ok type →
  View.get_serializer self idx
    (if String.eqb operation.1 OP_UPDATE_RELATIONSHIP
     then OP_UPDATE else operation.1)
    type JNull obj
    (String.eqb operation.1 OP_UPDATE
     || String.eqb operation.1 OP_UPDATE_RELATIONSHIP) w1 = (Raise e, w2) →
  View.perform_operation self idx operation next b w = (Raise e, w2).
Proof.
  intros Hinvoke Hwalk Htype Hget. unfold View.perform_operation.
  rewrite (bind_returns _ _ _ _ _ Hwalk), Hinvoke.
  rewrite (bind_returns _ _ w1 JNull w1) by reflexivity.
  rewrite (bind_returns _ _ w1 obj w1) by reflexivity.
  rewrite (bind_returns _ _ w1 type w1) by (by unfold View.lift; rewrite Htype).
  by rewrite (bind_raises _ _ _ _ _ Hget).
Qed.

(** An [update], a relationship update or a [remove] of an object that the
    model does not have fails with `object-does-not-exist` and the pointer
    [/<operationsKey>/<i>/data/id], for a [remove] too; nothing has been
    validated, written or registered by then. *)
Theorem missing_object_is_reported_at_its_operation
    (self : View.Settings Store Instance Validated) idx operation next b
    (w w1 : world) obj type cls id :
  operation.1 ∈ [OP_UPDATE; OP_UPDATE_RELATIONSHIP; OP_REMOVE] →
  View.substitute_lids operation.2 idx true w = (Ok obj, w1) →
  Py.getitem obj "type" = Ok type →
  View.get_serializer_class self
    (if String.eqb operation.1 OP_UPDATE_RELATIONSHIP
     then OP_UPDATE else operation.1) type JNull = Ok cls →
  Py.getitem obj "id" = Ok id →
  View.objects_get (View.Meta_model cls) id (View.db w1)
  = Raise ObjectDoesNotExist →
  View.perform_operation self idx operation next b w
  = (Raise (View.object_does_not_exist id idx), w1)
  ∧ error_id (View.object_does_not_exist id idx) = Some "object-does-not-exist"
  ∧ error_pointer (View.object_does_not_exist id idx)
    = Some (field_pointer idx "data/id")
  ∧ same_entries w w1.
Proof.
  intros Hcode Hwalk Htype Hclass Hid Hmissing.
  split; [|split; [done|split; [done|]]].
  - apply (perform_operation_fails_in_get_serializer _ _ _ _ _ _ w1 _ obj type).
    + rewrite !elem_of_cons in Hcode.
      by destruct Hcode as [->|[->|[->|?%elem_of_nil]]].
    + rewrite <- Hwalk. f_equal. rewrite !elem_of_cons in Hcode.
      by destruct Hcode as [->|[->|[->|?%elem_of_nil]]].
    + done.
    + unfold View.get_serializer.
      rewrite (bind_returns _ _ w1 cls w1)
        by (by unfold View.lift; rewrite Hclass).
      assert (String.eqb (if String.eqb operation.1 OP_UPDATE_RELATIONSHIP
                          then OP_UPDATE else operation.1) OP_UPDATE
              || String.eqb (if String.eqb operation.1 OP_UPDATE_RELATIONSHIP
                             then OP_UPDATE else operation.1) OP_REMOVE = true)
        as ->.
      { rewrite !elem_of_cons in Hcode.
        by destruct Hcode as [->|[->|[->|?%elem_of_nil]]]. }
      run. rewrite Hid. run. by rewrite Hmissing.
  - destruct (substitute_lids_outcome operation.2 idx true w) as (w' & Heq & Hsame).
    rewrite Hwalk in Heq. by injection Heq as _ ->.
Qed.

(** An operation other than an [invoke] whose type has no serializer class
    under the key [<code>:<type>], the code of a relationship update being
    that of an update, fails with [ImproperlyConfigured]; nothing has been
    validated, written or registered by then. *)
Theorem unregistered_type_is_a_configuration_error
    (self : View.Settings Store Instance Validated) idx operation next b
    (w w1 : world) obj type :
  String.eqb operation.1 OP_INVOKE = false →
  View.substitute_lids operation.2 idx
    (negb (String.eqb operation.1 OP_ADD)) w = (Ok obj, w1) →
  Py.getitem obj "type" = Ok (JStr type) →
  View.serializer_classes self
    !! ((if String.eqb operation.1 OP_UPDATE_RELATIONSHIP
         then OP_UPDATE else operation.1) +:+ ":" +:+ type) = None →
  ∃ msg,
    View.perform_operation self idx operation next b w
    = (Raise (ImproperlyConfigured msg), w1)
    ∧ same_entries w w1.
Proof.
  intros Hinvoke Hwalk Htype Hnone.
  set (code := if String.eqb operation.1 OP_UPDATE_RELATIONSHIP
               then OP_UPDATE else operation.1) in *.
  assert (∃ msg, View.get_serializer_class self code (JStr type) JNull
                 = Raise (ImproperlyConfigured msg)) as [msg Hclass].
  { unfold View.get_serializer_class, View.is_bulk_operation_type,
      View.get_serializer_classes.
    rewrite andb_false_r. cbn [Py.truthy Py.startswith Py.str].
    destruct (String.eqb code OP_ADD), (String.eqb type "");
      cbn [negb mbind result_bind];
      destruct (Nat.eqb (size (View.serializer_classes self)) 0);
      cbn [mbind result_bind]; rewrite ?Hnone; eauto. }
  exists msg. split.
  - apply (perform_operation_fails_in_get_serializer _ _ _ _ _ _ w1 _ obj
             (JStr type)); try done.
    unfold View.get_serializer. fold code.
    apply bind_raises. unfold View.lift. by rewrite Hclass.
  - destruct (substitute_lids_outcome operation.2 idx
                (negb (String.eqb operation.1 OP_ADD)) w) as (w' & Heq & Hsame).
    rewrite Hwalk in Heq. by injection Heq as _ ->.
Qed.

(** ** The registry in bulk mode *)

Definition same_registry (w w' : world) : Prop :=
  ∀ t l, entries w' t l = entries w t l.

#[local] Instance same_registry_preorder : PreOrder same_registry.
Proof.
  split; [done|]. intros w1 w2 w3 H1 H2 t l. by rewrite H2, H1.
Qed.

Lemma keeps_command {A} (f : Store → result A * Store) :
  keeps same_registry (View.command f).
Proof. by intros w t l. Qed.

Lemma keeps_response_data_append entry :
  keeps same_registry (View.response_data_append (Store := Store) entry).
Proof. by intros w t l. Qed.

Lemma keeps_response_data_extend entries :
  keeps same_registry (View.response_data_extend (Store := Store) entries).
Proof. by intros w t l. Qed.

Lemma keeps_map_M {A B} R `{!PreOrder R} (f : A → M B) l :
  (∀ x, keeps R (f x)) → keeps R (View.map_M f l).
Proof.
  intros Hf. induction l as [|x l IH]; cbn [View.map_M];
    [apply keeps_ret; tc_solve|].
  apply keeps_bind; [tc_solve|apply Hf|intros y].
  apply keeps_bind; [tc_solve|apply IH|intros ys]. apply keeps_ret; tc_solve.
Qed.

Lemma handle_sequential_registry
    (serializer : View.Serializer Store Instance Validated) operation_code :
  operation_code ≠ OP_ADD →
  keeps same_registry (View.handle_sequential serializer operation_code).
Proof.
  intros Hcode w t l.
  destruct (View.handle_sequential serializer operation_code w) as [r w'] eqn:Hrun.
  by destruct (handle_sequential_entries _ _ _ _ _ t l Hrun) as [?|[? _]].
Qed.

Lemma perform_bulk_create_registry
    (collection : list (View.Serializer Store Instance Validated)) :
  keeps same_registry (View.perform_bulk_create collection).
Proof.
  unfold View.perform_bulk_create, View.run_is_valid.
  destruct collection as [|first rest]; [apply keeps_raise; tc_solve|].
  apply keeps_bind; [tc_solve| |intros objs].
  { apply keeps_map_M; [tc_solve|]. intros x. frame. }
  apply keeps_bind; [tc_solve|apply keeps_command|intros created].
  apply keeps_bind; [tc_solve| |intros entries].
  { apply keeps_map_M; [tc_solve|]. intros x. frame. }
  apply keeps_response_data_extend.
Qed.

Lemma perform_bulk_delete_registry
    (collection : list (View.Serializer Store Instance Validated)) :
  keeps same_registry (View.perform_bulk_delete collection).
Proof.
  unfold View.perform_bulk_delete.
  apply keeps_bind; [tc_solve| |intros obj_ids].
  { apply keeps_map_M; [tc_solve|]. intros x.
    destruct (View.instance x); [|apply keeps_raise; tc_solve].
    apply keeps_bind; [tc_solve|frame|intros entry].
    apply keeps_bind; [tc_solve|apply keeps_response_data_append|intros ?].
    apply keeps_ret; tc_solve. }
  destruct collection; [apply keeps_raise; tc_solve|apply keeps_command].
Qed.

Lemma handle_bulk_registry
    (serializer : View.Serializer Store Instance Validated) code b :
  keeps same_registry (View.handle_bulk serializer code b).
Proof.
  unfold View.handle_bulk.
  apply keeps_bind; [tc_solve|frame|intros flush].
  destruct flush; [|frame].
  apply keeps_bind; [tc_solve| |intros ?; frame].
  destruct (String.eqb_spec code "add") as [->|Hadd];
    [apply perform_bulk_create_registry|].
  destruct (String.eqb code "delete"); [apply perform_bulk_delete_registry|].
  destruct (_ ++ [serializer])%list; [apply keeps_raise; tc_solve|].
  by apply handle_sequential_registry.
Qed.

Lemma perform_operation_bulk_registry
    (self : View.Settings Store Instance Validated) idx operation next b :
  View.sequential self = false →
  keeps same_registry (View.perform_operation self idx operation next b).
Proof.
  intros Hmode. unfold View.perform_operation. rewrite Hmode.
  apply keeps_bind; [tc_solve| |intros obj].
  { intros w. destruct (substitute_lids_outcome operation.2 idx
                          (negb (String.eqb operation.1 OP_ADD)) w)
      as (w' & -> & Hsame). intros t l. apply Hsame. }
  apply keeps_bind; [tc_solve|frame|intros href].
  apply keeps_bind; [tc_solve|frame|intros serializer_data].
  apply keeps_bind; [tc_solve|frame|intros resource_type].
  apply keeps_bind; [tc_solve| |intros serializer].
  { eapply keeps_weaken; [|apply get_serializer_world]. by intros w w' <-. }
  apply keeps_bind; [tc_solve|frame|intros lookahead].
  apply handle_bulk_registry.
Qed.

Lemma perform_loop_bulk_registry
    (self : View.Settings Store Instance Validated) operations idx b :
  View.sequential self = false →
  keeps same_registry (View.perform_loop self idx operations b).
Proof.
  intros Hmode. revert idx b.
  induction operations as [|operation rest IH]; intros idx b;
    cbn [View.perform_loop]; [apply keeps_ret; tc_solve|].
  apply keeps_bind; [tc_solve|by apply perform_operation_bulk_registry|intros b'].
  apply IH.
Qed.

(** A view in bulk mode registers no lid: after a request, whatever its
    operations and whether it succeeds or fails, the registry holds under
    every type and lid what it held before. *)
Theorem bulk_view_registers_no_lid
    (self : View.Settings Store Instance Validated)
    (parsed_operations : list (string * json)) (w w' : world)
    (r : result View.Response) :
  View.sequential self = false →
  View.perform_operations self parsed_operations w = (r, w') →
  ∀ t l, entries w' t l = entries w t l.
Proof.
  intros Hmode. rewrite perform_operations_run.
  pose proof (perform_loop_bulk_registry self parsed_operations 0
                View.no_bulk_operation_data Hmode
                (View.set_response_data [] w)) as Hloop.
  destruct (View.perform_loop _ _ _ _ _) as [[[]|e] w1];
    intros [= <- <-] t l; apply (Hloop t l).
Qed.

(** ** A relationship update and the update of the same payload *)

(** Decides the comparisons of two string literals in the goal. *)
Ltac compare_literals :=
  repeat match goal with
         | |- context [String.eqb ?a ?b] =>
             let v := eval vm_compute in (String.eqb a b) in
             match v with true => idtac | false => idtac end;
             change (String.eqb a b) with v
         end;
  cbn [orb andb negb].

Lemma handle_sequential_update_or_relationship
    (serializer : View.Serializer Store Instance Validated) (w : world) :
  let updated := View.handle_sequential serializer OP_UPDATE w in
  let related := View.handle_sequential serializer OP_UPDATE_RELATIONSHIP w in
  (updated.1 = Ok tt → related.1 = Ok tt)
  ∧ (∀ e, related.1 = Raise e → updated.1 = Raise e)
  ∧ View.db related.2 = View.db updated.2
  ∧ View.lid_to_id related.2 = View.lid_to_id updated.2
  ∧ View.response_data related.2 = View.response_data w.
Proof.
  unfold View.handle_sequential, View.run_is_valid, View.run_save,
    View.response_data_append.
  compare_literals. run.
  destruct (Py.get_default (View.initial_data serializer) "lid" JNull); [|done].
  destruct (Py.get (View.initial_data serializer) "type"); [|done]. run.
  destruct (View.is_valid _ _ _ _ _); [|done]. run.
  destruct (View.save _ _ _ _ _) as [[saved|e] s]; [|done]. run.
  by destruct (View.data saved).
Qed.

(** In a view that handles its operations one by one, a relationship update
    does to the database and to the registry what the update of the same
    payload does, with the same serializer class, and leaves the response
    as it was.  It succeeds whenever the update succeeds, and when it fails
    the update fails in the same way; the update alone reads
    [serializer.data], and fails when that fails. *)
Theorem relationship_update_writes_what_the_update_writes
    (self : View.Settings Store Instance Validated) idx obj next b (w : world) :
  View.sequential self = true →
  let updated := View.perform_operation self idx (OP_UPDATE, obj) next b w in
  let related :=
    View.perform_operation self idx (OP_UPDATE_RELATIONSHIP, obj) next b w in
  (∀ b', updated.1 = Ok b' → related.1 = Ok b')
  ∧ (∀ e, related.1 = Raise e → updated.1 = Raise e)
  ∧ View.db related.2 = View.db updated.2
  ∧ View.lid_to_id related.2 = View.lid_to_id updated.2
  ∧ View.response_data related.2 = View.response_data w.
Proof.
  intros Hmode. unfold View.perform_operation. rewrite Hmode. cbn [fst snd].
  compare_literals. cbn zeta.
  pose proof (substitute_lids_outcome obj idx true w) as (w1 & Hwalk & Hsame).
  rewrite !bind_run, Hwalk.
  destruct (Outcome.substitute_lids _ obj idx true) as [obj'|e];
    [|repeat split; try done; apply Hsame].
  rewrite !bind_run. cbn [View.lift]. rewrite !bind_run. cbn [View.lift].
  rewrite !bind_run. cbn [View.lift].
  destruct (Py.getitem obj' "type") as [type|e];
    [|repeat split; try done; apply Hsame].
  rewrite !bind_run.
  pose proof (get_serializer_world self idx OP_UPDATE type JNull obj' true w1)
    as Hworld.
  destruct (View.get_serializer self idx OP_UPDATE type JNull obj' true w1)
    as [[serializer|e] w2]; cbn in Hworld; subst w2;
    [|repeat split; try done; apply Hsame].
  rewrite !bind_run.
  pose proof (handle_sequential_update_or_relationship serializer w1)
    as (Hok & Hraise & Hdb & Hregistry & Hresponse). cbn zeta in *.
  destruct (View.handle_sequential serializer OP_UPDATE w1) as [[[]|e] wu],
    (View.handle_sequential serializer OP_UPDATE_RELATIONSHIP w1) as [[[]|e'] wr];
    cbn [fst snd] in *; run.
  - repeat split; try done. rewrite Hresponse. apply Hsame.
  - by specialize (Hok eq_refl).
  - repeat split; try done. rewrite Hresponse. apply Hsame.
  - repeat split; try done; [|rewrite Hresponse; apply Hsame].
    intros e0 [= <-]. by injection (Hraise e' eq_refl) as ->.
Qed.

(** ** The status of the response *)

(** In a view that handles its operations one by one, a request that
    succeeds is answered 204 when none of its operations is an [add], an
    [update] or an [invoke], and 200 otherwise; the status is 204 exactly
    when the response has no entry. *)
Theorem response_status_counts_the_entries
    (self : View.Settings Store Instance Validated)
    (parsed_operations : list (string * json)) (w w' : world)
    (response : View.Response) :
  View.sequential self = true →
  View.perform_operations self parsed_operations w = (Ok response, w') →
  View.status response
  = (if Nat.eqb (entry_count parsed_operations) 0 then 204 else 200)
  ∧ (View.status response = 204 ↔ View.body response = []).
Proof.
  intros Hmode. rewrite perform_operations_run.
  destruct (View.perform_loop _ _ _ _ _) as [[[]|e] w2] eqn:Hloop; [|discriminate].
  intros [= <- <-]. cbn [View.body View.status].
  rewrite <- (app_nil_r parsed_operations), perform_loop_app in Hloop.
  apply bind_ok in Hloop as (b & w1 & Hprefix & [= <-]).
  apply (perform_prefix_response self Hmode) in Hprefix as (es & -> & <-).
  cbn [View.response_data View.set_response_data app].
  split; [done|]. destruct es; cbn; split; done.
Qed.

(** ** Writing to the registry and reading it back *)

(** Once an identifier has been entered under a type and a lid, looking
    the pair up gives that identifier, also through another value that
    Python takes for the same dictionary key; the entry replaces what the
    pair had, and the other pairs, the database and the response are as they
    were. *)
Theorem registered_lid_is_found_again
    resource_type lid id resource_type' lid' (w : world) t l :
  Py.hash_key resource_type = Ok t → Py.hash_key lid = Ok l →
  Py.hash_key resource_type' = Ok t → Py.hash_key lid' = Ok l →
  ∃ w1 w2,
    View.lid_to_id_setitem resource_type lid id w = (Ok tt, w1)
    ∧ View.lid_to_id_lookup resource_type' lid' w1 = (Ok id, w2)
    ∧ same_entries w1 w2
    ∧ (∀ t' l', (t', l') ≠ (t, l) → entries w1 t' l' = entries w t' l')
    ∧ View.db w1 = View.db w
    ∧ View.response_data w1 = View.response_data w.
Proof.
  intros Ht Hl Ht' Hl'.
  pose proof (lid_to_id_setitem_spec resource_type lid id w) as Hset.
  rewrite Ht, Hl in Hset.
  destruct Hset as (w1 & Hset & Hdb & Hresponse & Hentry & Hothers).
  pose proof (lid_to_id_lookup_spec resource_type' lid' w1) as Hget.
  rewrite Ht', Hl', Hentry in Hget. destruct Hget as (w2 & Hget & Hsame).
  by exists w1, w2.
Qed.

(** ** What the walk leaves alone *)

(** A payload in which no dictionary has a [lid], or none but empty ones,
    comes out of [substitute_lids] as it went in, whatever the registry
    holds. *)
Theorem payload_without_lids_passes_the_walk_unchanged
    data idx flag (w : world) :
  lid_free data = true →
  ∃ w', View.substitute_lids data idx flag w = (Ok data, w')
        ∧ same_entries w w'.
Proof.
  intros Hfree.
  destruct (substitute_lids_outcome data idx flag w) as (w' & Hwalk & Hsame).
  exists w'. split; [|done]. by rewrite Hwalk, outcome_lid_free.
Qed.

(** When the walk over a dictionary returns, the dictionary has the keys
    it had, in the order it had them, with [id] after them when it got one
    that it did not have; and every member other than [id] that is neither a
    list nor a dictionary has the value it had. *)
Theorem walk_touches_id_members_only d idx flag (w w' : world) data' :
  View.substitute_lids (JDict d) idx flag w = (Ok data', w') →
  ∃ out,
    data' = JDict out
    ∧ (map fst out = map fst d
       ∨ (Py.lookup "id" d = None ∧ map fst out = (map fst d ++ ["id"])%list))
    ∧ ∀ k v,
        k ≠ "id" → Py.lookup k d = Some v → scalar v = true →
        Py.lookup k out = Some v.
Proof.
  intros Hwalk.
  destruct (substitute_lids_outcome (JDict d) idx flag w) as (w1 & Heq & _).
  rewrite Hwalk in Heq. injection Heq as Hout _. symmetry in Hout.
  cbn [Outcome.substitute_lids] in Hout.
  destruct (Outcome.resolve_lid _ d idx flag) as [pending|]; [|discriminate].
  cbn [mbind result_bind] in Hout.
  destruct (Outcome.visit_items _ d pending) as [out|] eqn:Hits; [|discriminate].
  injection Hout as <-. exists out. split; [done|]. split.
  - rewrite (visit_items_keys _ _ _ _ Hits).
    destruct pending, (Py.lookup "id" d); rewrite ?app_nil_r; auto.
  - intros k v Hk Hlookup Hscalar.
    apply (visit_items_lookup_scalar _ _ _ _ _ _ _ Hits Hk Hlookup).
    by destruct v.
Qed.

(** ** The batched insert *)

Lemma map_M_reads {A B} (f : A → M B) l (w : world) :
  (∀ x v, (f x v).2 = v) →
  (View.map_M f l w).2 = w
  ∧ ∀ ys, (View.map_M f l w).1 = Ok ys →
          Forall2 (λ x y, (f x w).1 = Ok y) l ys.
Proof.
  intros Hf. induction l as [|x l [IHw IHl]]; cbn [View.map_M].
  { split; [done|]. intros ys [= <-]. constructor. }
  rewrite bind_run. pose proof (Hf x w) as Hx.
  destruct (f x w) as [[y|e] w1] eqn:Hfx; cbn [snd] in Hx; subst w1;
    [|split; [done|discriminate]].
  rewrite bind_run.
  destruct (View.map_M f l w) as [[ys|e] w2]; cbn [fst snd] in *; subst w2;
    [|split; [done|discriminate]].
  split; [done|]. intros ? [= <-]. constructor; [by rewrite Hfx|by apply IHl].
Qed.

(** [perform_bulk_create] validates every serializer of the run against
    the database as it finds it and builds an instance for each, hands the
    instances to one [bulk_create], and then records, for each instance
    that comes back, what the class of the last serializer of the run makes
    of it.  When it raises, the response is as it was: no entry of the run
    is recorded.  It writes nothing to the registry. *)
Theorem bulk_create_validates_then_writes_then_records
    (first : View.Serializer Store Instance Validated)
    (rest : list (View.Serializer Store Instance Validated)) (w : world) :
  let collection := first :: rest in
  let model_class := View.Meta_model (View.class first) in
  let rendering := View.class (List.last collection first) in
  match View.perform_bulk_create collection w with
  | (Ok _, w') =>
      ∃ objs created entries,
        Forall2
          (λ serializer obj,
             ∃ validated,
               View.is_valid (View.class serializer)
                 (View.initial_data serializer) (View.instance serializer)
                 (View.partial serializer) (View.db w) = Ok validated
               ∧ View.model_new model_class validated = Ok obj)
          collection objs
        ∧ View.bulk_create model_class objs (View.db w)
          = (Ok created, View.db w')
        ∧ Forall2
            (λ obj entry, View.instance_data rendering obj (View.db w') = Ok entry)
            created entries
        ∧ View.response_data w' = (View.response_data w ++ entries)%list
        ∧ View.lid_to_id w' = View.lid_to_id w
  | (Raise _, w') =>
      View.response_data w' = View.response_data w
      ∧ View.lid_to_id w' = View.lid_to_id w
  end.
Proof.
  intros collection model_class rendering.
  subst collection model_class rendering. unfold View.perform_bulk_create.
  set (collection := first :: rest).
  set (model_class := View.Meta_model (View.class first)).
  set (rendering := View.class (List.last collection first)).
  set (validate := λ _serializer : View.Serializer Store Instance Validated,
         View.run_is_valid _serializer
         ≫= λ validated, View.lift (View.model_new model_class validated)).
  destruct (map_M_reads validate collection w) as [Hw Hobjs].
  { intros x v. unfold validate, View.run_is_valid. run.
    by destruct (View.is_valid _ _ _ _ _). }
  rewrite bind_run.
  destruct (View.map_M validate collection w) as [[objs|e] w1];
    cbn [fst snd] in *; subst w1; [|done].
  specialize (Hobjs objs eq_refl). rewrite bind_run.
  unfold View.command at 1.
  destruct (View.bulk_create model_class objs (View.db w)) as [[created|e] s]
    eqn:Hcreate; cbn [fst snd]; [|done].
  set (render := λ obj, View.query (View.instance_data rendering obj)).
  destruct (map_M_reads render created (View.set_db s w)) as [Hw' Hentries];
    [done|].
  rewrite bind_run.
  destruct (View.map_M render created (View.set_db s w)) as [[entries|e] w2];
    cbn [fst snd] in *; subst w2; [|done].
  specialize (Hentries entries eq_refl).
  exists objs, created, entries. run. repeat split; try done.
  eapply Forall2_impl; [exact Hobjs|]. intros serializer obj.
  unfold validate, View.run_is_valid. run.
  destruct (View.is_valid _ _ _ _ _) as [validated|]; [|done]. run.
  intros Hnew. by exists validated.
Qed.

(** ** Bulk mode on runs of one operation *)

(** The view with the same serializer classes, in sequential mode. *)
Definition one_by_one (self : View.Settings Store Instance Validated)
  : View.Settings Store Instance Validated :=
  {| View.serializer_classes := View.serializer_classes self;
     View.sequential := true |}.

(** Neighbours in [operations] have different codes, and every operation
    but the first has a [type]. *)
Fixpoint alternating (operations : list (string * json)) : bool :=
  match operations with
  | operation :: rest =>
      match rest with
      | next :: _ =>
          negb (String.eqb next.1 operation.1)
          && is_ok (Py.getitem next.2 "type")
      | [] => true
      end && alternating rest
  | [] => true
  end.

(** The codes that the parser hands on, but for [add]. *)
Definition not_an_add (operation_code : string) : bool :=
  String.eqb operation_code OP_UPDATE
  || String.eqb operation_code OP_UPDATE_RELATIONSHIP
  || String.eqb operation_code OP_REMOVE
  || String.eqb operation_code OP_INVOKE.

Lemma perform_operation_alone
    (self : View.Settings Store Instance Validated) idx operation next b b0
    (w : world) :
  View.sequential self = false →
  View.serializer_collection b = [] →
  not_an_add operation.1 = true →
  match next with
  | Some following =>
      String.eqb following.1 operation.1 = false
      ∧ is_ok (Py.getitem following.2 "type") = true
  | None => True
  end →
  match View.perform_operation self idx operation next b w,
        View.perform_operation (one_by_one self) idx operation next b0 w with
  | (Ok b', w1), (Ok _, w2) => w1 = w2 ∧ View.serializer_collection b' = []
  | (Raise e1, w1), (Raise e2, w2) => e1 = e2 ∧ w1 = w2
  | _, _ => False
  end.
Proof.
  intros Hmode Hempty Hcode Hnext. unfold View.perform_operation.
  rewrite Hmode. cbn [View.sequential one_by_one].
  rewrite !bind_run.
  destruct (View.substitute_lids _ _ _ w) as [[obj|e] w1]; [|done].
  rewrite !bind_run. cbn [View.lift].
  destruct (if String.eqb operation.1 OP_INVOKE then Py.get obj "href"
            else Ok JNull) as [href|e]; [|done].
  rewrite !bind_run. cbn [View.lift].
  destruct (if String.eqb operation.1 OP_INVOKE
            then Py.get_default obj "data" obj else Ok obj)
    as [serializer_data|e]; [|done].
  rewrite !bind_run. cbn [View.lift].
  destruct (Py.getitem obj "type") as [resource_type|e]; [|done].
  rewrite !bind_run.
  change (View.get_serializer (one_by_one self)) with (View.get_serializer self).
  destruct (View.get_serializer self _ _ _ _ _ _ w1) as [[serializer|e] w2];
    [|done].
  rewrite !bind_run.
  assert (∃ lookahead : string * json,
            (match next with
             | None => mret (EmptyString, JStr EmptyString)
             | Some following =>
                 View.lift (Py.getitem following.2 "type")
                 ≫= λ type, mret (following.1, type)
             end : M (string * json)) w2 = (Ok lookahead, w2)
            ∧ String.eqb lookahead.1 operation.1 = false)
    as (lookahead & -> & Hdiffers).
  { destruct next as [following|].
    - destruct Hnext as [Hdiffers Htype]. run.
      destruct (Py.getitem following.2 "type") as [type|]; [|done].
      by exists (following.1, type).
    - exists (EmptyString, JStr EmptyString). split; [done|]. cbn [fst].
      unfold not_an_add in Hcode.
      destruct (String.eqb_spec "" operation.1) as [Heq|]; [|done].
      by rewrite <- Heq in Hcode. }
  unfold View.handle_bulk. cbn [View.next_operation_code View.serializer_collection].
  rewrite Hempty, Hdiffers. cbn [negb app].
  rewrite (bind_returns _ _ w2 true w2) by reflexivity.
  assert (String.eqb operation.1 "add" = false) as ->.
  { unfold not_an_add in Hcode.
    destruct (String.eqb_spec operation.1 "add") as [Heq|]; [|done].
    by rewrite Heq in Hcode. }
  assert (String.eqb operation.1 "delete" = false) as ->.
  { unfold not_an_add in Hcode.
    destruct (String.eqb_spec operation.1 "delete") as [Heq|]; [|done].
    by rewrite Heq in Hcode. }
  rewrite !bind_run.
  by destruct (View.handle_sequential serializer operation.1 w2) as [[[]|e] w3].
Qed.

Lemma perform_loop_alone
    (self : View.Settings Store Instance Validated) operations idx b b0
    (w : world) :
  View.sequential self = false →
  View.serializer_collection b = [] →
  forallb (λ operation, not_an_add operation.1) operations = true →
  alternating operations = true →
  View.perform_loop self idx operations b w
  = View.perform_loop (one_by_one self) idx operations b0 w.
Proof.
  intros Hmode. revert idx b b0 w.
  induction operations as [|operation rest IH]; intros idx b b0 w Hempty;
    cbn [View.perform_loop forallb alternating]; [done|].
  intros [Hcode Hcodes]%andb_true_iff [Hnext Hrest]%andb_true_iff.
  rewrite !bind_run.
  pose proof (perform_operation_alone self idx operation (head rest) b b0 w
                Hmode Hempty Hcode) as Hturn.
  destruct (View.perform_operation self idx operation (head rest) b w)
    as [[b'|e1] w1],
    (View.perform_operation (one_by_one self) idx operation (head rest) b0 w)
    as [[b0'|e2] w2].
  - destruct Hturn as [<- Hempty'].
    { destruct rest as [|following ?]; [done|]. cbn [head].
      apply andb_true_iff in Hnext as [Hdiffers Htype].
      by apply negb_true_iff in Hdiffers. }
    by apply IH.
  - exfalso. apply Hturn. destruct rest as [|following ?]; [done|]. cbn [head].
    apply andb_true_iff in Hnext as [Hdiffers Htype].
    by apply negb_true_iff in Hdiffers.
  - exfalso. apply Hturn. destruct rest as [|following ?]; [done|]. cbn [head].
    apply andb_true_iff in Hnext as [Hdiffers Htype].
    by apply negb_true_iff in Hdiffers.
  - destruct Hturn as [<- <-]; [|done].
    destruct rest as [|following ?]; [done|]. cbn [head].
    apply andb_true_iff in Hnext as [Hdiffers Htype].
    by apply negb_true_iff in Hdiffers.
Qed.

(** On a request that has no [add] and in which neighbours have different
    codes, a view in bulk mode does what the view with the same serializer
    classes does in sequential mode: the same response or the same failure,
    and the same database, registry and response buffer afterwards. *)
Theorem bulk_view_on_single_operations_is_sequential
    (self : View.Settings Store Instance Validated)
    (parsed_operations : list (string * json)) (w : world) :
  View.sequential self = false →
  forallb (λ operation, not_an_add operation.1) parsed_operations = true →
  alternating parsed_operations = true →
  View.perform_operations self parsed_operations w
  = View.perform_operations (one_by_one self) parsed_operations w.
Proof.
  intros Hmode Hcodes Hneighbours. rewrite !perform_operations_run.
  by rewrite (perform_loop_alone self parsed_operations 0
                View.no_bulk_operation_data View.no_bulk_operation_data
                (View.set_response_data [] w)).
Qed.

(** ** A run of [add]s in bulk mode *)

Lemma substitute_lids_type d idx flag (w w' : world) obj t :
  View.substitute_lids (JDict d) idx flag w = (Ok obj, w') →
  Py.lookup "type" d = Some (JStr t) →
  Py.getitem obj "type" = Ok (JStr t).
Proof.
  intros Hwalk Htype.
  destruct (substitute_lids_outcome (JDict d) idx flag w) as (w1 & Heq & _).
  rewrite Hwalk in Heq. injection Heq as Hout _. symmetry in Hout.
  cbn [Outcome.substitute_lids] in Hout.
  destruct (Outcome.resolve_lid _ d idx flag) as [pending|]; [|discriminate].
  cbn [mbind result_bind] in Hout.
  destruct (Outcome.visit_items _ d pending) as [out|] eqn:Hits; [|discriminate].
  injection Hout as <-. rewrite getitem_dict.
  assert ("type" ≠ "id") as Hkey by discriminate.
  by rewrite (visit_items_lookup_scalar _ _ _ _ _ _ _ Hits Hkey Htype eq_refl).
Qed.

(** What a turn of the loop does with the payload of an [add] before it
    hands the serializer on: the walk over the payload, then
    [get_serializer]. *)
Definition serializer_of_add (self : View.Settings Store Instance Validated)
    (idx : nat) (obj : json) : M (View.Serializer Store Instance Validated) :=
  obj ← View.substitute_lids obj idx false;
  resource_type ← View.lift (Py.getitem obj "type");
  View.get_serializer self idx OP_ADD resource_type JNull obj false.

(** The same for the payloads of a run, one after the other, from [idx]
    on. *)
Fixpoint serializers_of_adds (self : View.Settings Store Instance Validated)
    (idx : nat) (objs : list json)
  : M (list (View.Serializer Store Instance Validated)) :=
  match objs with
  | [] => mret []
  | obj :: rest =>
      serializer ← serializer_of_add self idx obj;
      serializers ← serializers_of_adds self (S idx) rest;
      mret (serializer :: serializers)
  end.

Lemma perform_operation_add
    (self : View.Settings Store Instance Validated) idx obj next b (w : world) t :
  View.sequential self = false →
  Py.getitem obj "type" = Ok (JStr t) →
  match next with
  | Some following =>
      following.1 = OP_ADD ∧ Py.getitem following.2 "type" = Ok (JStr t)
  | None => True
  end →
  View.perform_operation self idx (OP_ADD, obj) next b w
  = (serializer ← serializer_of_add self idx obj;
     let collection := (View.serializer_collection b ++ [serializer])%list in
     match next with
     | Some _ =>
         mret {| View.serializer_collection := collection;
                 View.next_operation_code := OP_ADD;
                 View.next_resource_type := JStr t |}
     | None =>
         View.perform_bulk_create collection ;;
         mret {| View.serializer_collection := [];
                 View.next_operation_code := EmptyString;
                 View.next_resource_type := JStr EmptyString |}
     end) w.
Proof.
  intros Hmode Htype Hnext.
  destruct obj as [| | | | |d]; try discriminate.
  rewrite getitem_dict in Htype.
  destruct (Py.lookup "type" d) as [type|] eqn:Hlookup; [|discriminate].
  injection Htype as ->.
  unfold View.perform_operation, serializer_of_add. cbn [fst snd].
  compare_literals. rewrite !bind_run.
  destruct (View.substitute_lids (JDict d) idx false w) as [[obj'|e] w1] eqn:Hwalk;
    [|done].
  pose proof (substitute_lids_type _ _ _ _ _ _ _ Hwalk Hlookup) as Htype'.
  run. rewrite Htype'. run.
  destruct (View.get_serializer self idx OP_ADD (JStr t) JNull obj' false w1)
    as [[serializer|e] w2] eqn:Hserializer; [|done].
  pose proof (get_serializer_data _ _ _ _ _ _ _ _ _ _ Hserializer) as Hdata.
  rewrite Hmode. unfold View.handle_bulk. cbn [View.serializer_collection
    View.next_operation_code View.next_resource_type].
  destruct next as [following|].
  - destruct Hnext as [Hcode Hfollowing]. run. rewrite Hfollowing. run.
    rewrite Hcode. compare_literals. run. rewrite Hdata, Htype'. run.
    cbn [Py.eqb]. by rewrite String.eqb_refl.
  - run. compare_literals. run. done.
Qed.

Lemma perform_loop_adds
    (self : View.Settings Store Instance Validated) t objs idx b (w : world) :
  View.sequential self = false →
  objs ≠ [] →
  Forall (λ obj, Py.getitem obj "type" = Ok (JStr t)) objs →
  View.perform_loop self idx (map (pair OP_ADD) objs) b w
  = (serializers ← serializers_of_adds self idx objs;
     View.perform_bulk_create (View.serializer_collection b ++ serializers)) w.
Proof.
  intros Hmode. revert idx b w.
  induction objs as [|obj rest IH]; intros idx b w Hne Hall; [done|].
  apply Forall_cons in Hall as [Hobj Hrest].
  cbn [map View.perform_loop serializers_of_adds]. rewrite !bind_run.
  rewrite (perform_operation_add self idx obj _ b w t Hmode Hobj);
    [|destruct rest as [|obj' rest']; cbn; [done|]; split; [done|];
      by apply Forall_cons in Hrest as [? _]].
  rewrite bind_run.
  destruct (serializer_of_add self idx obj w) as [[serializer|e] w1]; [|done].
  destruct rest as [|obj' rest'].
  - cbn [map head serializers_of_adds View.perform_loop]. run.
    by destruct (View.perform_bulk_create _ w1) as [[[]|e] w2].
  - cbn [head map]. run. rewrite (IH (S idx) _ w1 ltac:(done) Hrest).
    rewrite !bind_run. cbn [View.serializer_collection].
    destruct (serializers_of_adds self (S idx) (obj' :: rest') w1)
      as [[serializers|e] w2]; [|done].
    run. by rewrite <- app_assoc.
Qed.

(** A view in bulk mode answers a request made of [add]s of one type as
    follows: it walks over the payload of each operation and gets its
    serializer, one operation after the other, and then hands all the
    serializers, in the order of the request, to one [perform_bulk_create],
    inside the [atomic] block.  Nothing is validated or written before the
    serializer of the last operation is there. *)
Theorem bulk_view_adds_a_run_at_once
    (self : View.Settings Store Instance Validated) (t : string)
    (objs : list json) (w : world) :
  View.sequential self = false →
  objs ≠ [] →
  Forall (λ obj, Py.getitem obj "type" = Ok (JStr t)) objs →
  View.perform_operations self (map (pair OP_ADD) objs) w
  = (View.put_response_data [] ;;
     View.atomic
       (serializers ← serializers_of_adds self 0 objs;
        View.perform_bulk_create serializers) ;;
     response_data ← View.get_response_data;
     mret {| View.body := response_data;
             View.status :=
               if Nat.eqb (length response_data) 0 then 204 else 200 |}) w.
Proof.
  intros Hmode Hne Hall. unfold View.perform_operations.
  rewrite !bind_run. destruct (View.put_response_data [] w) as [[[]|e] w0]; [|done].
  rewrite !bind_run. unfold View.atomic.
  by rewrite (perform_loop_adds self t objs 0 _ w0 Hmode Hne Hall).
Qed.

End ViewProperties.

(** * Requests, run

    The pipeline on the table of [Memory], from the request body to the
    response and the database. *)

(** C1: a view in bulk mode answers this request of two [add]s and two
    [update]s with 200 and commits, and the second update has not been
    applied: [handle_bulk] hands the first serializer of the run of updates
    to [handle_sequential] and drops the run.  The row [2] keeps its title
    and the journal of the table has one update. *)
Theorem bulk_view_commits_with_an_update_left_out :
  let request :=
    Requests.document
      [Requests.add "articles" [] "T1";
       Requests.add "articles" [] "T2";
       Requests.update "articles" [("id", JStr "1")] "U1";
       Requests.update "articles" [("id", JStr "2")] "U2"] in
  let run := Memory.post false request (Memory.start Memory.empty) in
  (View.status <$> run.1) = Ok 200
  ∧ Memory.journal (View.db run.2)
    = [Memory.BulkInserted ["1"; "2"]; Memory.Updated "1"]
  ∧ Py.lookup "1" (Memory.rows (View.db run.2))
    = Some (JDict [("type", JStr "articles"); ("title", JStr "U1");
                   ("id", JStr "1")])
  ∧ Py.lookup "2" (Memory.rows (View.db run.2))
    = Some (JDict [("type", JStr "articles"); ("title", JStr "T2");
                   ("id", JStr "2")]).
Proof. vm_compute. by repeat split. Qed.

(** C3: the registry outlives the request.  A first request adds an
    article under the lid [a]; a second request, which declares no lid,
    updates the article that the first one created by naming it [a]. *)
Theorem lid_of_an_earlier_request_resolves :
  let first := Requests.document [Requests.add "articles" [("lid", JStr "a")] "T"] in
  let second :=
    Requests.document [Requests.update "articles" [("lid", JStr "a")] "U"] in
  let after_first := Memory.post true first (Memory.start Memory.empty) in
  let after_second := Memory.post true second after_first.2 in
  is_ok after_first.1 = true
  ∧ View.registered (View.lid_to_id after_first.2) (Py.KStr "articles") (Py.KStr "a")
    = Some (JStr "1")
  ∧ (View.body <$> after_second.1)
    = Ok [JDict [("type", JStr "articles"); ("lid", JStr "a");
                 ("title", JStr "U"); ("id", JStr "1")]]
  ∧ Memory.journal (View.db after_second.2)
    = [Memory.Inserted "1"; Memory.Updated "1"].
Proof. vm_compute. by repeat split. Qed.

(** C5: a view in bulk mode, on a run of two [remove]s of one type,
    deletes the first instance with its own [delete] and leaves the second
    in the table; [perform_bulk_delete] is not called, nothing is recorded
    in the response for the run, and there is no batched delete.
    [handle_bulk] compares the operation code with ["delete"], and the code
    of a remove is ["remove"]. *)
Theorem bulk_view_removes_the_first_of_a_run_only :
  let request :=
    Requests.document
      [Requests.add "articles" [] "T1";
       Requests.add "articles" [] "T2";
       Requests.remove "articles" [("id", JStr "1")];
       Requests.remove "articles" [("id", JStr "2")]] in
  let run := Memory.post false request (Memory.start Memory.empty) in
  OP_REMOVE = "remove"
  ∧ (View.body <$> run.1)
    = Ok [JDict [("type", JStr "articles"); ("title", JStr "T1"); ("id", JStr "1")];
          JDict [("type", JStr "articles"); ("title", JStr "T2"); ("id", JStr "2")]]
  ∧ Memory.journal (View.db run.2)
    = [Memory.BulkInserted ["1"; "2"]; Memory.Deleted "1"]
  ∧ Memory.rows (View.db run.2)
    = [("2", JDict [("type", JStr "articles"); ("title", JStr "T2");
                    ("id", JStr "2")])].
Proof. vm_compute. by repeat split. Qed.

(** ** The parser on concrete operations *)

(** C8 at an [add] with an [href]. *)
Lemma href_outside_invoke_is_not_implemented_witness :
  let operation :=
    [("op", JStr "add"); ("href", JStr "/articles");
     ("data", JDict [("type", JStr "articles")])] in
  Py.lookup "op" operation = Some (JStr "add")
  ∧ Py.truthy (JStr "add") = true
  ∧ Py.is_str (JStr "add") OP_INVOKE = false
  ∧ present "href" operation = true
  ∧ JSONParser.check_operation 0 (JDict operation)
    = Raise (JsonApiParseError "not-implemented"
               "Operation 'href' is only supported for invoke operations. Use 'ref' instead."
               "/atomic:operations/0/href").
Proof.
  intros operation. do 4 (split; [reflexivity|]).
  exact (proj1 (href_outside_invoke_is_not_implemented
                  JSONParser.SUPPORTED_OPERATIONS JSONParser.parse_attributes
                  JSONParser.parse_relationships JSONParser.parse_metadata
                  (Requests.document [JDict operation]) 0 operation (JStr "add")
                  eq_refl eq_refl eq_refl eq_refl)).
Defined.

(** C8 as the spec has it: an [add] with an [href] member that is the empty
    string is accepted and parsed; and an operation with an [href] and
    without a code is refused for the code. *)
Lemma empty_href_outside_invoke_is_accepted :
  let operation :=
    [("op", JStr "add"); ("href", JStr "");
     ("data", JDict [("type", JStr "articles")])] in
  Py.lookup "href" operation = Some (JStr "")
  ∧ JSONParser.check_operation 0 (JDict operation) = Ok tt
  ∧ JSONParser.parse_data_operation (Requests.document [JDict operation]) 0
      (JDict operation)
    = Ok (OP_ADD, JDict [("type", JStr "articles")])
  ∧ JSONParser.check_operation 0
      (JDict [("href", JStr "/x"); ("data", JDict [("type", JStr "articles")])])
    = Raise (JsonApiParseError "missing-operation-code"
               "Received operation does not provide an operation code"
               "/atomic:operations/0/op").
Proof. vm_compute. by repeat split. Qed.

(** C7 at an update whose [data] have both an [id] and a [lid]. *)
Lemma target_carries_exactly_one_of_id_and_lid_witness :
  let target := [("type", JStr "articles"); ("id", JStr "1"); ("lid", JStr "a")] in
  let d := [("op", JStr OP_UPDATE); ("data", JDict target)] in
  Py.lookup "op" d = Some (JStr OP_UPDATE)
  ∧ (OP_UPDATE = OP_UPDATE ∨ OP_UPDATE = OP_REMOVE)
  ∧ present "href" d = false
  ∧ Py.lookup (checked_member OP_UPDATE d) d = Some (JDict target)
  ∧ target ≠ []
  ∧ (JSONParser.check_operation 0 (JDict d)
     = Raise (JsonApiParseError "multiple-id-fields"
                "Only one of `id`, `lid` may be specified"
                "/atomic:operations/0/data")
     ∧ JSONParser.parse_data_operation (Requests.document [JDict d]) 0 (JDict d)
       = Raise (JsonApiParseError "multiple-id-fields"
                  "Only one of `id`, `lid` may be specified"
                  "/atomic:operations/0/data"))
  ∧ error_id (JsonApiParseError "multiple-id-fields"
                "Only one of `id`, `lid` may be specified"
                "/atomic:operations/0/data")
    = Some "multiple-id-fields".
Proof.
  intros target d.
  assert (target ≠ []) as Hne by discriminate.
  split; [reflexivity|]. split; [by left|]. do 2 (split; [reflexivity|]).
  split; [exact Hne|].
  exact (target_carries_exactly_one_of_id_and_lid
           JSONParser.SUPPORTED_OPERATIONS JSONParser.parse_attributes
           JSONParser.parse_relationships JSONParser.parse_metadata
           (Requests.document [JDict d]) 0 d target OP_UPDATE
           eq_refl (or_introl eq_refl) eq_refl eq_refl Hne).
Defined.

(** C7 as the spec has it: an update whose target has both members, its
    [id] being the empty string, passes the checks; so does a remove whose
    [id] is null.  And an update with both members fails for its [href]
    when it has one; an update whose [data] are the empty object fails for
    want of primary data, and a remove whose [ref] is the empty object for
    want of a [ref], although neither target has an [id] or a [lid]. *)
Lemma target_with_an_empty_id_and_a_lid_passes :
  let target := [("type", JStr "articles"); ("id", JStr ""); ("lid", JStr "a")] in
  let target' := [("type", JStr "articles"); ("id", JNull); ("lid", JStr "a")] in
  let both := [("type", JStr "articles"); ("id", JStr "1"); ("lid", JStr "a")] in
  Py.lookup "id" target = Some (JStr "")
  ∧ Py.lookup "lid" target = Some (JStr "a")
  ∧ Parser.check_resource_identifier_object 0 (JDict target) (JStr OP_UPDATE)
    = Ok tt
  ∧ Parser.check_resource_identifier_object 0 (JDict target') (JStr OP_REMOVE)
    = Ok tt
  ∧ JSONParser.check_operation 0
      (JDict [("op", JStr "update"); ("data", JDict target)])
    = Ok tt
  ∧ JSONParser.check_operation 0
      (JDict [("op", JStr "remove"); ("ref", JDict target')])
    = Ok tt
  ∧ JSONParser.check_operation 0
      (JDict [("op", JStr "update"); ("href", JStr "/articles/1");
              ("data", JDict both)])
    = Raise (JsonApiParseError "not-implemented"
               "Operation 'href' is only supported for invoke operations. Use 'ref' instead."
               "/atomic:operations/0/href")
  ∧ JSONParser.check_operation 0
      (JDict [("op", JStr "update"); ("data", JDict [])])
    = Raise (MissingPrimaryData 0)
  ∧ error_id (MissingPrimaryData 0) = Some "missing-primary-data"
  ∧ JSONParser.check_operation 0
      (JDict [("op", JStr "remove"); ("ref", JDict [])])
    = Raise (JsonApiParseError "missing-ref-attribute"
               "`ref` must be part of remove operation"
               "/atomic:operations/0").
Proof. vm_compute. by repeat split. Qed.

(** C9 as the spec has it: the failure of [check_root] on a document with
    no operations points at the operations key, with no index and no field
    after it; that of a [remove] without [ref] points at the operation, with
    no field after the index. *)
Lemma envelope_failure_points_at_no_operation :
  Parser.check_root (JDict [])
  = Raise (JsonApiParseError "missing-operation-objects"
             "Received document does not contain operations objects"
             "/atomic:operations")
  ∧ (∀ idx field, "/atomic:operations" ≠ field_pointer idx field)
  ∧ JSONParser.check_operation 0 (JDict [("op", JStr "remove")])
    = Raise (JsonApiParseError "missing-ref-attribute"
               "`ref` must be part of remove operation"
               "/atomic:operations/0")
  ∧ (∀ field, "/atomic:operations/0" ≠ field_pointer 0 field).
Proof.
  split; [reflexivity|]. split; [|split; [reflexivity|]].
  - intros idx field. unfold field_pointer. cbn. discriminate.
  - intros field. unfold field_pointer. vm_compute. discriminate.
Qed.

(** The pointer of a failure of [parse_operation_metadata]: it has no
    leading slash, and where the index of the operation would be it has the
    [id] of the resource, its [lid], or [None]. *)
Lemma meta_failure_pointer :
  let meta_of resource :=
    error_pointer
      (match Parser.parse_operation_metadata (JDict resource) (JStr "x") with
       | Raise e => e
       | Ok _ => KeyError "meta"
       end) in
  meta_of [("type", JStr "articles"); ("id", JStr "7")]
  = Some "atomic:operations/7/meta"
  ∧ meta_of [("type", JStr "articles"); ("lid", JStr "a")]
    = Some "atomic:operations/a/meta"
  ∧ meta_of [("type", JStr "articles")] = Some "atomic:operations/None/meta"
  ∧ error_pointer
      (match Parser.parse_operation_metadata
               (JDict [("type", JStr "articles"); ("id", JStr "7")])
               (JDict [("include", JStr "author")]) with
       | Raise e => e
       | Ok _ => KeyError "meta"
       end)
    = Some "atomic:operations/7/meta/include".
Proof. vm_compute. by repeat split. Qed.

(** C6 at a relationship update without [data] and at one with a null
    [data]. *)
Lemma relationship_update_needs_data_and_leaves_no_entry_witness :
  let ref :=
    [("type", JStr "articles"); ("id", JStr "1"); ("relationship", JStr "author")] in
  let without := [("op", JStr "update"); ("ref", JDict ref)] in
  let with_null := [("op", JStr "update"); ("ref", JDict ref); ("data", JNull)] in
  (Py.lookup "op" without = Some (JStr OP_UPDATE)
   ∧ present "href" without = false
   ∧ Py.lookup "ref" without = Some (JDict ref)
   ∧ Parser.check_resource_identifier_object 0 (JDict ref) (JStr OP_UPDATE) = Ok tt
   ∧ present "relationship" ref = true
   ∧ Py.lookup "data" without = None
   ∧ JSONParser.check_operation 0 (JDict without) = Raise (MissingPrimaryData 0))
  ∧ (Py.lookup "op" with_null = Some (JStr OP_UPDATE)
     ∧ present "href" with_null = false
     ∧ Py.lookup "ref" with_null = Some (JDict ref)
     ∧ Py.lookup "data" with_null = Some JNull
     ∧ JSONParser.check_operation 0 (JDict with_null) = Ok tt
     ∧ let parsed :=
         (OP_UPDATE_RELATIONSHIP,
          JDict [("id", JStr "1"); ("type", JStr "articles"); ("author", JNull)]) in
       JSONParser.parse_data_operation (Requests.document [JDict with_null]) 0
         (JDict with_null) = Ok parsed
       ∧ ∀ sequential,
           View.response_data
             (View.perform_operation (Memory.view sequential) 0 parsed None
                View.no_bulk_operation_data (Memory.start Memory.empty)).2
           = []).
Proof.
  intros ref without with_null. split.
  - do 6 (split; [reflexivity|]).
    exact (proj1 (proj1 (relationship_update_needs_data_and_leaves_no_entry
                           (Store := Memory.store) (Instance := Memory.instance)
                           (Validated := json)
                           JSONParser.SUPPORTED_OPERATIONS
                           JSONParser.parse_attributes JSONParser.parse_relationships
                           JSONParser.parse_metadata
                           (Requests.document [JDict without]) 0 without ref
                           eq_refl eq_refl eq_refl eq_refl eq_refl) eq_refl)).
  - do 4 (split; [reflexivity|]).
    destruct (proj2 (relationship_update_needs_data_and_leaves_no_entry
                       (Store := Memory.store) (Instance := Memory.instance)
                       (Validated := json)
                       JSONParser.SUPPORTED_OPERATIONS
                       JSONParser.parse_attributes JSONParser.parse_relationships
                       JSONParser.parse_metadata
                       (Requests.document [JDict with_null]) 0 with_null ref
                       eq_refl eq_refl eq_refl eq_refl eq_refl) eq_refl)
      as [Hcheck Hparsed].
    split; [exact Hcheck|]. intros parsed. split; [reflexivity|].
    intros sequential.
    exact (proj2 (Hparsed parsed eq_refl) (Memory.view sequential) 0 None
             View.no_bulk_operation_data (Memory.start Memory.empty)).
Defined.

(** C6 as the spec has it: an update that names a relationship in its
    [ref] and has no [data] member, the [ref] being without [id] and [lid],
    is refused for the missing identifier; with an [href] it is refused as
    not implemented; and with a relationship that is the empty string, for
    the name of the relationship. *)
Lemma relationship_update_without_data_fails_otherwise :
  let ref := [("type", JStr "articles"); ("relationship", JStr "author")] in
  let ref' :=
    [("type", JStr "articles"); ("id", JStr "1"); ("relationship", JStr "author")] in
  let ref'' :=
    [("type", JStr "articles"); ("id", JStr "1"); ("relationship", JStr "")] in
  present "relationship" ref = true
  ∧ Py.lookup "data" [("op", JStr "update"); ("ref", JDict ref)] = None
  ∧ JSONParser.check_operation 0 (JDict [("op", JStr "update"); ("ref", JDict ref)])
    = Raise (JsonApiParseError "missing-id"
               "The resource identifier object must contain an `id` member or a `lid` member"
               "/atomic:operations/0/data")
  ∧ JSONParser.check_operation 0
      (JDict [("op", JStr "update"); ("ref", JDict ref'); ("href", JStr "/x")])
    = Raise (JsonApiParseError "not-implemented"
               "Operation 'href' is only supported for invoke operations. Use 'ref' instead."
               "/atomic:operations/0/href")
  ∧ JSONParser.check_operation 0
      (JDict [("op", JStr "update"); ("ref", JDict ref'')])
    = Raise (JsonApiParseError "missing-relationship-naming"
               "relationship must be named by the `relationship` attribute"
               "/atomic:operations/0/ref").
Proof. vm_compute. by repeat split. Qed.

(** ** The view on concrete operations *)

Lemma scalar_ids_empty : scalar_ids ∅.
Proof. intros t l id. unfold View.registered. by rewrite lookup_empty. Qed.





(** C4 at an [add] followed by the [remove] of what it created. *)
Lemma response_lists_the_entries_in_operation_order_witness :
  let self := Memory.view true in
  let w := Memory.start Memory.empty in
  let parsed_operations :=
    [(OP_ADD, JDict [("type", JStr "articles"); ("title", JStr "T")]);
     (OP_REMOVE, JDict [("id", JStr "1"); ("type", JStr "articles")])] in
  let response :=
    {| View.body := [JDict [("type", JStr "articles"); ("title", JStr "T");
                            ("id", JStr "1")]];
       View.status := 200 |} in
  let run := View.perform_operations self parsed_operations w in
  View.sequential self = true
  ∧ run = (Ok response, run.2)
  ∧ length (View.body response) = entry_count parsed_operations.
Proof.
  intros self w parsed_operations response run.
  assert (run = (Ok response, run.2)) as Hrun by (vm_compute; reflexivity).
  split; [reflexivity|]. split; [exact Hrun|].
  exact (proj1 (response_lists_the_entries_in_operation_order self
                  parsed_operations w run.2 response eq_refl Hrun)).
Defined.

(** C4 as the spec has it: of these two operations, neither of which is a
    relationship update, the [add] alone has an entry in the response. *)
Lemma remove_leaves_no_entry_in_the_response :
  let request :=
    Requests.document
      [Requests.add "articles" [] "T";
       Requests.remove "articles" [("id", JStr "1")]] in
  JSONParser.parse_data request
  = Ok [(OP_ADD, JDict [("type", JStr "articles"); ("title", JStr "T")]);
        (OP_REMOVE, JDict [("id", JStr "1"); ("type", JStr "articles")])]
  ∧ (Memory.post true request (Memory.start Memory.empty)).1
    = Ok {| View.body := [JDict [("type", JStr "articles"); ("title", JStr "T");
                                 ("id", JStr "1")]];
            View.status := 200 |}.
Proof. vm_compute. by repeat split. Qed.

(** A request whose second [add] fails in [save], after it has written. *)
Lemma failed_request_leaves_the_database_witness :
  let self := Memory.view false in
  let w := Memory.start Memory.empty in
  let parsed_operations :=
    [(OP_ADD, JDict [("type", JStr "articles"); ("title", JStr "T")]);
     (OP_UPDATE, JDict [("type", JStr "articles"); ("id", JStr "1");
                        ("explode", JBool true)])] in
  let run := View.perform_operations self parsed_operations w in
  run.1 = Raise (HandlerError
                   (JDict [("type", JStr "articles"); ("id", JStr "1");
                           ("explode", JBool true)]))
  ∧ View.db run.2 = Memory.empty.
Proof.
  intros self w parsed_operations run.
  split; [by vm_compute|].
  apply (failed_request_leaves_the_database self parsed_operations w run.2
           (HandlerError (JDict [("type", JStr "articles"); ("id", JStr "1");
                                 ("explode", JBool true)]))).
  by vm_compute.
Defined.

(** A request of three operations whose second one fails: the third is not
    run, and the database is put back. *)
Lemma first_failure_ends_the_request_witness :
  let self := Memory.view true in
  let w := Memory.start Memory.empty in
  let first := (OP_ADD, JDict [("type", JStr "articles"); ("title", JStr "T")]) in
  let second :=
    (OP_ADD, JDict [("type", JStr "articles"); ("explode", JBool true)]) in
  let third := (OP_ADD, JDict [("type", JStr "articles"); ("title", JStr "V")]) in
  let w1 :=
    (View.perform_prefix self 0 [first] (Some second)
       View.no_bulk_operation_data (View.set_response_data [] w)).2 in
  let w2 :=
    (View.perform_operation self 1 second (Some third)
       View.no_bulk_operation_data w1).2 in
  Memory.journal (View.db w2) = [Memory.Inserted "1"; Memory.Inserted "2"]
  ∧ View.perform_operations self [first; second; third] w
    = (Raise (HandlerError second.2), View.set_db Memory.empty w2).
Proof.
  intros self w first second third w1 w2. split; [by vm_compute|].
  apply (first_failure_ends_the_request self [first] [third] second
           View.no_bulk_operation_data w w1 w2 (HandlerError second.2));
    by vm_compute.
Defined.

(** ** What the parser hands on, on concrete operations *)

(** An update of the relationship [author] of an article: the parser turns
    the code into that of a relationship update. *)
Lemma parsed_operation_has_a_known_code_witness :
  let operation :=
    JDict [("op", JStr "update");
           ("ref", JDict [("type", JStr "articles"); ("id", JStr "1");
                          ("relationship", JStr "author")]);
           ("data", JDict [("type", JStr "people"); ("id", JStr "9")])] in
  let parsed :=
    (OP_UPDATE_RELATIONSHIP,
     JDict [("id", JStr "1"); ("type", JStr "articles");
            ("author", JDict [("type", JStr "people"); ("id", JStr "9")])]) in
  JSONParser.parse_data_operation (Requests.document [operation]) 0 operation
  = Ok parsed
  ∧ ∃ d code payload,
      operation = JDict d
      ∧ Py.lookup "op" d = Some (JStr code)
      ∧ code ∈ [OP_ADD; OP_UPDATE; OP_REMOVE; OP_INVOKE]
      ∧ parsed = (if String.eqb code OP_UPDATE && present "ref" d
                  then OP_UPDATE_RELATIONSHIP else code, JDict payload).
Proof.
  intros operation parsed.
  assert (JSONParser.parse_data_operation (Requests.document [operation]) 0
            operation = Ok parsed) as H by (vm_compute; reflexivity).
  split; [exact H|].
  exact (parsed_operation_has_a_known_code JSONParser.SUPPORTED_OPERATIONS
           JSONParser.parse_attributes JSONParser.parse_relationships
           JSONParser.parse_metadata _ 0 operation parsed H).
Defined.

(** An [invoke] of the action [publish] on an article, with attributes in
    its [data]: the [id] of the [ref] is not in what the parser hands on. *)
Lemma invoke_hands_on_type_href_and_data_witness :
  let d :=
    [("op", JStr "invoke");
     ("ref", JDict [("type", JStr "articles"); ("id", JStr "1");
                    ("href", JStr "/articles/1/publish/")]);
     ("data", JDict [("attributes", JDict [("title", JStr "T")])])] in
  let document := Requests.document [JDict d] in
  let parsed :=
    (OP_INVOKE,
     JDict [("type", JStr "articles"); ("href", JStr "/articles/1/publish/");
            ("data", JDict [("type", JNull); ("title", JStr "T")])]) in
  Py.lookup "op" d = Some (JStr OP_INVOKE)
  ∧ JSONParser.parse_data_operation document 0 (JDict d) = Ok parsed
  ∧ ∃ ref type href has_attributes structured data metadata payload,
      Py.lookup "ref" d = Some (JDict ref)
      ∧ Py.lookup "type" ref = Some type ∧ Py.truthy type = true
      ∧ Py.lookup "href" ref = Some href ∧ Py.truthy href = true
      ∧ (let raw := default (JDict []) (Py.lookup "data" d) in
         Py.contains "attributes" raw = Ok has_attributes
         ∧ (if has_attributes : bool then structured = true
            else Py.contains "relationships" raw = Ok structured)
         ∧ (if structured : bool
            then ∃ p, Parser.parse_operation JSONParser.parse_attributes
                        JSONParser.parse_relationships JSONParser.parse_metadata
                        raw document = Ok p
                      ∧ data = JDict p
            else data = raw))
      ∧ Parser.parse_operation_metadata (JDict ref)
          (default JNull (Py.lookup "meta" d)) = Ok metadata
      ∧ payload = Py.update [("type", type); ("href", href); ("data", data)] metadata
      ∧ parsed = (OP_INVOKE, JDict payload)
      ∧ Py.lookup "id" payload = None
      ∧ Py.lookup "lid" payload = None.
Proof.
  intros d document parsed.
  assert (JSONParser.parse_data_operation document 0 (JDict d) = Ok parsed)
    as H by (vm_compute; reflexivity).
  split; [reflexivity|]. split; [exact H|].
  exact (invoke_hands_on_type_href_and_data JSONParser.SUPPORTED_OPERATIONS
           JSONParser.parse_attributes JSONParser.parse_relationships
           JSONParser.parse_metadata document 0 d parsed eq_refl H).
Defined.

(** A [remove] with a [ref] to the article 1 and a [data] member that names
    the article 2: the [ref] is checked, and the article 2 is handed on. *)
Lemma standard_operation_is_parsed_from_data_before_ref_witness :
  let d :=
    [("op", JStr "remove");
     ("ref", JDict [("type", JStr "articles"); ("id", JStr "1")]);
     ("data", JDict [("type", JStr "articles"); ("id", JStr "2")])] in
  let document := Requests.document [JDict d] in
  let parsed := (OP_REMOVE, JDict [("id", JStr "2"); ("type", JStr "articles")]) in
  Py.lookup "op" d = Some (JStr OP_REMOVE)
  ∧ OP_REMOVE ≠ OP_INVOKE
  ∧ (OP_REMOVE = OP_UPDATE → present "ref" d = false)
  ∧ JSONParser.parse_data_operation document 0 (JDict d) = Ok parsed
  ∧ ∃ p m,
      Parser.parse_operation JSONParser.parse_attributes
        JSONParser.parse_relationships JSONParser.parse_metadata
        (JDict [("type", JStr "articles"); ("id", JStr "2")]) document = Ok p
      ∧ Parser.parse_operation_metadata
          (JDict [("type", JStr "articles"); ("id", JStr "2")]) JNull = Ok m
      ∧ parsed = (OP_REMOVE, JDict (Py.update p m)).
Proof.
  intros d document parsed.
  assert (JSONParser.parse_data_operation document 0 (JDict d) = Ok parsed)
    as H by (vm_compute; reflexivity).
  assert (OP_REMOVE ≠ OP_INVOKE) as Hcode by discriminate.
  assert (OP_REMOVE = OP_UPDATE → present "ref" d = false) as Hupdate
    by discriminate.
  split; [reflexivity|]. split; [exact Hcode|]. split; [exact Hupdate|].
  split; [exact H|].
  exact (standard_operation_is_parsed_from_data_before_ref
           JSONParser.SUPPORTED_OPERATIONS JSONParser.parse_attributes
           JSONParser.parse_relationships JSONParser.parse_metadata
           document 0 d OP_REMOVE parsed eq_refl Hcode Hupdate H).
Defined.

(** A resource object with an attribute called [id]: the attribute takes
    the place of the [id] of the resource. *)
Lemma parse_operation_lets_later_parts_win_witness :
  let r :=
    [("type", JStr "articles"); ("id", JStr "1");
     ("attributes", JDict [("id", JStr "7"); ("title", JStr "T")])] in
  let document := Requests.document [] in
  let p := [("id", JStr "7"); ("type", JStr "articles"); ("title", JStr "T")] in
  Parser.parse_operation JSONParser.parse_attributes
    JSONParser.parse_relationships JSONParser.parse_metadata (JDict r) document
  = Ok p
  ∧ ∃ ident attributes relationships metadata,
      Parser.parse_id_lid_and_type (JDict r) = Ok ident
      ∧ JSONParser.parse_attributes (JDict r) = Ok attributes
      ∧ JSONParser.parse_relationships (JDict r) = Ok relationships
      ∧ JSONParser.parse_metadata document = Ok metadata
      ∧ (∀ k,
           Py.lookup k p
           = overriding k metadata ∪ (overriding k relationships
               ∪ (overriding k attributes ∪ Py.lookup k ident)))
      ∧ Py.lookup "id" ident = Py.lookup "id" r
      ∧ Py.lookup "type" ident = Some (default JNull (Py.lookup "type" r))
      ∧ Py.lookup "lid" ident
        = (if Py.truthy (default JNull (Py.lookup "lid" r))
           then Py.lookup "lid" r else None)
      ∧ ∀ k, k ≠ "id" → k ≠ "type" → k ≠ "lid" → Py.lookup k ident = None.
Proof.
  intros r document p.
  assert (Parser.parse_operation JSONParser.parse_attributes
            JSONParser.parse_relationships JSONParser.parse_metadata (JDict r)
            document = Ok p) as H by (vm_compute; reflexivity).
  split; [exact H|].
  exact (parse_operation_lets_later_parts_win JSONParser.parse_attributes
           JSONParser.parse_relationships JSONParser.parse_metadata
           r document p H).
Defined.

(** ** Includes and renderings, run *)

(** The include [author.employer] of an article is accepted, and so is
    [author]; the names are such that [inflection.underscore] leaves them
    as they are. *)
Lemma include_of_a_path_admits_its_prefixes_witness :
  let underscore := λ name : string, name in
  let cls := Includes.article_serializer in
  Serializers.validate_path underscore cls
    (Serializers.split ("author" +:+ String "." "employer")) "author.employer"
  = Serializers.Passed
  ∧ Serializers.validate_path underscore cls (Serializers.split "author") "author"
    = Serializers.Passed.
Proof.
  intros underscore cls.
  assert (Serializers.validate_path underscore cls
            (Serializers.split ("author" +:+ String "." "employer"))
            "author.employer" = Serializers.Passed) as H by reflexivity.
  split; [exact H|].
  exact (include_of_a_path_admits_its_prefixes underscore cls "author"
           "employer" "author.employer" "author" H).
Defined.

(** The data of a failed request as the exception handler leaves them, two
    errors after an article: the response is the first error alone. *)
Lemma first_error_is_the_whole_response_witness :
  let article := [("id", JStr "1"); ("title", JStr "T")] in
  let error := [("detail", JStr "Not found."); ("status", JStr "404")] in
  let other := [("detail", JStr "Invalid."); ("status", JStr "400")] in
  Rendering.int (JStr "404") = Some 404%Z
  ∧ (400 ≤ 404 ≤ 600)%Z
  ∧ Rendering.render [article; error; other]
    = Renderer.Bytes "{'errors': [{'detail': 'Not found.', 'status': '404'}]}".
Proof.
  intros article error other.
  assert (400 ≤ 404 ≤ 600)%Z as Hstatus by lia.
  assert ("{'errors': [{'detail': 'Not found.', 'status': '404'}]}"
          ≠ EmptyString) as Hcontent by discriminate.
  assert (Forall2
            (rendered_as id Rendering.int Rendering.render_errors
               Rendering.render_primary_data)
            [article] ["{'data': {'id': '1', 'title': 'T'}}"]) as Hall
    by (repeat constructor).
  split; [reflexivity|]. split; [exact Hstatus|].
  exact (first_error_is_the_whole_response id Rendering.int
           Rendering.render_errors Rendering.render_primary_data
           [article] _ error [other] 404 _ Hall eq_refl Hstatus eq_refl
           Hcontent).
Defined.

(** Two articles, rendered and joined. *)
Lemma results_are_joined_in_the_order_of_the_data_witness :
  let first := [("id", JStr "1"); ("title", JStr "T")] in
  let second := [("id", JStr "2"); ("title", JStr "U")] in
  let contents :=
    ["{'data': {'id': '1', 'title': 'T'}}";
     "{'data': {'id': '2', 'title': 'U'}}"] in
  Forall2
    (rendered_as id Rendering.int Rendering.render_errors
       Rendering.render_primary_data) [first; second] contents
  ∧ Rendering.render [first; second]
    = Renderer.Bytes
        ("{" +:+ Renderer.quote +:+ ATOMIC_RESULTS +:+ Renderer.quote +:+ ":"
         +:+ ("[" +:+ String.concat "," contents +:+ "]") +:+ "}").
Proof.
  intros first second contents.
  assert (Forall2
            (rendered_as id Rendering.int Rendering.render_errors
               Rendering.render_primary_data) [first; second] contents) as Hall
    by (repeat constructor).
  split; [exact Hall|].
  exact (results_are_joined_in_the_order_of_the_data id Rendering.int
           Rendering.render_errors Rendering.render_primary_data
           [first; second] contents Hall).
Defined.

(** An article that renders, then one that does not. *)
Lemma failed_rendering_leaves_render_witness :
  let first := [("id", JStr "1"); ("title", JStr "T")] in
  let second := [("id", JStr "2"); ("unserializable", JBool true)] in
  let third := [("id", JStr "3"); ("title", JStr "V")] in
  Rendering.render_primary_data second = Renderer.Raises "unserializable"
  ∧ Rendering.render [first; second; third] = Renderer.Raises "unserializable".
Proof.
  intros first second third.
  assert (Forall2
            (rendered_as id Rendering.int Rendering.render_errors
               Rendering.render_primary_data)
            [first] ["{'data': {'id': '1', 'title': 'T'}}"]) as Hall
    by (repeat constructor).
  split; [reflexivity|].
  exact (failed_rendering_leaves_render id Rendering.int
           Rendering.render_errors Rendering.render_primary_data
           [first] _ second [third] "unserializable" Hall eq_refl eq_refl).
Defined.

(** ** The view on the table of [Memory] *)

(** The [remove] of an article that the table does not have. *)
Lemma missing_object_is_reported_at_its_operation_witness :
  let self := Memory.view true in
  let w := Memory.start Memory.empty in
  let operation :=
    (OP_REMOVE, JDict [("id", JStr "9"); ("type", JStr "articles")]) in
  operation.1 ∈ [OP_UPDATE; OP_UPDATE_RELATIONSHIP; OP_REMOVE]
  ∧ View.perform_operation self 0 operation None View.no_bulk_operation_data w
    = (Raise (View.object_does_not_exist (JStr "9") 0), w)
  ∧ error_pointer (View.object_does_not_exist (JStr "9") 0)
    = Some "/atomic:operations/0/data/id".
Proof.
  intros self w operation.
  assert (operation.1 ∈ [OP_UPDATE; OP_UPDATE_RELATIONSHIP; OP_REMOVE]) as Hcode
    by (rewrite !elem_of_cons; auto).
  split; [exact Hcode|].
  destruct (missing_object_is_reported_at_its_operation self 0 operation None
              View.no_bulk_operation_data w w operation.2 (JStr "articles")
              Memory.serializer_class (JStr "9") Hcode eq_refl eq_refl eq_refl
              eq_refl eq_refl) as (Hrun & _ & Hpointer & _).
  split; [exact Hrun|exact Hpointer].
Defined.

(** An [add] of a type for which the view has no serializer class. *)
Lemma unregistered_type_is_a_configuration_error_witness :
  let self := Memory.view true in
  let w := Memory.start Memory.empty in
  let operation :=
    (OP_ADD, JDict [("type", JStr "comments"); ("title", JStr "T")]) in
  View.serializer_classes self !! "add:comments" = None
  ∧ ∃ msg,
      View.perform_operation self 0 operation None View.no_bulk_operation_data w
      = (Raise (ImproperlyConfigured msg), w)
      ∧ same_entries w w.
Proof.
  intros self w operation. split; [reflexivity|].
  exact (unregistered_type_is_a_configuration_error self 0 operation None
           View.no_bulk_operation_data w w operation.2 "comments"
           eq_refl eq_refl eq_refl eq_refl).
Defined.

(** Two [add]s with a lid each, in bulk mode. *)
Lemma bulk_view_registers_no_lid_witness :
  let self := Memory.view false in
  let w := Memory.start Memory.empty in
  let parsed_operations :=
    [(OP_ADD, JDict [("type", JStr "articles"); ("lid", JStr "a");
                     ("title", JStr "T")]);
     (OP_ADD, JDict [("type", JStr "articles"); ("lid", JStr "b");
                     ("title", JStr "U")])] in
  let run := View.perform_operations self parsed_operations w in
  View.sequential self = false
  ∧ is_ok run.1 = true
  ∧ ∀ t l, View.registered (View.lid_to_id run.2) t l
           = View.registered (View.lid_to_id w) t l.
Proof.
  intros self w parsed_operations run. split; [reflexivity|].
  split; [by vm_compute|].
  exact (bulk_view_registers_no_lid self parsed_operations w run.2 run.1
           eq_refl (surjective_pairing run)).
Defined.

(** The update of the author of the article 1, as a relationship update
    and as an update. *)
Lemma relationship_update_writes_what_the_update_writes_witness :
  let self := Memory.view true in
  let w :=
    Memory.start
      {| Memory.rows := [("1", JDict [("type", JStr "articles");
                                      ("title", JStr "T"); ("id", JStr "1")])];
         Memory.next_pk := 2;
         Memory.journal := [] |} in
  let obj :=
    JDict [("id", JStr "1"); ("type", JStr "articles");
           ("author", JDict [("type", JStr "people"); ("id", JStr "9")])] in
  let updated :=
    View.perform_operation self 0 (OP_UPDATE, obj) None
      View.no_bulk_operation_data w in
  let related :=
    View.perform_operation self 0 (OP_UPDATE_RELATIONSHIP, obj) None
      View.no_bulk_operation_data w in
  View.sequential self = true
  ∧ Memory.journal (View.db updated.2) = [Memory.Updated "1"]
  ∧ (∀ b', updated.1 = Ok b' → related.1 = Ok b')
  ∧ (∀ e, related.1 = Raise e → updated.1 = Raise e)
  ∧ View.db related.2 = View.db updated.2
  ∧ View.lid_to_id related.2 = View.lid_to_id updated.2
  ∧ View.response_data related.2 = View.response_data w.
Proof.
  intros self w obj updated related. split; [reflexivity|].
  split; [by vm_compute|].
  exact (relationship_update_writes_what_the_update_writes self 0 obj None
           View.no_bulk_operation_data w eq_refl).
Defined.

(** A request that removes the one article of the table is answered 204,
    with no entry. *)
Lemma response_status_counts_the_entries_witness :
  let self := Memory.view true in
  let w :=
    Memory.start
      {| Memory.rows := [("1", JDict [("type", JStr "articles");
                                      ("title", JStr "T"); ("id", JStr "1")])];
         Memory.next_pk := 2;
         Memory.journal := [] |} in
  let parsed_operations :=
    [(OP_REMOVE, JDict [("id", JStr "1"); ("type", JStr "articles")])] in
  let response := {| View.body := []; View.status := 204 |} in
  let run := View.perform_operations self parsed_operations w in
  View.sequential self = true
  ∧ run = (Ok response, run.2)
  ∧ View.status response
    = (if Nat.eqb (entry_count parsed_operations) 0 then 204 else 200)
  ∧ (View.status response = 204 ↔ View.body response = []).
Proof.
  intros self w parsed_operations response run.
  assert (run = (Ok response, run.2)) as Hrun by (vm_compute; reflexivity).
  split; [reflexivity|]. split; [exact Hrun|].
  exact (response_status_counts_the_entries self parsed_operations w run.2
           response eq_refl Hrun).
Defined.

(** An identifier entered under the lid [1] is found under the lid [True],
    which Python takes for the same key. *)
Lemma registered_lid_is_found_again_witness :
  let w := Memory.start Memory.empty in
  Py.hash_key (JNum 1) = Ok (Py.KNum 1)
  ∧ Py.hash_key (JBool true) = Ok (Py.KNum 1)
  ∧ ∃ w1 w2,
      View.lid_to_id_setitem (JStr "articles") (JNum 1) (JStr "7") w = (Ok tt, w1)
      ∧ View.lid_to_id_lookup (JStr "articles") (JBool true) w1 = (Ok (JStr "7"), w2)
      ∧ same_entries w1 w2
      ∧ (∀ t' l', (t', l') ≠ (Py.KStr "articles", Py.KNum 1) →
                  View.registered (View.lid_to_id w1) t' l'
                  = View.registered (View.lid_to_id w) t' l')
      ∧ View.db w1 = View.db w
      ∧ View.response_data w1 = View.response_data w.
Proof.
  intros w. split; [reflexivity|]. split; [reflexivity|].
  exact (registered_lid_is_found_again (JStr "articles") (JNum 1) (JStr "7")
           (JStr "articles") (JBool true) w (Py.KStr "articles") (Py.KNum 1)
           eq_refl eq_refl eq_refl eq_refl).
Defined.

(** The payload of an update that names its author by [id]. *)
Lemma payload_without_lids_passes_the_walk_unchanged_witness :
  let w := Memory.start Memory.empty in
  let data :=
    JDict [("id", JStr "1"); ("type", JStr "articles");
           ("author", JDict [("type", JStr "people"); ("id", JStr "9")])] in
  lid_free data = true
  ∧ ∃ w', View.substitute_lids data 0 true w = (Ok data, w')
          ∧ same_entries w w'.
Proof.
  intros w data. split; [reflexivity|].
  exact (payload_without_lids_passes_the_walk_unchanged data 0 true w eq_refl).
Defined.

(** The payload of an update that names its article by a lid of the
    registry: the walk adds the [id] after the members that it had. *)
Lemma walk_touches_id_members_only_witness :
  let w :=
    (View.lid_to_id_setitem (JStr "articles") (JStr "a") (JStr "1")
       (Memory.start Memory.empty)).2 in
  let d := [("type", JStr "articles"); ("lid", JStr "a"); ("title", JStr "T")] in
  let run := View.substitute_lids (JDict d) 0 true w in
  run.1 = Ok (JDict (d ++ [("id", JStr "1")]))
  ∧ ∃ out,
      JDict (d ++ [("id", JStr "1")]) = JDict out
      ∧ (map fst out = map fst d
         ∨ (Py.lookup "id" d = None ∧ map fst out = (map fst d ++ ["id"])%list))
      ∧ ∀ k v,
          k ≠ "id" → Py.lookup k d = Some v → scalar v = true →
          Py.lookup k out = Some v.
Proof.
  intros w d run.
  assert (run = (Ok (JDict (d ++ [("id", JStr "1")])), run.2)) as Hrun
    by (vm_compute; reflexivity).
  split; [by rewrite Hrun|].
  exact (walk_touches_id_members_only d 0 true w run.2 _ Hrun).
Defined.

(** An [update] and then a [remove] of the article 1, in bulk mode. *)
Lemma bulk_view_on_single_operations_is_sequential_witness :
  let self := Memory.view false in
  let w :=
    Memory.start
      {| Memory.rows := [("1", JDict [("type", JStr "articles");
                                      ("title", JStr "T"); ("id", JStr "1")])];
         Memory.next_pk := 2;
         Memory.journal := [] |} in
  let parsed_operations :=
    [(OP_UPDATE, JDict [("id", JStr "1"); ("type", JStr "articles");
                        ("title", JStr "U")]);
     (OP_REMOVE, JDict [("id", JStr "1"); ("type", JStr "articles")])] in
  View.sequential self = false
  ∧ forallb (λ operation, not_an_add operation.1) parsed_operations = true
  ∧ alternating parsed_operations = true
  ∧ Memory.journal
      (View.db (View.perform_operations self parsed_operations w).2)
    = [Memory.Updated "1"; Memory.Deleted "1"]
  ∧ View.perform_operations self parsed_operations w
    = View.perform_operations (one_by_one self) parsed_operations w.
Proof.
  intros self w parsed_operations. do 3 (split; [reflexivity|]).
  split; [by vm_compute|].
  exact (bulk_view_on_single_operations_is_sequential self parsed_operations w
           eq_refl eq_refl eq_refl).
Defined.

(** An [invoke] whose [href] is the path of the action [publish] of the
    article 1, with a slash at its end. *)
Lemma invoke_is_served_by_the_class_of_its_action_witness :
  let self :=
    {| View.serializer_classes :=
         list_to_map [("invoke:articles/publish", Memory.serializer_class)];
       View.sequential := true |} in
  slashless "publish"
  ∧ "/articles/1/" +:+ "publish" +:+ slashes 1 = "/articles/1/publish/"
  ∧ View.get_serializer_class self OP_INVOKE (JStr "articles")
      (JStr "/articles/1/publish/")
    = Ok Memory.serializer_class.
Proof.
  intros self.
  assert (slashless "publish") as Hless by (by apply slashless_characters).
  assert ("publish" ≠ "") as Hne by discriminate.
  split; [exact Hless|]. split; [reflexivity|].
  exact (invoke_is_served_by_the_class_of_its_action self (JStr "articles")
           "/articles/1/" "publish" 1 Memory.serializer_class
           (or_intror (ex_intro _ "/articles/1" eq_refl)) Hless Hne eq_refl).
Defined.

(** The [remove] of the article 1, named by its [id]. *)
Lemma accepted_operation_has_a_typed_target_witness :
  let operation := Requests.remove "articles" [("id", JStr "1")] in
  JSONParser.check_operation 0 operation = Ok tt
  ∧ ∃ d code target,
      operation = JDict d
      ∧ Py.lookup "op" d = Some (JStr code)
      ∧ Py.lookup (checked_member code d) d = Some (JDict target)
      ∧ present "type" target = true
      ∧ (code = OP_UPDATE ∨ code = OP_REMOVE →
         xorb (present "id" target) (present "lid" target) = true)
      ∧ (code = OP_INVOKE → present "href" target = true)
      ∧ (code = OP_UPDATE → present "ref" d = true →
         present "relationship" target = true ∧ is_Some (Py.lookup "data" d)).
Proof.
  intros operation.
  assert (JSONParser.check_operation 0 operation = Ok tt) as H by reflexivity.
  split; [exact H|].
  exact (accepted_operation_has_a_typed_target JSONParser.SUPPORTED_OPERATIONS
           0 operation H).
Defined.

(** Two [add]s of articles, in bulk mode: one batched insert. *)
Lemma bulk_view_adds_a_run_at_once_witness :
  let self := Memory.view false in
  let w := Memory.start Memory.empty in
  let objs :=
    [JDict [("type", JStr "articles"); ("title", JStr "T")];
     JDict [("type", JStr "articles"); ("title", JStr "U")]] in
  View.sequential self = false
  ∧ Forall (λ obj, Py.getitem obj "type" = Ok (JStr "articles")) objs
  ∧ Memory.journal
      (View.db (View.perform_operations self (map (pair OP_ADD) objs) w).2)
    = [Memory.BulkInserted ["1"; "2"]]
  ∧ View.perform_operations self (map (pair OP_ADD) objs) w
    = (View.put_response_data [] ;;
       View.atomic
         (serializers ← serializers_of_adds self 0 objs;
          View.perform_bulk_create serializers) ;;
       response_data ← View.get_response_data;
       mret {| View.body := response_data;
               View.status :=
                 if Nat.eqb (length response_data) 0 then 204 else 200 |}) w.
Proof.
  intros self w objs.
  assert (objs ≠ []) as Hne by discriminate.
  assert (Forall (λ obj, Py.getitem obj "type" = Ok (JStr "articles")) objs)
    as Hall by (repeat constructor).
  split; [reflexivity|]. split; [exact Hall|]. split; [by vm_compute|].
  exact (bulk_view_adds_a_run_at_once self "articles" objs w eq_refl Hne Hall).
Defined.
